(** * diffusers/image_processor.py: VaeImageProcessor and VaeImageProcessorLDM3D

    A shallow embedding of [src/diffusers/image_processor.py].

    - Python exceptions and [warnings.warn] are threaded through a small
      writer/error monad [py].
    - numpy arrays and torch tensors are a shape tuple plus a row-major
      buffer ([ndarray]); the library calls the module makes (stack,
      concatenate, transpose, slicing, min, clamp, astype) are written out on
      that representation.
    - The element arithmetic is dtype generic in the source; it is the class
      [Scalar], instantiated at IEEE binary32 (torch.FloatTensor, through the
      standard library's [SpecFloat]) and at exact rationals.
    - PIL is an external collaborator: the class [ImageLib]. *)

From Stdlib Require Import String ZArith QArith Qround List Bool Lia Lqa.
From Stdlib Require Import SpecFloat.
Import ListNotations.
Local Open Scope Z_scope.

(** ** Exceptions and warnings *)

Module Py.

(** The exceptions the module can raise, by the place that raises them. *)
Inductive exn : Type :=
| TypeError_incorrect_format   (* preprocess: unsupported input; the message
                                  itself joins type objects, so the raise
                                  statement ends in a TypeError *)
| IndexError                   (* indexing past the end: image[0], shape[-1],
                                  do_denormalize[i], image[:, :, 1] *)
| ZeroDivisionError            (* x % 0 *)
| KeyError                     (* PIL_INTERPOLATION[...] *)
| ShapeError                   (* numpy / torch refusing the shapes they get *)
| EmptyReduction               (* min() of a tensor without elements *)
| ValueError_not_divisible     (* "Currently we only support resizing for PIL image ..." *)
| ValueError_postprocess_input (* "Input for postprocessing is in incorrect format" *)
| Exception_not_supported      (* numpy_to_depth: "Not supported" *)
| Exception_type_not_supported (output_type : string)
                               (* "This type {output_type} is not supported" *)
| ImageLibError.               (* an error raised inside PIL *)

Inductive warning : Type :=
| FutureWarning_value_range        (* preprocess: input already in [-1,1] *)
| FutureWarning_output_type (output_type : string).
                                   (* deprecate("Unsupported output_type", ...) *)

(** A computation logs warnings and ends in a value or an exception. *)
Definition py (X : Type) : Type := (list warning * (exn + X))%type.

Definition ret {X} (x : X) : py X := ([], inr x).
Definition raise {X} (e : exn) : py X := ([], inl e).
Definition warn (w : warning) : py unit := ([w], inr tt).

Definition bind {X Y} (c : py X) (k : X -> py Y) : py Y :=
  match c with
  | (ws, inl e) => (ws, inl e)
  | (ws, inr x) => let '(ws', r) := k x in (ws ++ ws', r)
  end.

Definition of_option {X} (e : exn) (o : option X) : py X :=
  match o with Some x => ret x | None => raise e end.

(** [[f(x) for x in xs]]: left to right, stopping at the first exception. *)
Fixpoint mapM {X Y} (f : X -> py Y) (xs : list X) : py (list Y) :=
  match xs with
  | [] => ret []
  | x :: xs' => bind (f x) (fun y => bind (mapM f xs') (fun ys => ret (y :: ys)))
  end.

Definition warnings {X} (c : py X) : list warning := fst c.
Definition outcome {X} (c : py X) : exn + X := snd c.

End Py.
Import Py.

Notation "x <- c ;; k" := (bind c (fun x => k))
  (at level 61, c at next level, right associativity).
Notation "c ;;; k" := (bind c (fun _ => k))
  (at level 61, right associativity).

(** Python's [%] on ints: the sign of the result follows the divisor
    (as [Z.modulo] does) and a zero divisor raises. *)
Definition py_mod (x s : Z) : py Z :=
  if s =? 0 then raise ZeroDivisionError else ret (x mod s).

(** ** Element arithmetic *)

(** What the module asks of the elements of an array or tensor. *)
Class Scalar (A : Type) : Type := {
  sc_of_Z : Z -> A;               (* an int or integral float literal: 0, 1, 2.0, 255 *)
  sc_half : A;                    (* the literal 0.5 *)
  sc_add : A -> A -> A;
  sc_sub : A -> A -> A;
  sc_mul : A -> A -> A;
  sc_div : A -> A -> A;
  sc_ltb : A -> A -> bool;        (* < *)
  sc_leb : A -> A -> bool;        (* <= *)
  sc_eqb : A -> A -> bool;        (* == *)
  sc_rint : A -> option Z         (* round(): nearest integer, ties to even;
                                     None for a NaN or an infinity *)
}.

Definition sc_is_nan {A} `{Scalar A} (x : A) : bool := negb (sc_eqb x x).

(** *** Exact rationals *)

(** Nearest integer, ties to even. *)
Definition Qround_half_even (q : Q) : Z :=
  let f := Qfloor q in
  match Qcompare (q - inject_Z f) (1 # 2) with
  | Lt => f
  | Gt => f + 1
  | Eq => if Z.even f then f else f + 1
  end.

#[export] Instance Scalar_Q : Scalar Q := {|
  sc_of_Z := inject_Z;
  sc_half := 1 # 2;
  sc_add := Qplus;
  sc_sub := Qminus;
  sc_mul := Qmult;
  sc_div := Qdiv;
  sc_ltb := fun x y => negb (Qle_bool y x);
  sc_leb := Qle_bool;
  sc_eqb := Qeq_bool;
  sc_rint := fun x => Some (Qround_half_even x)
|}.

(** *** IEEE 754 binary32 (torch.float32, numpy.float32) *)

Module F32.

Definition prec : Z := 24.
Definition emax : Z := 128.

Definition t : Type := spec_float.

Definition of_Z (z : Z) : t := binary_normalize prec emax z 0 false.
Definition half : t := binary_normalize prec emax 1 (-1) false.
Definition add : t -> t -> t := SFadd prec emax.
Definition sub : t -> t -> t := SFsub prec emax.
Definition mul : t -> t -> t := SFmul prec emax.
Definition div : t -> t -> t := SFdiv prec emax.

(** The rational a finite float stands for. *)
Definition to_Q (x : t) : option Q :=
  match x with
  | S754_zero _ => Some 0%Q
  | S754_finite s m e =>
      let mz := if s then Z.neg m else Z.pos m in
      Some (match e with
            | Z0 => inject_Z mz
            | Zpos p => inject_Z (mz * 2 ^ Zpos p)
            | Zneg p => Qmake mz (2 ^ p)%positive
            end)
  | S754_infinity _ | S754_nan => None
  end.

Definition rint (x : t) : option Z := option_map Qround_half_even (to_Q x).

(** [2 ^ e] for any integer [e], as a float. *)
Definition pow2 (e : Z) : t := binary_normalize prec emax 1 e false.

End F32.

#[export] Instance Scalar_F32 : Scalar F32.t := {|
  sc_of_Z := F32.of_Z;
  sc_half := F32.half;
  sc_add := F32.add;
  sc_sub := F32.sub;
  sc_mul := F32.mul;
  sc_div := F32.div;
  sc_ltb := SFltb;
  sc_leb := SFleb;
  sc_eqb := SFeqb;
  sc_rint := F32.rint
|}.

(** torch.clamp(x, lo, hi) on one element; a NaN passes through. *)
Definition clamp {A} `{Scalar A} (x lo hi : A) : A :=
  if sc_ltb x lo then lo else if sc_ltb hi x then hi else x.

Definition normalize1 {A} `{Scalar A} (x : A) : A :=
  sc_sub (sc_mul (sc_of_Z 2) x) (sc_of_Z 1).

Definition denormalize1 {A} `{Scalar A} (x : A) : A :=
  clamp (sc_add (sc_div x (sc_of_Z 2)) sc_half) (sc_of_Z 0) (sc_of_Z 1).

(** ** Arrays and tensors *)

(** A numpy array or a torch tensor: its shape and its elements in row-major
    order.  [torch.from_numpy] and [.numpy()] keep both. *)
Record ndarray (A : Type) : Type := NdArray { shape : list nat; data : list A }.
Arguments NdArray {A} _ _.
Arguments shape {A} _.
Arguments data {A} _.

Definition tensor : Type -> Type := ndarray.

Section Arrays.
Context {A : Type}.

Definition ndim (a : ndarray A) : nat := length (shape a).

Definition numel (sh : list nat) : nat := fold_right Nat.mul 1%nat sh.

Definition shape_eqb (s1 s2 : list nat) : bool :=
  if list_eq_dec Nat.eq_dec s1 s2 then true else false.

Definition amap {B} (f : A -> B) (a : ndarray A) : ndarray B :=
  NdArray (shape a) (map f (data a)).

(** np.stack(xs, axis=0) and torch.stack(xs): a new leading axis; the list
    must be non-empty and the shapes equal. *)
Definition stack (xs : list (ndarray A)) : py (ndarray A) :=
  match xs with
  | [] => raise ShapeError
  | a :: rest =>
      if forallb (fun b => shape_eqb (shape b) (shape a)) rest
      then ret (NdArray (length xs :: shape a) (concat (map data xs)))
      else raise ShapeError
  end.

(** np.concatenate(xs, axis=0) and torch.cat(xs, axis=0): the leading axes
    add up; the list must be non-empty, no item 0-dimensional and the other
    axes equal. *)
Definition tail_shape (a : ndarray A) : option (list nat) :=
  match shape a with [] => None | _ :: tl => Some tl end.

Definition concatenate (xs : list (ndarray A)) : py (ndarray A) :=
  match xs with
  | [] => raise ShapeError
  | a :: rest =>
      match shape a with
      | [] => raise ShapeError
      | _ :: tl =>
          if forallb (fun b => match tail_shape b with
                               | Some tl' => shape_eqb tl' tl
                               | None => false
                               end) rest
          then ret (NdArray (fold_right Nat.add 0%nat (map (fun b => hd 0%nat (shape b)) xs) :: tl)
                            (concat (map data xs)))
          else raise ShapeError
      end
  end.

(** a[None, ...] and a[..., None] *)
Definition expand_first (a : ndarray A) : ndarray A := NdArray (1%nat :: shape a) (data a).
Definition expand_last (a : ndarray A) : ndarray A := NdArray (shape a ++ [1%nat]) (data a).

(** a.transpose(p0, p1, p2, p3) of numpy and t.permute(p0, p1, p2, p3) of
    torch on a 4-dimensional array: axis [k] of the result is axis [p_k] of
    the argument. *)
Definition permute4 (p0 p1 p2 p3 : nat) (a : ndarray A) : py (ndarray A) :=
  match shape a, data a with
  | [d0; d1; d2; d3], [] =>
      let dim k := nth k [d0; d1; d2; d3] 0%nat in
      ret (NdArray [dim p0; dim p1; dim p2; dim p3] [])
  | [d0; d1; d2; d3], x0 :: _ =>
      let dim k := nth k [d0; d1; d2; d3] 0%nat in
      let src i0 i1 i2 i3 m :=
        if Nat.eqb p0 m then i0 else if Nat.eqb p1 m then i1
        else if Nat.eqb p2 m then i2 else i3 in
      ret (NdArray [dim p0; dim p1; dim p2; dim p3]
        (flat_map (fun i0 => flat_map (fun i1 => flat_map (fun i2 => map (fun i3 =>
           let j := src i0 i1 i2 i3 in
           nth (((j 0 * d1 + j 1) * d2 + j 2) * d3 + j 3)%nat (data a) x0)
         (seq 0 (dim p3))) (seq 0 (dim p2))) (seq 0 (dim p1))) (seq 0 (dim p0))))
  | _, _ => raise ShapeError
  end.

(** a[i] on the leading axis. *)
Definition item (i : nat) (a : ndarray A) : py (ndarray A) :=
  match shape a with
  | [] => raise IndexError
  | n :: tl =>
      if (i <? n)%nat
      then ret (NdArray tl (firstn (numel tl) (skipn (i * numel tl) (data a))))
      else raise IndexError
  end.

(** [for x in a]: the items along the leading axis. *)
Definition items (a : ndarray A) : py (list (ndarray A)) :=
  match shape a with
  | [] => raise ShapeError
  | n :: _ => mapM (fun i => item i a) (seq 0 n)
  end.

(** Cut a buffer into consecutive blocks of [k] elements. *)
Fixpoint blocks_fuel (fuel k : nat) (l : list A) : list (list A) :=
  match fuel, l with
  | O, _ | _, [] => []
  | S fuel', _ => firstn k l :: blocks_fuel fuel' k (skipn k l)
  end.

Definition blocks (k : nat) (l : list A) : list (list A) :=
  match k with
  | O => []
  | _ => blocks_fuel (length l) k l
  end.

(** a[..., lo:hi, ...] on axis [ax]; a slice is clipped to the axis, as in
    Python, and [hi = None] is an open end. *)
Definition slice_axis (ax lo : nat) (hi : option nat) (a : ndarray A) : py (ndarray A) :=
  match nth_error (shape a) ax with
  | None => raise IndexError
  | Some d =>
      let inner := numel (skipn (S ax) (shape a)) in
      let hi' := match hi with Some h => Nat.min h d | None => d end in
      let lo' := Nat.min lo hi' in
      ret (NdArray (firstn ax (shape a) ++ (hi' - lo')%nat :: skipn (S ax) (shape a))
                   (flat_map (fun b => firstn ((hi' - lo') * inner) (skipn (lo' * inner) b))
                             (blocks (d * inner) (data a))))
  end.

(** a[..., i, ...] on axis [ax]: the axis disappears. *)
Definition select_axis (ax i : nat) (a : ndarray A) : py (ndarray A) :=
  match nth_error (shape a) ax with
  | None => raise IndexError
  | Some d =>
      if (i <? d)%nat then
        let inner := numel (skipn (S ax) (shape a)) in
        ret (NdArray (firstn ax (shape a) ++ skipn (S ax) (shape a))
                     (flat_map (fun b => firstn inner (skipn (i * inner) b))
                               (blocks (d * inner) (data a))))
      else raise IndexError
  end.

(** a.squeeze(): every axis of length 1 is dropped. *)
Definition squeeze (a : ndarray A) : ndarray A :=
  NdArray (filter (fun d => negb (Nat.eqb d 1)) (shape a)) (data a).

(** a.shape[-1] *)
Definition last_dim (a : ndarray A) : py nat :=
  of_option IndexError (nth_error (rev (shape a)) 0).

(** Elementwise binary operation of two arrays of one shape. *)
Definition zip_with (f : A -> A -> A) (a b : ndarray A) : py (ndarray A) :=
  if shape_eqb (shape a) (shape b)
  then ret (NdArray (shape a) (map (fun p => f (fst p) (snd p)) (combine (data a) (data b))))
  else raise ShapeError.

End Arrays.

Section Reductions.
Context {A : Type} `{Scalar A}.

(** The smaller of two elements; a NaN wins, as in torch.min. *)
Definition min2 (a b : A) : A :=
  if sc_is_nan a then a else if sc_is_nan b then b else if sc_ltb b a then b else a.

(** t.min() *)
Definition tmin (t : tensor A) : py A :=
  match data t with
  | [] => raise EmptyReduction
  | x :: xs => ret (fold_left min2 xs x)
  end.

End Reductions.

(** ** External collaborators *)

(** PIL.Image.Resampling *)
Inductive resampling : Type := NEAREST | BOX | BILINEAR | HAMMING | BICUBIC | LANCZOS.

(** The [mode=] argument of PIL.Image.fromarray *)
Inductive image_mode : Type := Mode_L | Mode_I16.

(** What the module uses of PIL and of numpy's view of a PIL image. *)
Class ImageLib (image : Type) : Type := {
  img_width : image -> Z;                                     (* image.width *)
  img_height : image -> Z;                                    (* image.height *)
  img_convert_rgb : image -> py image;                        (* image.convert("RGB") *)
  img_resize : image -> Z * Z -> resampling -> py image;      (* image.resize((w, h), resample=f) *)
  img_array : image -> ndarray Z;                             (* np.array(image) *)
  img_fromarray : ndarray Z -> option image_mode -> py image  (* Image.fromarray(a, mode=m) *)
}.

(** What the module imports from [.utils]: the table PIL_INTERPOLATION.
    ([deprecate] is taken to emit its FutureWarning.) *)
Class Utils : Type := {
  PIL_INTERPOLATION : string -> option resampling
}.

(** ** Configuration (register_to_config) *)

Record config : Type := Config {
  do_resize : bool;
  vae_scale_factor : Z;
  resample : string;
  do_normalize : bool;
  do_convert_rgb : bool
}.

Definition default_config : config :=
  {| do_resize := true; vae_scale_factor := 8; resample := "lanczos";
     do_normalize := true; do_convert_rgb := false |}.

(** What a caller can hand to the processor. *)
Inductive pyobj (image A : Type) : Type :=
| ObjImage (i : image)
| ObjArray (a : ndarray A)
| ObjTensor (t : tensor A)
| ObjOther.
Arguments ObjImage {image A} _.
Arguments ObjArray {image A} _.
Arguments ObjTensor {image A} _.
Arguments ObjOther {image A}.

(** The argument of preprocess: one object or a list.  Lists are homogeneous,
    as the interface asks; what numpy and torch make of a mixed list is not
    modelled. *)
Inductive input (image A : Type) : Type :=
| One (o : pyobj image A)
| Images (l : list image)
| Arrays (l : list (ndarray A))
| Tensors (l : list (tensor A)).
Arguments One {image A} _.
Arguments Images {image A} _.
Arguments Arrays {image A} _.
Arguments Tensors {image A} _.

(** (x * 255).round().astype("uint8") on one element.  The cast does not
    saturate: an integer outside [0, 255] is reduced modulo 256 (what the C
    conversion gives on the usual platforms); a NaN or an infinity gives 0. *)
Definition astype_uint8 (r : option Z) : Z :=
  match r with
  | Some z => z mod 256
  | None => 0
  end.

Definition to_uint8 {A} `{Scalar A} (x : A) : Z :=
  astype_uint8 (sc_rint (sc_mul x (sc_of_Z 255))).

(** np.array(image).astype(np.float32) / 255.0 on one element. *)
Definition from_uint8 {A} `{Scalar A} (v : Z) : A := sc_div (sc_of_Z v) (sc_of_Z 255).

Definition output_types : list string := ["latent"; "pt"; "np"; "pil"]%string.

Definition known_output_type (output_type : string) : bool :=
  existsb (String.eqb output_type) output_types.

(** What postprocess returns. *)
Inductive output (image A : Type) : Type :=
| OutTensor (t : tensor A)         (* "latent", "pt" *)
| OutArray (a : ndarray A)         (* "np" *)
| OutImages (l : list image)       (* "pil" *)
| OutNone.                         (* falling off the end of the function *)
Arguments OutTensor {image A} _.
Arguments OutArray {image A} _.
Arguments OutImages {image A} _.
Arguments OutNone {image A}.

(** What the LDM3D postprocess returns: an (rgb, depth) pair. *)
Inductive output3d (image A : Type) : Type :=
| OutArrays3D (rgb depth : ndarray A)        (* "np" *)
| OutImages3D (rgb depth : list image).      (* "pil" *)
Arguments OutArrays3D {image A} _ _.
Arguments OutImages3D {image A} _ _.

(** [x * 2**8 + y] is used on float arrays and on uint8 arrays. *)
Class NpNum (T : Type) : Type := {
  np_mul_int : T -> Z -> T;       (* element * Python int *)
  np_add : T -> T -> T
}.

#[export] Instance NpNum_Scalar {A} `{Scalar A} : NpNum A := {|
  np_mul_int := fun x k => sc_mul x (sc_of_Z k);
  np_add := sc_add
|}.

(** uint8 elements: multiplying by the Python int 256, which does not fit
    uint8, promotes the array to uint16 (numpy 1.x value-based casting), and
    the sum with a uint8 array stays uint16; uint16 arithmetic wraps. *)
#[export] Instance NpNum_uint8 : NpNum Z := {|
  np_mul_int := fun x k => (x * k) mod 2 ^ 16;
  np_add := fun x y => (x + y) mod 2 ^ 16
|}.

(** ** class VaeImageProcessor *)

Module VaeImageProcessor.
Section Methods.
Context {A : Type} `{Scalar A} {image : Type} `{ImageLib image} `{Utils}.

Definition numpy_to_pil (images : ndarray A) : py (list image) :=
  let images := if Nat.eqb (ndim images) 3 then expand_first images else images in
  let images := amap to_uint8 images in
  c <- last_dim images ;;
  ims <- items images ;;
  if Nat.eqb c 1
  then mapM (fun im => img_fromarray (squeeze im) (Some Mode_L)) ims
  else mapM (fun im => img_fromarray im None) ims.

Definition pil_to_numpy (images : list image) : py (ndarray A) :=
  stack (map (fun im => amap from_uint8 (img_array im)) images).

Definition numpy_to_pt (images : ndarray A) : py (tensor A) :=
  let images := if Nat.eqb (ndim images) 3 then expand_last images else images in
  permute4 0 3 1 2 images.

(** [.cpu()] and [.float()] leave a float32 tensor as it is. *)
Definition pt_to_numpy (images : tensor A) : py (ndarray A) :=
  permute4 0 2 3 1 images.

Definition normalize (images : ndarray A) : ndarray A := amap normalize1 images.

Definition denormalize (images : ndarray A) : ndarray A := amap denormalize1 images.

Definition convert_to_rgb (im : image) : py image := img_convert_rgb im.

(** The (width, height) that resize hands to image.resize. *)
Definition resize_dims (cfg : config) (im : image) (height width : option Z) : py (Z * Z) :=
  let height := match height with None => img_height im | Some h => h end in
  let width := match width with None => img_width im | Some w => w end in
  rw <- py_mod width (vae_scale_factor cfg) ;;
  rh <- py_mod height (vae_scale_factor cfg) ;;
  ret (width - rw, height - rh).

Definition resize (cfg : config) (im : image) (height width : option Z) : py image :=
  wh <- resize_dims cfg im height width ;;
  f <- of_option KeyError (PIL_INTERPOLATION (resample cfg)) ;;
  img_resize im wh f.

(** do_resize and (height % f != 0 or width % f != 0), evaluated lazily. *)
Definition not_divisible (cfg : config) (height width : nat) : py bool :=
  if do_resize cfg then
    rh <- py_mod (Z.of_nat height) (vae_scale_factor cfg) ;;
    if negb (rh =? 0) then ret true
    else rw <- py_mod (Z.of_nat width) (vae_scale_factor cfg) ;;
         ret (negb (rw =? 0))
  else ret false.

(** Lines 174-175: the arrays of the list as one batch in tensor layout. *)
Definition batch_arrays (l : list (ndarray A)) : py (tensor A) :=
  a0 <- of_option IndexError (nth_error l 0) ;;
  a <- (if Nat.eqb (ndim a0) 4 then concatenate l else stack l) ;;
  numpy_to_pt a.

(** Line 186: the tensors of the list as one batch. *)
Definition batch_tensors (l : list (tensor A)) : py (tensor A) :=
  t0 <- of_option IndexError (nth_error l 0) ;;
  if Nat.eqb (ndim t0) 4 then concatenate l else stack l.

(** Lines 201-214: the value range and the normalization. *)
Definition normalize_range (cfg : config) (t : tensor A) : py (tensor A) :=
  m <- tmin t ;;
  do_normalize' <- (if sc_ltb m (sc_of_Z 0)
                    then warn FutureWarning_value_range ;;; ret false
                    else ret (do_normalize cfg)) ;;
  if do_normalize' then ret (normalize t) else ret t.

Definition preprocess (cfg : config) (inp : input image A) (height width : option Z)
  : py (tensor A) :=
  let process_images (l : list image) :=
    _ <- of_option IndexError (nth_error l 0) ;;
    l <- (if do_convert_rgb cfg then mapM convert_to_rgb l else ret l) ;;
    l <- (if do_resize cfg then mapM (fun i => resize cfg i height width) l else ret l) ;;
    a <- pil_to_numpy l ;;
    t <- numpy_to_pt a ;;
    normalize_range cfg t in
  let process_arrays (l : list (ndarray A)) :=
    t <- batch_arrays l ;;
    match shape t with
    | [_; _; height; width] =>
        bad <- not_divisible cfg height width ;;
        if bad then raise ValueError_not_divisible else normalize_range cfg t
    | _ => raise ShapeError
    end in
  let process_tensors (l : list (tensor A)) :=
    t <- batch_tensors l ;;
    match shape t with
    | [_; channel; height; width] =>
        if Nat.eqb channel 4 then ret t
        else
          bad <- not_divisible cfg height width ;;
          if bad then raise ValueError_not_divisible else normalize_range cfg t
    | _ => raise ShapeError
    end in
  match inp with
  | One (ObjImage i) => process_images [i]
  | One (ObjArray a) => process_arrays [a]
  | One (ObjTensor t) => process_tensors [t]
  | One ObjOther => raise TypeError_incorrect_format
  | Images l => process_images l
  | Arrays l => process_arrays l
  | Tensors l => process_tensors l
  end.

(** Lines 226-232 *)
Definition resolve_output_type (output_type : string) : py string :=
  if known_output_type output_type then ret output_type
  else warn (FutureWarning_output_type output_type) ;;; ret "np"%string.

(** Lines 237-242: each item of the batch denormalized or not by its flag. *)
Definition denormalize_batch (cfg : config) (t : tensor A) (do_denormalize : option (list bool))
  : py (tensor A) :=
  n <- of_option IndexError (nth_error (shape t) 0) ;;
  let flags := match do_denormalize with
               | None => repeat (do_normalize cfg) n
               | Some l => l
               end in
  ims <- mapM (fun i => flag <- of_option IndexError (nth_error flags i) ;;
                        im <- item i t ;;
                        ret (if flag : bool then denormalize im else im))
              (seq 0 n) ;;
  stack ims.

Definition postprocess (cfg : config) (obj : pyobj image A) (output_type : string)
                       (do_denormalize : option (list bool)) : py (output image A) :=
  match obj with
  | ObjTensor t =>
      output_type <- resolve_output_type output_type ;;
      if String.eqb output_type "latent" then ret (OutTensor t)
      else
        t <- denormalize_batch cfg t do_denormalize ;;
        if String.eqb output_type "pt" then ret (OutTensor t)
        else
          a <- pt_to_numpy t ;;
          if String.eqb output_type "np" then ret (OutArray a)
          else if String.eqb output_type "pil"
               then l <- numpy_to_pil a ;; ret (OutImages l)
               else ret OutNone
  | _ => raise ValueError_postprocess_input
  end.

End Methods.
End VaeImageProcessor.

(** ** class VaeImageProcessorLDM3D(VaeImageProcessor) *)

Module VaeImageProcessorLDM3D.
Section Methods.
Context {A : Type} `{Scalar A} {image : Type} `{ImageLib image} `{Utils}.

Definition numpy_to_pil (images : ndarray A) : py (list image) :=
  let images := if Nat.eqb (ndim images) 3 then expand_first images else images in
  let images := amap to_uint8 images in
  c <- last_dim images ;;
  ims <- items images ;;
  if Nat.eqb c 1
  then mapM (fun im => img_fromarray (squeeze im) (Some Mode_L)) ims
  else mapM (fun im => rgb <- slice_axis 2 0 (Some 3%nat) im ;; img_fromarray rgb None) ims.

(** image[:, :, 1] * 2**8 + image[:, :, 2] *)
Definition rgblike_to_depthmap {T} `{NpNum T} (im : ndarray T) : py (ndarray T) :=
  hi <- select_axis 2 1 im ;;
  lo <- select_axis 2 2 im ;;
  zip_with np_add (amap (fun x => np_mul_int x (2 ^ 8)) hi) lo.

Definition numpy_to_depth (images : ndarray A) : py (list image) :=
  let images := if Nat.eqb (ndim images) 3 then expand_first images else images in
  let images := amap to_uint8 images in
  c <- last_dim images ;;
  if Nat.eqb c 1 then raise Exception_not_supported
  else
    ims <- items images ;;
    mapM (fun im => d <- slice_axis 2 3 None im ;;
                    m <- rgblike_to_depthmap d ;;
                    img_fromarray m (Some Mode_I16)) ims.

(** The latent and pt returns are commented out in the source. *)
Definition postprocess (cfg : config) (obj : pyobj image A) (output_type : string)
                       (do_denormalize : option (list bool)) : py (output3d image A) :=
  match obj with
  | ObjTensor t =>
      output_type <- VaeImageProcessor.resolve_output_type output_type ;;
      t <- VaeImageProcessor.denormalize_batch cfg t do_denormalize ;;
      a <- VaeImageProcessor.pt_to_numpy t ;;
      if String.eqb output_type "np" then
        rgb <- slice_axis 3 0 (Some 3%nat) a ;;
        ims <- items a ;;
        ds <- mapM (fun im => d <- slice_axis 2 3 None im ;; rgblike_to_depthmap d) ims ;;
        depth <- stack ds ;;
        ret (OutArrays3D rgb depth)
      else if String.eqb output_type "pil" then
        rgb <- numpy_to_pil a ;;
        depth <- numpy_to_depth a ;;
        ret (OutImages3D rgb depth)
      else raise (Exception_type_not_supported output_type)
  | _ => raise ValueError_postprocess_input
  end.

End Methods.
End VaeImageProcessorLDM3D.

(** ** A raster instance of the image library

    Enough of PIL to run the processor on concrete inputs: 8-bit (or, from
    [Mode_I16], 16-bit) pixels in row-major, channel-last order, and
    nearest-neighbour sampling whatever the filter. *)

Record raster : Type := Raster {
  r_width : nat;
  r_height : nat;
  r_bands : nat;
  r_pixels : list Z
}.

Definition raster_array (r : raster) : ndarray Z :=
  NdArray (if Nat.eqb (r_bands r) 1 then [r_height r; r_width r]
           else [r_height r; r_width r; r_bands r])
          (r_pixels r).

Definition raster_convert_rgb (r : raster) : py raster :=
  match r_bands r with
  | 1%nat => ret (Raster (r_width r) (r_height r) 3 (flat_map (fun v => [v; v; v]) (r_pixels r)))
  | 3%nat => ret r
  | 4%nat => ret (Raster (r_width r) (r_height r) 3
                         (flat_map (firstn 3) (blocks 4 (r_pixels r))))
  | _ => raise ImageLibError
  end.

Definition raster_resize (r : raster) (wh : Z * Z) (_ : resampling) : py raster :=
  let '(w, h) := wh in
  if (w <? 0) || (h <? 0) then raise ImageLibError
  else
    let w' := Z.to_nat w in
    let h' := Z.to_nat h in
    let px y x := firstn (r_bands r)
                    (skipn (((y * r_height r / h') * r_width r + x * r_width r / w') * r_bands r)
                           (r_pixels r)) in
    ret (Raster w' h' (r_bands r)
                (flat_map (fun y => flat_map (fun x => px y x) (seq 0 w')) (seq 0 h')))%nat.

Definition raster_fromarray (a : ndarray Z) (_ : option image_mode) : py raster :=
  match shape a with
  | [h; w] => ret (Raster w h 1 (data a))
  | [h; w; c] =>
      if (Nat.leb 1 c && Nat.leb c 4)%bool then ret (Raster w h c (data a))
      else raise ImageLibError
  | _ => raise ImageLibError
  end.

#[export] Instance ImageLib_raster : ImageLib raster := {|
  img_width := fun r => Z.of_nat (r_width r);
  img_height := fun r => Z.of_nat (r_height r);
  img_convert_rgb := raster_convert_rgb;
  img_resize := raster_resize;
  img_array := raster_array;
  img_fromarray := raster_fromarray
|}.

(** Modelled from the spec: the table PIL_INTERPOLATION of [.utils], which is
    not part of this file; the names are those of the resampleFilter enum
    of the data model. *)
#[export] Instance Utils_table : Utils := {|
  PIL_INTERPOLATION := fun name =>
    if String.eqb name "nearest" then Some NEAREST
    else if String.eqb name "bilinear" then Some BILINEAR
    else if String.eqb name "bicubic" then Some BICUBIC
    else if String.eqb name "lanczos" then Some LANCZOS
    else if String.eqb name "box" then Some BOX
    else if String.eqb name "hamming" then Some HAMMING
    else None
|}.

(** The encoding of a 16-bit depth value into an RGB-like pixel that
    [rgblike_to_depthmap] undoes: high byte in channel 1, low byte in
    channel 2, channel 0 free. *)
Definition encode_depth (c0 v : Z) : list Z := [c0; v / 256; v mod 256].

(** The list an array input or a tensor input stands for. *)
Definition array_input {image A} (inp : input image A) : option (list (ndarray A)) :=
  match inp with
  | One (ObjArray a) => Some [a]
  | Arrays l => Some l
  | _ => None
  end.

Definition tensor_input {image A} (inp : input image A) : option (list (tensor A)) :=
  match inp with
  | One (ObjTensor t) => Some [t]
  | Tensors l => Some l
  | _ => None
  end.

(** [inp] is an array input, or a tensor input that is not a latent, and its
    batch is the 4-dimensional tensor [t]. *)
Definition batched {image A} (inp : input image A) (t : tensor A) : Prop :=
  (exists l, array_input inp = Some l /\ VaeImageProcessor.batch_arrays l = ret t) \/
  (exists l, tensor_input inp = Some l /\ VaeImageProcessor.batch_tensors l = ret t /\
             nth_error (shape t) 1 <> Some 4%nat).

(** Concrete inputs the statements below are run on. *)

(** A 3 x 8 grayscale array of one half, and its batch in tensor layout. *)
Definition gray_3x8 : ndarray Q := NdArray [3; 8; 1]%nat (repeat (1 # 2)%Q 24).
Definition gray_3x8_batch : tensor Q := NdArray [1; 1; 3; 8]%nat (repeat (1 # 2)%Q 24).

(** Two 1 x 2 x 2 float32 tensors, one of them with a negative entry, and
    their batch. *)
Definition plane_a : tensor F32.t := NdArray [1; 2; 2]%nat (map F32.of_Z [0; 1; 1; 0]).
Definition plane_b : tensor F32.t := NdArray [1; 2; 2]%nat (map F32.of_Z [1; -1; 0; 1]).
Definition planes_batch : tensor F32.t :=
  NdArray [2; 1; 2; 2]%nat (map F32.of_Z [0; 1; 1; 0; 1; -1; 0; 1]).

(** A 2 x 2 array with four channels, values k/16, and its tensor layout. *)
Definition rgba_2x2 : ndarray Q :=
  NdArray [1; 2; 2; 4]%nat (map (fun k => Qmake k 16) [0; 1; 2; 3; 4; 5; 6; 7; 8; 9; 10; 11; 12; 13; 14; 15]).
Definition rgba_2x2_pt : tensor Q :=
  NdArray [1; 4; 2; 2]%nat (map (fun k => Qmake k 16) [0; 4; 8; 12; 1; 5; 9; 13; 2; 6; 10; 14; 3; 7; 11; 15]).

Definition config_scale2 : config :=
  {| do_resize := true; vae_scale_factor := 2; resample := "lanczos";
     do_normalize := true; do_convert_rgb := false |}.

(** A one-pixel tensor with three colour and three depth channels, and what
    the LDM3D postprocess makes of it as arrays. *)
Definition rgbd_1x6x1x1 : tensor F32.t :=
  NdArray [1; 6; 1; 1]%nat (map F32.of_Z [-1; 0; 1; -1; 0; 1]).
Definition rgbd_rgb : ndarray F32.t :=
  NdArray [1; 1; 1; 3]%nat [F32.of_Z 0; F32.half; F32.of_Z 1].
Definition rgbd_depth : ndarray F32.t :=
  NdArray [1; 1; 1]%nat [F32.of_Z 129].

(** The pixel as the specification words it: round(x * 255) clamped to
    [0, 255]; to be compared with [to_uint8]. *)
Definition spec_pixel {A} `{Scalar A} (x : A) : option Z :=
  option_map (fun r => Z.max 0 (Z.min r 255)) (sc_rint (sc_mul x (sc_of_Z 255))).

(** 2 ** -30 as a float32, and the float32 of the 8-bit pixel value 1. *)
Definition tiny : F32.t := F32.pow2 (-30).
Definition pixel_1 : F32.t := from_uint8 1.

(** An array whose buffer holds as many elements as its shape says, as
    every numpy array and torch tensor does. *)
Definition well_formed {A} (a : ndarray A) : Prop :=
  length (data a) = numel (shape a).

(** An 8-bit value. *)
Definition is_uint8 (v : Z) : Prop := 0 <= v <= 255.

(** The item [i] of the batch [t], of item shape [tl], after its flag of
    [flags] has been applied: denormalized or left as it is. *)
Definition flagged_item {A} `{Scalar A} (t : tensor A) (tl : list nat) (flags : list bool)
                        (i : nat) : tensor A :=
  let im := NdArray tl (firstn (numel tl) (skipn (i * numel tl) (data t))) in
  if nth i flags false then VaeImageProcessor.denormalize im else im.

(** The list an image input stands for. *)
Definition image_input {image A} (inp : input image A) : option (list image) :=
  match inp with
  | One (ObjImage i) => Some [i]
  | Images l => Some l
  | _ => None
  end.

(** [lo <= y <= hi] as the elements compare. *)
Definition between {A} `{Scalar A} (lo hi : Z) (y : A) : Prop :=
  sc_leb (sc_of_Z lo) y = true /\ sc_leb y (sc_of_Z hi) = true.

(** An image of two pixels, one dark and one bright. *)
Definition two_pixels : raster := Raster 2 1 3 [0; 1; 2; 253; 254; 255].

(** Resize and RGB conversion off, normalization on. *)
Definition config_plain : config :=
  {| do_resize := false; vae_scale_factor := 8; resample := "lanczos";
     do_normalize := true; do_convert_rgb := false |}.

(** One pixel of a six-channel float image: three colour values, then an
    RGB-like depth triple holding the 16-bit value [v] under the free
    channel [c0], each byte as the float k / 255. *)
Definition rgbd_pixel {A} `{Scalar A} (p : (A * A * A) * (Z * Z)) : list A :=
  let '((x1, x2, x3), (c0, v)) := p in
  [x1; x2; x3; from_uint8 c0; from_uint8 (v / 256); from_uint8 (v mod 256)].

(** One pixel of a six-channel image: three colour values, then three
    depth values of any kind; and the 8-bit colour of such a pixel. *)
Definition six_channels {A} (p : (A * A * A) * (A * A * A)) : list A :=
  let '((x1, x2, x3), (d1, d2, d3)) := p in [x1; x2; x3; d1; d2; d3].

Definition colour_bytes {A} `{Scalar A} (p : (A * A * A) * (A * A * A)) : list Z :=
  let '((x1, x2, x3), _) := p in [to_uint8 x1; to_uint8 x2; to_uint8 x3].

(** A non-empty list of well-formed numpy arrays with four channels that
    make a batch of [N] images of height [h] and width [w]: single images
    of shape (h, w, 4), one per item, or batches of shape (n, h, w, 4)
    whose leading axes add up to [N]. *)
Definition four_channel_arrays {A} (l : list (ndarray A)) (N h w : nat) : Prop :=
  l <> [] /\ Forall well_formed l /\
  ((Forall (fun a => shape a = [h; w; 4]%nat) l /\ N = length l) \/
   (exists ns, Forall2 (fun a n => shape a = [n; h; w; 4]%nat) l ns /\ N = list_sum ns)).

(** Two 1 x 2 images with four channels, the second with a negative value,
    and their batch in tensor layout. *)
Definition rgba_1x2_a : ndarray Q :=
  NdArray [1; 2; 4]%nat (map (fun k => Qmake k 8) [0; 1; 2; 3; 4; 5; 6; 7]).
Definition rgba_1x2_b : ndarray Q :=
  NdArray [1; 2; 4]%nat (map (fun k => Qmake k 8) [8; 7; 6; 5; 4; 3; 2; -1]).
Definition rgba_1x2_pt : tensor Q :=
  NdArray [2; 4; 1; 2]%nat
    (map (fun k => Qmake k 8) [0; 4; 1; 5; 2; 6; 3; 7; 8; 4; 7; 3; 6; 2; 5; -1]).

(** * Properties *)

(** ** The monad *)

Lemma bind_ret_l {X Y} (x : X) (k : X -> py Y) : bind (ret x) k = k x.
Proof.
  unfold bind, ret. destruct (k x) as [ws r]. reflexivity.
Qed.

Lemma bind_raise_l {X Y} (e : exn) (k : X -> py Y) : bind (raise e) k = raise e.
Proof. reflexivity. Qed.

Lemma outcome_bind_inl {X Y} (c : py X) (k : X -> py Y) (e : exn) :
  outcome c = inl e -> outcome (bind c k) = inl e.
Proof.
  unfold outcome. destruct c as [ws [e' | x]]; simpl; intros E; [injection E as -> | discriminate]; reflexivity.
Qed.

Lemma outcome_bind_inr {X Y} (c : py X) (k : X -> py Y) (x : X) :
  outcome c = inr x -> outcome (bind c k) = outcome (k x).
Proof.
  unfold outcome. destruct c as [ws [e' | x']]; simpl; intros E; [discriminate |].
  injection E as ->. destruct (k x) as [ws' r]. reflexivity.
Qed.

(** ** Shapes *)

Lemma shape_eqb_refl (sh : list nat) : shape_eqb sh sh = true.
Proof.
  unfold shape_eqb. destruct (list_eq_dec Nat.eq_dec sh sh) as [_ | N].
  - reflexivity.
  - exfalso. apply N. reflexivity.
Qed.

Lemma concatenate_singleton {A} (t : ndarray A) n tl :
  shape t = n :: tl -> concatenate [t] = ret t.
Proof.
  intros E. destruct t as [sh d]. simpl in E. subst sh.
  unfold concatenate. simpl.
  rewrite Nat.add_0_r, app_nil_r. reflexivity.
Qed.

Lemma stack_singleton {A} (a : ndarray A) :
  stack [a] = ret (NdArray (1%nat :: shape a) (data a)).
Proof.
  unfold stack. simpl. rewrite app_nil_r. reflexivity.
Qed.

(** ** C1: latent passthrough *)

(** C1. A 4-dimensional tensor whose channel dimension is 4 comes back from
    the base preprocess as it went in, whatever do_resize, do_normalize, the
    scale factor and the requested height and width are: nothing is raised,
    nothing is warned about, and the divisibility check and the
    normalization are not reached.  The same holds for the tensor alone in a
    list. *)
Theorem C1_latent_tensor_returned_unchanged :
  forall (A : Type) (SA : Scalar A) (image : Type) (IL : ImageLib image) (U : Utils)
         (cfg : config) (t : tensor A) (n h w : nat) (height width : option Z),
    shape t = [n; 4; h; w]%nat ->
    VaeImageProcessor.preprocess cfg (One (ObjTensor t)) height width = ret t /\
    VaeImageProcessor.preprocess cfg (Tensors [t]) height width = ret t.
Proof.
  intros A SA image IL U cfg t n h w height width Hsh.
  assert (E : VaeImageProcessor.batch_tensors [t] = ret t).
  { unfold VaeImageProcessor.batch_tensors. simpl nth_error.
    unfold of_option. rewrite bind_ret_l.
    unfold ndim. rewrite Hsh. simpl Nat.eqb.
    eapply concatenate_singleton; eassumption. }
  split; unfold VaeImageProcessor.preprocess; rewrite E, bind_ret_l, Hsh; reflexivity.
Qed.

(** A latent of odd height and width with a negative entry, under the
    default configuration (resize and normalize on). *)
Definition latent_1x4x1x3 : tensor F32.t :=
  NdArray [1; 4; 1; 3]%nat (map F32.of_Z [0; 1; -2; 3; 4; 5; 6; 7; 8; 9; 10; 11]).

Lemma C1_latent_tensor_returned_unchanged_witness :
  VaeImageProcessor.preprocess (image := raster) default_config
    (One (ObjTensor latent_1x4x1x3)) None None = ret latent_1x4x1x3 /\
  VaeImageProcessor.preprocess (image := raster) default_config
    (Tensors [latent_1x4x1x3]) None None = ret latent_1x4x1x3.
Proof.
  apply (C1_latent_tensor_returned_unchanged F32.t _ raster _ _ default_config
           latent_1x4x1x3 1 1 3 None None).
  reflexivity.
Defined.

(** ** C7: the size resize asks for *)

Lemma floor_to_multiple (x s : Z) :
  0 < s ->
  (x - x mod s) mod s = 0 /\ x - x mod s <= x /\ x - (x - x mod s) < s /\
  (x mod s = 0 -> x - x mod s = x).
Proof.
  intros Hs.
  pose proof (Z.mod_pos_bound x s Hs) as [Hlo Hhi].
  repeat split; try lia.
  rewrite Zminus_mod_idemp_r, Z.sub_diag. apply Z.mod_0_l. lia.
Qed.

(** C7. With a positive scale factor s, resize asks the image library for
    the size (w', h') with w' = w - w mod s and h' = h - h mod s, where w and
    h are the width and height passed in, or the image's own where none is
    passed.  Hence both are multiples of s, neither exceeds the size it
    comes from, each is less than s below it, and a size that is already a
    multiple of s is kept. *)
Theorem C7_resize_floors_to_multiple :
  forall (image : Type) (IL : ImageLib image) (U : Utils)
         (cfg : config) (im : image) (height width : option Z),
    0 < vae_scale_factor cfg ->
    let s := vae_scale_factor cfg in
    let h := match height with None => img_height im | Some h => h end in
    let w := match width with None => img_width im | Some w => w end in
    let w' := w - w mod s in
    let h' := h - h mod s in
    VaeImageProcessor.resize_dims cfg im height width = ret (w', h') /\
    VaeImageProcessor.resize cfg im height width =
      (f <- of_option KeyError (PIL_INTERPOLATION (resample cfg)) ;; img_resize im (w', h') f) /\
    w' mod s = 0 /\ h' mod s = 0 /\
    w' <= w /\ h' <= h /\
    w - w' < s /\ h - h' < s /\
    (w mod s = 0 -> w' = w) /\ (h mod s = 0 -> h' = h).
Proof.
  intros image IL U cfg im height width Hs s h w w' h'.
  assert (E : VaeImageProcessor.resize_dims cfg im height width = ret (w', h')).
  { unfold VaeImageProcessor.resize_dims, py_mod. fold s. fold h. fold w.
    assert (Hz : (s =? 0) = false) by (apply Z.eqb_neq; unfold s; lia).
    rewrite Hz. rewrite !bind_ret_l. reflexivity. }
  destruct (floor_to_multiple w s Hs) as (W1 & W2 & W3 & W4).
  destruct (floor_to_multiple h s Hs) as (H1 & H2 & H3 & H4).
  split; [exact E |].
  split; [unfold VaeImageProcessor.resize; rewrite E, bind_ret_l; reflexivity |].
  unfold w', h'. repeat split; assumption.
Qed.

(** A 70 x 45 image under the default configuration is resized to 64 x 40. *)
Lemma C7_resize_floors_to_multiple_witness :
  VaeImageProcessor.resize_dims default_config (Raster 70 45 3 []) None None = ret (64, 40) /\
  VaeImageProcessor.resize_dims default_config (Raster 70 45 3 []) (Some 16) (Some 23) = ret (16, 16).
Proof.
  split.
  - destruct (C7_resize_floors_to_multiple raster _ _ default_config (Raster 70 45 3 [])
                None None eq_refl) as [E _].
    exact E.
  - destruct (C7_resize_floors_to_multiple raster _ _ default_config (Raster 70 45 3 [])
                (Some 16) (Some 23) eq_refl) as [E _].
    exact E.
Defined.

(** ** C6: depth packing *)

Lemma blocks_fuel_encode (px : list (Z * Z)) (fuel : nat) :
  (length px <= fuel)%nat ->
  blocks_fuel fuel 3 (flat_map (fun p => encode_depth (fst p) (snd p)) px)
  = map (fun p => encode_depth (fst p) (snd p)) px.
Proof.
  revert fuel. induction px as [| p px IH]; intros fuel Hlen.
  - destruct fuel; reflexivity.
  - destruct fuel as [| fuel]; [simpl in Hlen; lia |].
    simpl. f_equal. apply IH. simpl in Hlen. lia.
Qed.

Lemma blocks_encode (px : list (Z * Z)) :
  blocks 3 (flat_map (fun p => encode_depth (fst p) (snd p)) px)
  = map (fun p => encode_depth (fst p) (snd p)) px.
Proof.
  unfold blocks. apply blocks_fuel_encode.
  induction px as [| p px IH]; simpl; lia.
Qed.

Lemma flat_map_map {X Y W} (f : X -> Y) (g : Y -> list W) (l : list X) :
  flat_map g (map f l) = flat_map (fun x => g (f x)) l.
Proof.
  induction l as [| x l IH]; simpl; [reflexivity | now rewrite IH].
Qed.

Lemma flat_map_singleton {X Y} (f : X -> Y) (l : list X) :
  flat_map (fun x => [f x]) l = map f l.
Proof.
  induction l as [| x l IH]; simpl; [reflexivity | now rewrite IH].
Qed.

Lemma depth_decode_bytes (v : Z) :
  0 <= v <= 65535 ->
  (((v / 256) * 2 ^ 8) mod 2 ^ 16 + v mod 256) mod 2 ^ 16 = v.
Proof.
  intros Hv.
  change (2 ^ 8) with 256. change (2 ^ 16) with 65536.
  pose proof (Z.div_mod v 256 ltac:(lia)) as E.
  pose proof (Z.mod_pos_bound v 256 ltac:(lia)) as Hm.
  assert (0 <= v / 256 < 256)
    by (split; [apply Z.div_pos; lia | apply Z.div_lt_upper_bound; lia]).
  rewrite (Z.mod_small (v / 256 * 256)) by lia.
  rewrite Z.mod_small by lia. lia.
Qed.

(** C6. Take any image of h x w RGB-like uint8 pixels in which every pixel
    carries a 16-bit value v (0 <= v <= 65535) as v // 256 in channel 1 and
    v % 256 in channel 2, with anything in channel 0.  rgblike_to_depthmap
    returns the h x w map of exactly those values v: the result is the same
    for every content of channel 0. *)
Theorem C6_depth_roundtrip :
  forall (h w : nat) (px : list (Z * Z)),
    Forall (fun p => 0 <= snd p <= 65535) px ->
    VaeImageProcessorLDM3D.rgblike_to_depthmap
      (NdArray [h; w; 3%nat] (flat_map (fun p => encode_depth (fst p) (snd p)) px))
    = ret (NdArray [h; w] (map snd px)).
Proof.
  intros h w px Hpx.
  unfold VaeImageProcessorLDM3D.rgblike_to_depthmap, select_axis.
  cbn [shape data nth_error Nat.ltb Nat.leb skipn firstn numel fold_right app].
  rewrite !bind_ret_l.
  cbn [Nat.mul Nat.add]. rewrite blocks_encode, !flat_map_map.
  cbn [encode_depth skipn firstn fst snd].
  rewrite !flat_map_singleton.
  unfold zip_with, amap. cbn [shape data]. rewrite shape_eqb_refl.
  f_equal. f_equal.
  induction Hpx as [| p px Hp _ IH]; [reflexivity |].
  cbn [map combine fst snd]. rewrite IH. f_equal.
  cbn [np_add np_mul_int NpNum_uint8]. apply depth_decode_bytes. exact Hp.
Qed.

(** A 1 x 2 image holding 0 and 65535 next to two different red channels. *)
Lemma C6_depth_roundtrip_witness :
  VaeImageProcessorLDM3D.rgblike_to_depthmap
    (NdArray [1; 2; 3]%nat (encode_depth 7 0 ++ encode_depth 200 65535 ++ []))
  = ret (NdArray [1; 2]%nat [0; 65535]).
Proof.
  apply (C6_depth_roundtrip 1 2 [(7, 0); (200, 65535)]).
  repeat constructor; simpl; lia.
Defined.

(** ** C3, C4: the array path and the tensor path of preprocess *)

Section Preprocess.
Context {A : Type} `{Scalar A} {image : Type} `{ImageLib image} `{Utils}.

Lemma not_divisible_eq (cfg : config) (h w : nat) :
  vae_scale_factor cfg <> 0 ->
  VaeImageProcessor.not_divisible cfg h w
  = ret (do_resize cfg &&
         (negb (Z.of_nat h mod vae_scale_factor cfg =? 0) ||
          negb (Z.of_nat w mod vae_scale_factor cfg =? 0))).
Proof.
  intros Hs. unfold VaeImageProcessor.not_divisible, py_mod.
  apply Z.eqb_neq in Hs. rewrite Hs.
  destruct (do_resize cfg); [| reflexivity].
  rewrite bind_ret_l.
  destruct (Z.of_nat h mod vae_scale_factor cfg =? 0); simpl negb; cbv iota.
  - rewrite bind_ret_l. reflexivity.
  - reflexivity.
Qed.

Lemma not_divisible_off (cfg : config) (h w : nat) :
  do_resize cfg = false -> VaeImageProcessor.not_divisible cfg h w = ret false.
Proof.
  intros E. unfold VaeImageProcessor.not_divisible. rewrite E. reflexivity.
Qed.

(** What is left of preprocess once the batch is there. *)
Lemma preprocess_batched (cfg : config) (inp : input image A) (t : tensor A)
      (n c h w : nat) (height width : option Z) :
  batched inp t ->
  shape t = [n; c; h; w]%nat ->
  VaeImageProcessor.preprocess cfg inp height width
  = (bad <- VaeImageProcessor.not_divisible cfg h w ;;
     if bad then raise ValueError_not_divisible
     else VaeImageProcessor.normalize_range cfg t).
Proof.
  intros [(l & Hin & Hb) | (l & Hin & Hb & Hc)] Hsh.
  - assert (E : VaeImageProcessor.preprocess cfg inp height width
                = (t' <- VaeImageProcessor.batch_arrays l ;;
                   match shape t' with
                   | [_; _; h'; w'] =>
                       bad <- VaeImageProcessor.not_divisible cfg h' w' ;;
                       if bad then raise ValueError_not_divisible
                       else VaeImageProcessor.normalize_range cfg t'
                   | _ => raise ShapeError
                   end)).
    { destruct inp as [[i | a | t' |] | l' | l' | l']; simpl in Hin;
        try discriminate; injection Hin as <-; reflexivity. }
    rewrite E, Hb, bind_ret_l, Hsh. reflexivity.
  - assert (E : VaeImageProcessor.preprocess cfg inp height width
                = (t' <- VaeImageProcessor.batch_tensors l ;;
                   match shape t' with
                   | [_; channel; h'; w'] =>
                       if Nat.eqb channel 4 then ret t'
                       else
                         bad <- VaeImageProcessor.not_divisible cfg h' w' ;;
                         if bad then raise ValueError_not_divisible
                         else VaeImageProcessor.normalize_range cfg t'
                   | _ => raise ShapeError
                   end)).
    { destruct inp as [[i | a | t' |] | l' | l' | l']; simpl in Hin;
        try discriminate; injection Hin as <-; reflexivity. }
    rewrite E, Hb, bind_ret_l, Hsh.
    rewrite Hsh in Hc. simpl in Hc.
    destruct (Nat.eqb_spec c 4) as [-> | _]; [exfalso; apply Hc; reflexivity | reflexivity].
Qed.

(** The range step raises nothing but the empty reduction. *)
Lemma normalize_range_outcome (cfg : config) (t : tensor A) (e : exn) :
  outcome (VaeImageProcessor.normalize_range cfg t) = inl e -> e = EmptyReduction.
Proof.
  unfold VaeImageProcessor.normalize_range, tmin.
  destruct (data t) as [| x xs].
  - simpl. intros E. injection E as <-. reflexivity.
  - rewrite bind_ret_l.
    destruct (sc_ltb _ _).
    + simpl. discriminate.
    + rewrite bind_ret_l. destruct (do_normalize cfg); simpl; discriminate.
Qed.

Lemma normalize_range_negative (cfg : config) (t : tensor A) (m : A) :
  tmin t = ret m ->
  sc_ltb m (sc_of_Z 0) = true ->
  VaeImageProcessor.normalize_range cfg t = ([FutureWarning_value_range], inr t).
Proof.
  intros Hm Hneg. unfold VaeImageProcessor.normalize_range.
  rewrite Hm, bind_ret_l, Hneg. reflexivity.
Qed.

Lemma normalize_range_nonnegative (cfg : config) (t : tensor A) (m : A) :
  tmin t = ret m ->
  sc_ltb m (sc_of_Z 0) = false ->
  VaeImageProcessor.normalize_range cfg t
  = ret (if do_normalize cfg then VaeImageProcessor.normalize t else t).
Proof.
  intros Hm Hneg. unfold VaeImageProcessor.normalize_range.
  rewrite Hm, bind_ret_l, Hneg, bind_ret_l.
  destruct (do_normalize cfg); reflexivity.
Qed.

End Preprocess.

(** C3. Take an array input, or a tensor input that is not a latent, whose
    batch is a 4-dimensional tensor of height h and width w, and a scale
    factor that is not zero where do_resize is on.  The base preprocess ends
    in the not-divisible ValueError exactly when do_resize is on and h or w
    is not a multiple of the scale factor; so with do_resize off no height
    or width is refused. *)
Theorem C3_not_divisible_error_iff :
  forall (A : Type) (SA : Scalar A) (image : Type) (IL : ImageLib image) (U : Utils)
         (cfg : config) (inp : input image A) (t : tensor A) (n c h w : nat)
         (height width : option Z),
    (do_resize cfg = true -> vae_scale_factor cfg <> 0) ->
    batched inp t ->
    shape t = [n; c; h; w]%nat ->
    (outcome (VaeImageProcessor.preprocess cfg inp height width) = inl ValueError_not_divisible
     <->
     do_resize cfg = true /\
     (Z.of_nat h mod vae_scale_factor cfg <> 0 \/ Z.of_nat w mod vae_scale_factor cfg <> 0)).
Proof.
  intros A SA image IL U cfg inp t n c h w height width Hs Hb Hsh.
  rewrite (preprocess_batched cfg inp t n c h w height width Hb Hsh).
  destruct (do_resize cfg) eqn:Hr.
  - rewrite not_divisible_eq by (apply Hs; reflexivity).
    rewrite bind_ret_l, Hr. simpl andb.
    destruct (Z.eqb_spec (Z.of_nat h mod vae_scale_factor cfg) 0) as [Eh | Nh];
      [destruct (Z.eqb_spec (Z.of_nat w mod vae_scale_factor cfg) 0) as [Ew | Nw] |];
      simpl.
    + split.
      * intros E. apply normalize_range_outcome in E. discriminate.
      * intros [_ [N | N]]; contradiction.
    + split; [intros _; split; [reflexivity | right; assumption] | reflexivity].
    + split; [intros _; split; [reflexivity | left; assumption] | reflexivity].
  - rewrite not_divisible_off by assumption. rewrite bind_ret_l.
    split.
    + intros E. apply normalize_range_outcome in E. discriminate.
    + intros [E _]. discriminate.
Qed.

Lemma C3_not_divisible_error_iff_witness :
  outcome (VaeImageProcessor.preprocess (image := raster) default_config
             (One (ObjArray gray_3x8)) None None) = inl ValueError_not_divisible
  <-> do_resize default_config = true /\ (3 mod 8 <> 0 \/ 8 mod 8 <> 0).
Proof.
  apply (C3_not_divisible_error_iff Q _ raster _ _ default_config
           (One (ObjArray gray_3x8)) gray_3x8_batch 1 1 3 8 None None).
  - intros _. discriminate.
  - left. exists [gray_3x8]. split; reflexivity.
  - reflexivity.
Defined.

(** C4. Take an array input, or a tensor input that is not a latent, whose
    batch is the 4-dimensional tensor t, and let the divisibility check
    pass.  If the minimum of t is negative, the base preprocess emits the
    value-range FutureWarning, and only that, and returns t itself, whether
    do_normalize is on or off: 2 * x - 1 is not applied. *)
Theorem C4_negative_minimum_skips_normalize :
  forall (A : Type) (SA : Scalar A) (image : Type) (IL : ImageLib image) (U : Utils)
         (cfg : config) (inp : input image A) (t : tensor A) (n c h w : nat) (m : A)
         (height width : option Z),
    batched inp t ->
    shape t = [n; c; h; w]%nat ->
    (do_resize cfg = true ->
     vae_scale_factor cfg <> 0 /\
     Z.of_nat h mod vae_scale_factor cfg = 0 /\ Z.of_nat w mod vae_scale_factor cfg = 0) ->
    tmin t = ret m ->
    sc_ltb m (sc_of_Z 0) = true ->
    VaeImageProcessor.preprocess cfg inp height width = ([FutureWarning_value_range], inr t).
Proof.
  intros A SA image IL U cfg inp t n c h w m height width Hb Hsh Hdiv Hm Hneg.
  rewrite (preprocess_batched cfg inp t n c h w height width Hb Hsh).
  assert (E : VaeImageProcessor.not_divisible cfg h w = ret false).
  { destruct (do_resize cfg) eqn:Hr.
    - destruct (Hdiv eq_refl) as (Hs & Eh & Ew).
      rewrite not_divisible_eq by assumption.
      rewrite Hr, Eh, Ew. reflexivity.
    - apply not_divisible_off. assumption. }
  rewrite E, bind_ret_l.
  eapply normalize_range_negative; eassumption.
Qed.

Lemma C4_negative_minimum_skips_normalize_witness :
  VaeImageProcessor.preprocess (image := raster) config_scale2
    (Tensors [plane_a; plane_b]) None None
  = ([FutureWarning_value_range], inr planes_batch).
Proof.
  apply (C4_negative_minimum_skips_normalize F32.t _ raster _ _ config_scale2
           (Tensors [plane_a; plane_b]) planes_batch 2 1 2 2 (F32.of_Z (-1)) None None).
  - right. exists [plane_a; plane_b]. split; [reflexivity |]. split; [reflexivity |].
    simpl. discriminate.
  - reflexivity.
  - intros _. repeat split. discriminate.
  - reflexivity.
  - reflexivity.
Defined.

(** ** C5: output types of the depth postprocess *)

Lemma bind_assoc {X Y W} (c : py X) (f : X -> py Y) (g : Y -> py W) :
  bind (bind c f) g = bind c (fun x => bind (f x) g).
Proof.
  destruct c as [ws [e | x]]; simpl; [reflexivity |].
  destruct (f x) as [ws' [e | y]]; simpl; [reflexivity |].
  destruct (g y) as [ws'' r]. rewrite app_assoc. reflexivity.
Qed.

Lemma known_output_type_cases (output_type : string) :
  known_output_type output_type = true <->
  output_type = "latent"%string \/ output_type = "pt"%string \/
  output_type = "np"%string \/ output_type = "pil"%string.
Proof.
  unfold known_output_type, output_types. simpl existsb.
  rewrite !orb_true_iff, !String.eqb_eq. intuition discriminate.
Qed.

(** The claim fails at the output type "jpeg": the depth postprocess warns
    and returns the np pair. *)
Lemma C5_unknown_output_type_counterexample :
  known_output_type "jpeg" = false /\
  VaeImageProcessorLDM3D.postprocess (image := raster) default_config
    (ObjTensor rgbd_1x6x1x1) "jpeg" None
  = ([FutureWarning_output_type "jpeg"], inr (OutArrays3D rgbd_rgb rgbd_depth)) /\
  outcome (VaeImageProcessorLDM3D.postprocess (image := raster) default_config
             (ObjTensor rgbd_1x6x1x1) "jpeg" None)
  <> inl (Exception_type_not_supported "jpeg").
Proof.
  split; [reflexivity |]. split; [reflexivity |]. vm_compute. discriminate.
Qed.

(** C5, amended. An output type outside latent, pt, np, pil is coerced to
    np by the depth postprocess exactly as by the base postprocess: the call
    emits the deprecation warning and goes on as the np call does.  The
    unsupported-type exception of the depth postprocess is raised for the
    recognised types latent and pt, once the denormalization and the change
    of layout have gone through. *)
Theorem C5_unknown_output_type_coerced :
  forall (A : Type) (SA : Scalar A) (image : Type) (IL : ImageLib image) (U : Utils)
         (cfg : config) (t : tensor A) (output_type : string)
         (do_denormalize : option (list bool)),
    (known_output_type output_type = false ->
     VaeImageProcessorLDM3D.postprocess cfg (ObjTensor t) output_type do_denormalize
     = (warn (FutureWarning_output_type output_type) ;;;
        VaeImageProcessorLDM3D.postprocess (image := image) cfg (ObjTensor t) "np" do_denormalize)
     /\
     VaeImageProcessor.postprocess cfg (ObjTensor t) output_type do_denormalize
     = (warn (FutureWarning_output_type output_type) ;;;
        VaeImageProcessor.postprocess (image := image) cfg (ObjTensor t) "np" do_denormalize))
    /\
    (output_type = "latent"%string \/ output_type = "pt"%string ->
     VaeImageProcessorLDM3D.postprocess (image := image) cfg (ObjTensor t) output_type
       do_denormalize
     = (t' <- VaeImageProcessor.denormalize_batch cfg t do_denormalize ;;
        a <- VaeImageProcessor.pt_to_numpy t' ;;
        raise (Exception_type_not_supported output_type))).
Proof.
  intros A SA image IL U cfg t output_type do_denormalize. split.
  - intros Hunknown.
    unfold VaeImageProcessorLDM3D.postprocess, VaeImageProcessor.postprocess,
      VaeImageProcessor.resolve_output_type.
    rewrite Hunknown. simpl known_output_type. cbv iota.
    split; rewrite bind_assoc; f_equal.
  - intros [-> | ->];
      unfold VaeImageProcessorLDM3D.postprocess, VaeImageProcessor.resolve_output_type;
      [change (known_output_type "latent") with true
      | change (known_output_type "pt") with true];
      cbv iota; rewrite bind_ret_l; reflexivity.
Qed.

Lemma C5_unknown_output_type_coerced_witness :
  VaeImageProcessorLDM3D.postprocess (image := raster) default_config
    (ObjTensor rgbd_1x6x1x1) "jpeg" None
  = (warn (FutureWarning_output_type "jpeg") ;;;
     VaeImageProcessorLDM3D.postprocess (image := raster) default_config
       (ObjTensor rgbd_1x6x1x1) "np" None) /\
  VaeImageProcessorLDM3D.postprocess (image := raster) default_config
    (ObjTensor rgbd_1x6x1x1) "latent" None
  = raise (Exception_type_not_supported "latent").
Proof.
  split.
  - destruct (C5_unknown_output_type_coerced F32.t _ raster _ _ default_config rgbd_1x6x1x1
                "jpeg" None) as [Hc _].
    destruct (Hc eq_refl) as [E _]. exact E.
  - destruct (C5_unknown_output_type_coerced F32.t _ raster _ _ default_config rgbd_1x6x1x1
                "latent" None) as [_ Hl].
    rewrite (Hl (or_introl eq_refl)). reflexivity.
Defined.

(** ** C8: float to 8-bit pixel *)

Lemma Qround_half_even_bounds (q : Q) (n : Z) :
  (0 <= q)%Q -> (q <= inject_Z n)%Q -> 0 <= Qround_half_even q <= n.
Proof.
  intros Hlo Hhi.
  assert (F0 : 0 <= Qfloor q).
  { change 0 with (Qfloor 0). apply Qfloor_resp_le. exact Hlo. }
  assert (Fn : Qfloor q <= n).
  { rewrite <- (Qfloor_Z n). apply Qfloor_resp_le. exact Hhi. }
  assert (Hfrac : Qfloor q = n -> (q - inject_Z (Qfloor q) <= 0)%Q).
  { intros ->. lra. }
  unfold Qround_half_even.
  destruct (Qcompare (q - inject_Z (Qfloor q)) (1 # 2)) eqn:C.
  - destruct (Z.even (Qfloor q)); [lia |].
    apply Qeq_alt in C.
    destruct (Z.eq_dec (Qfloor q) n) as [E | N]; [| lia].
    apply Hfrac in E. lra.
  - lia.
  - apply Qgt_alt in C.
    destruct (Z.eq_dec (Qfloor q) n) as [E | N]; [| lia].
    apply Hfrac in E. lra.
Qed.

(** The claim fails at the value 2.0: round(2.0 * 255) is 510, which clamps
    to 255, and the pixel is 254. *)
Lemma C8_pixel_counterexample :
  sc_rint (sc_mul (F32.of_Z 2) (sc_of_Z 255)) = Some 510 /\
  spec_pixel (F32.of_Z 2) = Some 255 /\
  to_uint8 (F32.of_Z 2) = 254 /\
  VaeImageProcessor.numpy_to_pil (NdArray [1; 1; 3]%nat (map F32.of_Z [2; 0; 1]))
  = ret [Raster 1 1 3 [254; 0; 255]].
Proof.
  repeat split; reflexivity.
Qed.

(** C8, amended. For every array value x for which round(x * 255) lies in
    [0, 255], the 8-bit pixel is round(x * 255), which is also its clamped
    value; with exact arithmetic every x in [0, 1] is such a value.  The
    conversion itself does not clamp. *)
Theorem C8_pixel_in_range :
  (forall (A : Type) (SA : Scalar A) (x : A) (r : Z),
     sc_rint (sc_mul x (sc_of_Z 255)) = Some r ->
     0 <= r <= 255 ->
     to_uint8 x = r /\ spec_pixel x = Some r) /\
  (forall x : Q,
     (0 <= x)%Q -> (x <= 1)%Q ->
     to_uint8 x = Qround_half_even (x * 255) /\ 0 <= to_uint8 x <= 255).
Proof.
  split.
  - intros A SA x r Hr Hrange.
    unfold to_uint8, spec_pixel. rewrite Hr. simpl.
    split; [apply Z.mod_small; lia | f_equal; lia].
  - intros x Hlo Hhi.
    assert (B : 0 <= Qround_half_even (x * 255) <= 255).
    { apply Qround_half_even_bounds.
      - apply Qmult_le_0_compat; [exact Hlo | discriminate].
      - change (inject_Z 255) with (255 : Q). 
        setoid_replace (255 : Q) with (1 * 255)%Q at 2 by ring.
        apply Qmult_le_compat_r; [exact Hhi | discriminate]. }
    unfold to_uint8. simpl sc_rint. simpl sc_mul. simpl sc_of_Z. simpl astype_uint8.
    change (inject_Z 255) with (255 : Q).
    rewrite Z.mod_small by lia. split; [reflexivity | exact B].
Qed.

Lemma C8_pixel_in_range_witness :
  to_uint8 F32.half = 128 /\ spec_pixel F32.half = Some 128.
Proof.
  destruct C8_pixel_in_range as [G _].
  apply (G F32.t _ F32.half 128); [reflexivity | lia].
Defined.

(** ** C2: normalize, then denormalize *)

(** The claim fails on float32 at 1/255, the value of the 8-bit pixel 1,
    and at 2 ** -30; both lie in [0, 1].  In 2 * x - 1 the subtraction
    rounds: 2 ** -30 is sent to -1 and comes back as 0. *)
Lemma C2_roundtrip_float32_counterexample :
  (sc_leb (sc_of_Z 0) pixel_1 = true /\
   sc_leb pixel_1 (sc_of_Z 1) = true /\
   sc_eqb (denormalize1 (normalize1 pixel_1)) pixel_1 = false) /\
  (sc_leb (sc_of_Z 0) tiny = true /\
   sc_leb tiny (sc_of_Z 1) = true /\
   sc_eqb (denormalize1 (normalize1 tiny)) tiny = false /\
   VaeImageProcessor.normalize (NdArray [1%nat] [tiny]) = NdArray [1%nat] [F32.of_Z (-1)] /\
   VaeImageProcessor.denormalize (VaeImageProcessor.normalize (NdArray [1%nat] [tiny]))
   = NdArray [1%nat] [F32.of_Z 0]).
Proof.
  repeat split; reflexivity.
Qed.

Lemma float32_pixels_requantize :
  forallb (fun k => to_uint8 (denormalize1 (normalize1 (from_uint8 k : F32.t))) =? k)
          (map Z.of_nat (seq 0 256)) = true.
Proof. vm_compute. reflexivity. Qed.

Lemma roundtrip_exact (x : Q) :
  (0 <= x)%Q -> (x <= 1)%Q ->
  (denormalize1 (normalize1 x) == x)%Q.
Proof.
  intros Hlo Hhi.
  unfold denormalize1, normalize1, clamp. simpl.
  set (y := ((inject_Z 2 * x - inject_Z 1) / inject_Z 2 + (1 # 2))%Q).
  assert (E : (y == x)%Q).
  { unfold y. change (inject_Z 2) with (2 : Q). change (inject_Z 1) with (1 : Q). field. }
  assert (L0 : Qle_bool (inject_Z 0) y = true).
  { apply Qle_bool_iff. rewrite E. exact Hlo. }
  assert (L1 : Qle_bool y (inject_Z 1) = true).
  { apply Qle_bool_iff. rewrite E. exact Hhi. }
  rewrite L0, L1. simpl. exact E.
Qed.

(** C2, amended. With exact arithmetic, denormalize(normalize(x)) == x for
    every x in [0, 1], element by element on a tensor of any shape.  On
    float32 the subtraction in 2 * x - 1 rounds and the identity does not
    hold for every x in [0, 1]; what holds there for the float32 value k/255
    of every 8-bit pixel k is that the round trip gives back k once it is
    brought to 8 bits again. *)
Theorem C2_roundtrip_exact_arithmetic :
  (forall x : Q,
     (0 <= x)%Q -> (x <= 1)%Q ->
     sc_eqb (denormalize1 (normalize1 x)) x = true) /\
  (forall t : tensor Q,
     Forall (fun x => 0 <= x /\ x <= 1)%Q (data t) ->
     shape (VaeImageProcessor.denormalize (VaeImageProcessor.normalize t)) = shape t /\
     Forall2 (fun y x => sc_eqb y x = true)
             (data (VaeImageProcessor.denormalize (VaeImageProcessor.normalize t))) (data t)) /\
  (forall k : Z,
     0 <= k <= 255 ->
     to_uint8 (denormalize1 (normalize1 (from_uint8 k : F32.t))) = k).
Proof.
  split; [| split].
  - intros x Hlo Hhi. apply Qeq_bool_iff. apply roundtrip_exact; assumption.
  - intros [sh d] Hd. split; [reflexivity |].
    unfold VaeImageProcessor.denormalize, VaeImageProcessor.normalize, amap. simpl in *.
    induction Hd as [| x d [Hlo Hhi] _ IH]; simpl; constructor.
    + apply Qeq_bool_iff. apply roundtrip_exact; assumption.
    + exact IH.
  - intros k Hk.
    pose proof float32_pixels_requantize as Hall.
    rewrite forallb_forall in Hall.
    apply Z.eqb_eq. apply Hall.
    apply in_map_iff. exists (Z.to_nat k). split; [lia |].
    apply in_seq. lia.
Qed.

Lemma C2_roundtrip_exact_arithmetic_witness :
  sc_eqb (denormalize1 (normalize1 (3 # 7)%Q)) (3 # 7)%Q = true /\
  to_uint8 (denormalize1 (normalize1 pixel_1)) = 1.
Proof.
  destruct C2_roundtrip_exact_arithmetic as (G1 & _ & G3).
  split.
  - apply (G1 (3 # 7)%Q); discriminate.
  - apply (G3 1). lia.
Defined.

(** ** C9: the range of denormalize *)

(** *** Float operations do not invent a NaN *)

Section FloatFacts.
Variables prec emax : Z.

Lemma shr_1_nonneg (mrs : shr_record) : 0 <= shr_m mrs -> 0 <= shr_m (shr_1 mrs).
Proof.
  destruct mrs as [m r s]. simpl.
  destruct m as [| p | p]; [| destruct p |]; simpl; lia.
Qed.

Lemma iter_shr_1_nonneg (p : positive) :
  forall mrs, 0 <= shr_m mrs -> 0 <= shr_m (iter_pos shr_1 p mrs).
Proof.
  induction p as [p IH | p IH |]; intros mrs Hm; simpl.
  - apply IH, IH, shr_1_nonneg, Hm.
  - apply IH, IH, Hm.
  - apply shr_1_nonneg, Hm.
Qed.

Lemma shr_nonneg (mrs : shr_record) (e n : Z) :
  0 <= shr_m mrs -> 0 <= shr_m (fst (shr mrs e n)).
Proof.
  intros Hm. destruct n as [| p | p]; simpl; try exact Hm.
  apply iter_shr_1_nonneg, Hm.
Qed.

Lemma shr_fexp_nonneg (m e : Z) (l : location) :
  0 <= m -> 0 <= shr_m (fst (shr_fexp prec emax m e l)).
Proof.
  intros Hm. unfold shr_fexp. apply shr_nonneg.
  destruct l as [| []]; exact Hm.
Qed.

Lemma round_nearest_even_nonneg (m : Z) (l : location) :
  0 <= m -> 0 <= round_nearest_even m l.
Proof.
  intros Hm. destruct l as [| []]; simpl; try destruct (Z.even m); lia.
Qed.

Lemma binary_round_aux_not_nan (sx : bool) (mx ex : Z) (lx : location) :
  0 <= mx -> binary_round_aux prec emax sx mx ex lx <> S754_nan.
Proof.
  intros Hm. unfold binary_round_aux.
  pose proof (shr_fexp_nonneg mx ex lx Hm) as H1.
  destruct (shr_fexp prec emax mx ex lx) as [mrs' e']. simpl in H1.
  pose proof (shr_fexp_nonneg
                (round_nearest_even (shr_m mrs') (loc_of_shr_record mrs')) e' loc_Exact
                (round_nearest_even_nonneg _ _ H1)) as H2.
  destruct (shr_fexp prec emax _ e' loc_Exact) as [mrs'' e'']. simpl in H2.
  destruct (shr_m mrs'') as [| p | p].
  - discriminate.
  - destruct (e'' <=? emax - prec); discriminate.
  - lia.
Qed.

Lemma binary_round_not_nan (sx : bool) (mx : positive) (ex : Z) :
  binary_round prec emax sx mx ex <> S754_nan.
Proof.
  unfold binary_round. destruct (shl_align mx ex _) as [mz ez].
  apply binary_round_aux_not_nan. lia.
Qed.

Lemma binary_normalize_not_nan (m e : Z) (szero : bool) :
  binary_normalize prec emax m e szero <> S754_nan.
Proof.
  destruct m; simpl; [discriminate | apply binary_round_not_nan ..].
Qed.

Lemma SFadd_finite_not_nan (x : spec_float) (s : bool) (m : positive) (e : Z) :
  x <> S754_nan -> SFadd prec emax x (S754_finite s m e) <> S754_nan.
Proof.
  intros Hx. destruct x as [sx | sx | | sx mx ex]; simpl; try discriminate.
  - contradiction.
  - apply binary_normalize_not_nan.
Qed.

Lemma SFdiv_finite_not_nan (x : spec_float) (s : bool) (m : positive) (e : Z) :
  x <> S754_nan -> SFdiv prec emax x (S754_finite s m e) <> S754_nan.
Proof.
  intros Hx. destruct x as [sx | sx | | sx mx ex]; simpl; try discriminate.
  - contradiction.
  - unfold SFdiv_core_binary.
    set (sh := _ - _ - Z.min _ _).
    set (m' := match sh with Z0 => Z.pos mx | Z.pos _ => Z.shiftl (Z.pos mx) sh | Z.neg _ => 0 end).
    assert (Hm' : 0 <= m').
    { unfold m'. destruct sh; [lia | apply Z.shiftl_nonneg; lia | lia]. }
    pose proof (Z.div_pos m' (Z.pos m) Hm' ltac:(lia)) as Hq.
    unfold Z.div in Hq.
    destruct (Z.div_eucl m' (Z.pos m)) as [q r].
    apply binary_round_aux_not_nan. exact Hq.
Qed.

End FloatFacts.

(** *** Comparisons *)

Lemma SFcompare_antisym (x y : spec_float) :
  SFcompare y x = option_map CompOpp (SFcompare x y).
Proof.
  destruct x as [sx | sx | | sx mx ex], y as [sy | sy | | sy my ey]; simpl;
    try reflexivity;
    try (destruct sx; reflexivity); try (destruct sy; reflexivity);
    try (destruct sx, sy; reflexivity).
  destruct sx, sy; try reflexivity;
    rewrite (Z.compare_antisym ey ex); destruct (ey ?= ex); simpl; try reflexivity;
    rewrite (Pos.compare_cont_antisym mx my Eq); simpl; reflexivity.
Qed.

Lemma SFltb_false_leb (a x : spec_float) :
  a <> S754_nan -> x <> S754_nan -> SFltb a x = false -> SFleb x a = true.
Proof.
  intros Ha Hx. unfold SFltb, SFleb. rewrite (SFcompare_antisym a x).
  destruct (SFcompare a x) as [c |] eqn:E.
  - destruct c; simpl; intros L; [reflexivity | discriminate | reflexivity].
  - exfalso.
    destruct a as [sa | sa | | sa ma ea], x as [sx | sx | | sx mx ex];
      simpl in E; try discriminate; contradiction.
Qed.

(** clamp on floats: between the bounds unless the argument is a NaN. *)
Lemma clamp_F32_bounds (y lo hi : F32.t) :
  y <> S754_nan -> lo <> S754_nan -> hi <> S754_nan ->
  sc_leb lo lo = true -> sc_leb lo hi = true -> sc_leb hi hi = true ->
  sc_leb lo (clamp y lo hi) = true /\ sc_leb (clamp y lo hi) hi = true.
Proof.
  intros Hy Hlo Hhi Rlo Rlh Rhi. unfold clamp. simpl sc_ltb. simpl sc_leb in *.
  destruct (SFltb y lo) eqn:L1; [split; assumption |].
  destruct (SFltb hi y) eqn:L2; [split; assumption |].
  split; apply SFltb_false_leb; assumption.
Qed.

Lemma denormalize1_F32_range (x : F32.t) :
  x <> S754_nan ->
  sc_leb (sc_of_Z 0) (denormalize1 x) = true /\ sc_leb (denormalize1 x) (sc_of_Z 1) = true.
Proof.
  intros Hx. unfold denormalize1.
  apply clamp_F32_bounds; try discriminate; try reflexivity.
  simpl sc_add. simpl sc_div. simpl sc_of_Z. simpl sc_half.
  change F32.half with (S754_finite false 8388608 (-24)).
  change (F32.of_Z 2) with (S754_finite false 8388608 (-22)).
  apply SFadd_finite_not_nan, SFdiv_finite_not_nan, Hx.
Qed.

Lemma denormalize1_Q_range (x : Q) :
  sc_leb (sc_of_Z 0) (denormalize1 x) = true /\ sc_leb (denormalize1 x) (sc_of_Z 1) = true.
Proof.
  unfold denormalize1, clamp. simpl.
  set (y := (x / inject_Z 2 + (1 # 2))%Q).
  destruct (Qle_bool (inject_Z 0) y) eqn:L0; simpl; [| split; reflexivity].
  destruct (Qle_bool y (inject_Z 1)) eqn:L1; simpl; [| split; reflexivity].
  split; assumption.
Qed.

(** C9. denormalize maps every float32 that is not a NaN, finite or
    infinite, into [0, 1], and so every element of a tensor without NaNs;
    with exact arithmetic it maps every rational into [0, 1].  The function
    is total: it returns on every input. *)
Theorem C9_denormalize_range :
  (forall x : F32.t,
     x <> S754_nan ->
     sc_leb (sc_of_Z 0) (denormalize1 x) = true /\ sc_leb (denormalize1 x) (sc_of_Z 1) = true) /\
  (forall t : tensor F32.t,
     Forall (fun x => x <> S754_nan) (data t) ->
     Forall (fun y => sc_leb (sc_of_Z 0) y = true /\ sc_leb y (sc_of_Z 1) = true)
            (data (VaeImageProcessor.denormalize t))) /\
  (forall x : Q,
     sc_leb (sc_of_Z 0) (denormalize1 x) = true /\ sc_leb (denormalize1 x) (sc_of_Z 1) = true) /\
  (forall t : tensor Q,
     Forall (fun y => sc_leb (sc_of_Z 0) y = true /\ sc_leb y (sc_of_Z 1) = true)
            (data (VaeImageProcessor.denormalize t))).
Proof.
  split; [exact denormalize1_F32_range |].
  split.
  { intros [sh d] Hd. unfold VaeImageProcessor.denormalize, amap. simpl in *.
    induction Hd as [| x d Hx _ IH]; simpl; constructor.
    - apply denormalize1_F32_range, Hx.
    - exact IH. }
  split; [exact denormalize1_Q_range |].
  intros [sh d]. unfold VaeImageProcessor.denormalize, amap. simpl.
  induction d as [| x d IH]; simpl; constructor.
  - apply denormalize1_Q_range.
  - exact IH.
Qed.

(** 1000.0, far outside [-1, 1], is sent to 1.0, and minus infinity to 0. *)
Lemma C9_denormalize_range_witness :
  (sc_leb (sc_of_Z 0) (denormalize1 (F32.of_Z 1000)) = true /\
   sc_leb (denormalize1 (F32.of_Z 1000)) (sc_of_Z 1) = true) /\
  (sc_leb (sc_of_Z 0) (denormalize1 (S754_infinity true)) = true /\
   sc_leb (denormalize1 (S754_infinity true)) (sc_of_Z 1) = true).
Proof.
  destruct C9_denormalize_range as [G _].
  split; apply G; discriminate.
Defined.

(** * Further properties of the processors *)

From Stdlib Require Import ArithRing.

(** ** More on the monad and on lists *)

Lemma outcome_bind_inv {X Y} (c : py X) (k : X -> py Y) (y : Y) :
  outcome (bind c k) = inr y ->
  exists x, outcome c = inr x /\ outcome (k x) = inr y.
Proof.
  unfold outcome. destruct c as [ws [e | x]]; simpl; [discriminate |].
  destruct (k x) as [ws' r] eqn:E. simpl. intros ->.
  exists x. rewrite E. split; reflexivity.
Qed.

Lemma mapM_ret {X Y} (f : X -> py Y) (g : X -> Y) (xs : list X) :
  (forall x, In x xs -> f x = ret (g x)) -> mapM f xs = ret (map g xs).
Proof.
  induction xs as [| x xs IH]; intros Hf; [reflexivity |].
  simpl. rewrite (Hf x (or_introl eq_refl)), bind_ret_l.
  rewrite IH by (intros x' Hx'; apply Hf; right; exact Hx').
  rewrite bind_ret_l. reflexivity.
Qed.

Lemma mapM_length {X Y} (f : X -> py Y) (xs : list X) (ys : list Y) :
  outcome (mapM f xs) = inr ys -> length ys = length xs.
Proof.
  revert ys. induction xs as [| x xs IH]; intros ys E.
  - simpl in E. injection E as <-. reflexivity.
  - simpl in E. apply outcome_bind_inv in E as (y & _ & E).
    apply outcome_bind_inv in E as (ys' & E' & E).
    simpl in E. injection E as <-. simpl. f_equal. apply IH. exact E'.
Qed.

(** The first item that raises decides the comprehension. *)
Lemma mapM_raises_at {X Y} (f : X -> py Y) (g : X -> Y) (xs : list X) (x : X)
      (xs' : list X) (e : exn) :
  (forall x', In x' xs -> f x' = ret (g x')) ->
  outcome (f x) = inl e ->
  outcome (mapM f (xs ++ x :: xs')) = inl e.
Proof.
  intros Hf He. induction xs as [| x0 xs IH]; simpl.
  - apply outcome_bind_inl. exact He.
  - rewrite (Hf x0 (or_introl eq_refl)), bind_ret_l.
    apply outcome_bind_inl. apply IH.
    intros x' Hx'. apply Hf. right. exact Hx'.
Qed.

Lemma concat_chunks {X} (k n : nat) :
  forall l : list X,
    length l = (n * k)%nat ->
    concat (map (fun i => firstn k (skipn (i * k) l)) (seq 0 n)) = l.
Proof.
  induction n as [| n IH]; intros l Hl.
  - simpl in *. destruct l; [reflexivity | discriminate].
  - change (seq 0 (S n)) with (0%nat :: seq 1 n).
    rewrite <- seq_shift. cbn [map concat]. rewrite map_map.
    change (skipn (0 * k) l) with l.
    transitivity (firstn k l ++ skipn k l); [| apply firstn_skipn].
    f_equal.
    rewrite <- (IH (skipn k l)) by (rewrite length_skipn, Hl; simpl; lia).
    f_equal. apply map_ext. intros i. rewrite skipn_skipn.
    replace (i * k + k)%nat with (S i * k)%nat by (simpl; lia). reflexivity.
Qed.

Lemma concat_map_map {X Y} (f : X -> Y) (ls : list (list X)) :
  concat (map (map f) ls) = map f (concat ls).
Proof.
  induction ls as [| l ls IH]; simpl; [reflexivity |].
  rewrite map_app, IH. reflexivity.
Qed.

(** ** postprocess: the per-item denormalization *)

Section DenormalizeBatch.
Context {A : Type} `{Scalar A}.

Lemma item_in_range (t : tensor A) (n : nat) (tl : list nat) (i : nat) :
  shape t = n :: tl -> (i < n)%nat ->
  item i t = ret (NdArray tl (firstn (numel tl) (skipn (i * numel tl) (data t)))).
Proof.
  intros Hsh Hi. unfold item. rewrite Hsh.
  apply Nat.ltb_lt in Hi. rewrite Hi. reflexivity.
Qed.

Lemma stack_uniform {X} (xs : list (ndarray X)) (sh : list nat) :
  xs <> [] -> (forall x, In x xs -> shape x = sh) ->
  stack xs = ret (NdArray (length xs :: sh) (concat (map data xs))).
Proof.
  intros Hne Hsh. destruct xs as [| a rest]; [contradiction |].
  unfold stack.
  assert (F : forallb (fun b => shape_eqb (shape b) (shape a)) rest = true).
  { apply forallb_forall. intros b Hb.
    rewrite (Hsh b (or_intror Hb)), (Hsh a (or_introl eq_refl)).
    apply shape_eqb_refl. }
  rewrite F, (Hsh a (or_introl eq_refl)). reflexivity.
Qed.

Lemma denormalize_batch_flags (cfg : config) (t : tensor A) (n : nat) (tl : list nat)
      (do_denormalize : option (list bool)) :
  shape t = S n :: tl ->
  let flags := match do_denormalize with
               | None => repeat (do_normalize cfg) (S n)
               | Some l => l
               end in
  (S n <= length flags)%nat ->
  VaeImageProcessor.denormalize_batch cfg t do_denormalize
  = ret (NdArray (S n :: tl) (concat (map (fun i => data (flagged_item t tl flags i)) (seq 0 (S n))))).
Proof.
  intros Hsh flags Hlen.
  unfold VaeImageProcessor.denormalize_batch. rewrite Hsh. simpl nth_error.
  unfold of_option at 1. rewrite bind_ret_l. fold flags.
  rewrite (mapM_ret _ (flagged_item t tl flags)).
  - rewrite bind_ret_l.
    rewrite (stack_uniform _ tl).
    + rewrite length_map, length_seq, map_map. reflexivity.
    + discriminate.
    + intros x Hx. apply in_map_iff in Hx as (i & <- & _).
      unfold flagged_item. destruct (nth i flags false); reflexivity.
  - intros i Hi. apply in_seq in Hi.
    rewrite (nth_error_nth' flags false) by lia.
    unfold of_option. rewrite bind_ret_l.
    rewrite (item_in_range t (S n) tl i Hsh) by lia.
    rewrite bind_ret_l. reflexivity.
Qed.

End DenormalizeBatch.

Lemma repeat_nth_lt {X} (x d : X) (n i : nat) : (i < n)%nat -> nth i (repeat x n) d = x.
Proof.
  revert i. induction n as [| n IH]; intros i Hi; [lia |].
  destruct i; simpl; [reflexivity | apply IH; lia].
Qed.

Lemma chunk_length {X} (l : list X) (k n i : nat) :
  length l = (n * k)%nat -> (i < n)%nat -> length (firstn k (skipn (i * k) l)) = k.
Proof.
  intros Hl Hi. rewrite length_firstn, length_skipn, Hl. nia.
Qed.

(** Without flags, every item is treated by the configured do_normalize. *)
Lemma denormalize_batch_uniform {A} `{Scalar A} (cfg : config) (t : tensor A) (n : nat)
      (tl : list nat) :
  shape t = S n :: tl ->
  well_formed t ->
  VaeImageProcessor.denormalize_batch cfg t None
  = ret (if do_normalize cfg then VaeImageProcessor.denormalize t else t).
Proof.
  intros Hsh Hwf.
  rewrite (denormalize_batch_flags cfg t n tl None Hsh) by (rewrite repeat_length; lia).
  unfold well_formed in Hwf. rewrite Hsh in Hwf.
  change (numel (S n :: tl)) with (S n * numel tl)%nat in Hwf.
  destruct t as [sh d]. simpl in Hsh, Hwf. subst sh. cbv zeta.
  assert (E : map (fun i => data (flagged_item (NdArray (S n :: tl) d) tl
                                     (repeat (do_normalize cfg) (S n)) i)) (seq 0 (S n))
              = map (fun i => (if do_normalize cfg then map denormalize1 else fun l => l)
                                (firstn (numel tl) (skipn (i * numel tl) d)))
                    (seq 0 (S n))).
  { apply map_ext_in. intros i Hi. apply in_seq in Hi.
    unfold flagged_item. rewrite repeat_nth_lt by lia.
    destruct (do_normalize cfg); reflexivity. }
  rewrite E. destruct (do_normalize cfg).
  - unfold VaeImageProcessor.denormalize, amap. cbn [shape data]. do 2 f_equal.
    rewrite <- (map_map (fun i => firstn (numel tl) (skipn (i * numel tl) d))
                        (map denormalize1)).
    rewrite concat_map_map, concat_chunks by exact Hwf. reflexivity.
  - do 2 f_equal. apply concat_chunks. exact Hwf.
Qed.


(** X1. With no flags given, postprocess's denormalization step treats the
    whole batch alike: on a well-formed tensor with at least one item it
    returns denormalize of the tensor when do_normalize is configured, and
    the tensor itself when it is not. *)
Theorem X1_denormalize_batch_default :
  forall (A : Type) (SA : Scalar A) (cfg : config) (t : tensor A) (n : nat) (tl : list nat),
    shape t = S n :: tl ->
    well_formed t ->
    VaeImageProcessor.denormalize_batch cfg t None
    = ret (if do_normalize cfg then VaeImageProcessor.denormalize t else t).
Proof.
  intros A SA cfg t n tl Hsh Hwf.
  rewrite (denormalize_batch_uniform cfg t n tl Hsh Hwf).
  destruct (do_normalize cfg); reflexivity.
Qed.

Lemma X1_denormalize_batch_default_witness :
  VaeImageProcessor.denormalize_batch default_config planes_batch None
  = ret (VaeImageProcessor.denormalize planes_batch).
Proof.
  apply (X1_denormalize_batch_default F32.t _ default_config planes_batch 1 [1; 2; 2]%nat);
    reflexivity.
Defined.

Lemma chunk_concat {X} (k : nat) (bs : list (list X)) :
  (forall b, In b bs -> length b = k) ->
  forall i, (i < length bs)%nat ->
    firstn k (skipn (i * k) (concat bs)) = nth i bs [].
Proof.
  induction bs as [| b bs IH]; intros Hk i Hi; [simpl in Hi; lia |].
  assert (Hb : length b = k) by (apply Hk; left; reflexivity).
  destruct i as [| i]; simpl concat.
  - simpl skipn. rewrite firstn_app, Hb, Nat.sub_diag. simpl firstn.
    rewrite app_nil_r. rewrite <- Hb. apply firstn_all.
  - rewrite skipn_app, Hb.
    replace (S i * k - k)%nat with (i * k)%nat by (simpl; lia).
    rewrite (skipn_all2 b) by (rewrite Hb; simpl; lia).
    simpl app. simpl nth. apply IH.
    + intros b' Hb'. apply Hk. right. exact Hb'.
    + simpl in Hi. lia.
Qed.

(** X2. With flags given, one per item at least, the denormalization step
    of postprocess on a well-formed batch keeps the shape and treats every
    item by its own flag: item i of the result is denormalize of item i of
    the input where flag i is set, and item i itself where it is not.  The
    configured do_normalize and any flags past the batch play no part. *)
Theorem X2_denormalize_batch_per_item :
  forall (A : Type) (SA : Scalar A) (cfg : config) (t : tensor A) (n : nat) (tl : list nat)
         (flags : list bool),
    shape t = S n :: tl ->
    well_formed t ->
    (S n <= length flags)%nat ->
    exists t' : tensor A,
      VaeImageProcessor.denormalize_batch cfg t (Some flags) = ret t' /\
      shape t' = shape t /\
      well_formed t' /\
      forall i, (i < S n)%nat ->
        exists im, item i t = ret im /\
                   item i t' = ret (if nth i flags false
                                    then VaeImageProcessor.denormalize im else im).
Proof.
  intros A SA cfg t n tl flags Hsh Hwf Hlen.
  pose proof (denormalize_batch_flags cfg t n tl (Some flags) Hsh Hlen) as E.
  cbv zeta in E.
  set (bs := map (fun i => data (flagged_item t tl flags i)) (seq 0 (S n))) in E.
  unfold well_formed in Hwf. rewrite Hsh in Hwf.
  change (numel (S n :: tl)) with (S n * numel tl)%nat in Hwf.
  assert (Hbs : forall b, In b bs -> length b = numel tl).
  { intros b Hb. apply in_map_iff in Hb as (i & <- & Hi). apply in_seq in Hi.
    unfold flagged_item. 
    destruct (nth i flags false); cbn [data VaeImageProcessor.denormalize amap];
      rewrite ?length_map; apply (chunk_length _ _ (S n)); [exact Hwf | lia | exact Hwf | lia]. }
  assert (Lbs : length bs = S n) by (unfold bs; rewrite length_map, length_seq; reflexivity).
  exists (NdArray (S n :: tl) (concat bs)).
  split; [exact E |]. split; [symmetry; exact Hsh |]. split.
  - unfold well_formed. cbn [data shape].
    change (numel (S n :: tl)) with (S n * numel tl)%nat. rewrite <- Lbs.
    clear - Hbs. induction bs as [| b bs IH]; [reflexivity |].
    simpl. rewrite length_app, IH, (Hbs b (or_introl eq_refl)); [reflexivity |].
    intros b' Hb'. apply Hbs. right. exact Hb'.
  - intros i Hi.
    exists (NdArray tl (firstn (numel tl) (skipn (i * numel tl) (data t)))).
    split; [apply (item_in_range t (S n) tl i Hsh Hi) |].
    rewrite (item_in_range (NdArray (S n :: tl) (concat bs)) (S n) tl i eq_refl Hi).
    cbn [data].
    rewrite (chunk_concat (numel tl) bs Hbs i) by lia.
    unfold bs. rewrite (nth_indep _ [] (data (flagged_item t tl flags 0)))
      by (rewrite length_map, length_seq; exact Hi).
    rewrite (map_nth (fun i => data (flagged_item t tl flags i)) (seq 0 (S n)) 0%nat i).
    rewrite seq_nth by exact Hi. simpl Nat.add.
    unfold flagged_item. destruct (nth i flags false); reflexivity.
Qed.

(** A batch of two planes with the flags [false; true] and a spare third
    flag: the first plane is kept, the second is denormalized. *)
Lemma X2_denormalize_batch_per_item_witness :
  exists t' : tensor F32.t,
    VaeImageProcessor.denormalize_batch default_config planes_batch (Some [false; true; true])
    = ret t' /\
    shape t' = shape planes_batch /\
    well_formed t' /\
    forall i, (i < 2)%nat ->
      exists im, item i planes_batch = ret im /\
                 item i t' = ret (if nth i [false; true; true] false
                                  then VaeImageProcessor.denormalize im else im).
Proof.
  apply (X2_denormalize_batch_per_item F32.t _ default_config planes_batch 1 [1; 2; 2]%nat
           [false; true; true]).
  - reflexivity.
  - reflexivity.
  - simpl. lia.
Defined.

(** ** postprocess: what is returned and what is raised *)

Section Postprocess.
Context {A : Type} `{Scalar A} {image : Type} `{ImageLib image} `{Utils}.

Lemma outcome_warn_bind {Y} (w : warning) (k : unit -> py Y) :
  outcome (bind (warn w) k) = outcome (k tt).
Proof. apply outcome_bind_inr. reflexivity. Qed.

(** The output type postprocess goes on with. *)
Lemma resolve_output_type_outcome (output_type : string) :
  outcome (VaeImageProcessor.resolve_output_type output_type)
  = inr (if known_output_type output_type then output_type else "np"%string).
Proof.
  unfold VaeImageProcessor.resolve_output_type.
  destruct (known_output_type output_type); [reflexivity |].
  rewrite outcome_warn_bind. reflexivity.
Qed.

Lemma postprocess_outcome (cfg : config) (t : tensor A) (output_type : string)
      (do_denormalize : option (list bool)) :
  let ot := if known_output_type output_type then output_type else "np"%string in
  outcome (VaeImageProcessor.postprocess (image := image) cfg (ObjTensor t) output_type
             do_denormalize)
  = outcome
      (if String.eqb ot "latent" then ret (OutTensor t)
       else
         t' <- VaeImageProcessor.denormalize_batch cfg t do_denormalize ;;
         if String.eqb ot "pt" then ret (OutTensor t')
         else
           a <- VaeImageProcessor.pt_to_numpy t' ;;
           if String.eqb ot "np" then ret (OutArray a)
           else if String.eqb ot "pil"
                then l <- VaeImageProcessor.numpy_to_pil a ;; ret (OutImages l)
                else ret OutNone).
Proof.
  intros ot. unfold VaeImageProcessor.postprocess.
  rewrite (outcome_bind_inr (VaeImageProcessor.resolve_output_type output_type) _ ot);
    [reflexivity | apply resolve_output_type_outcome].
Qed.

Lemma postprocess3d_outcome (cfg : config) (t : tensor A) (output_type : string)
      (do_denormalize : option (list bool)) :
  let ot := if known_output_type output_type then output_type else "np"%string in
  outcome (VaeImageProcessorLDM3D.postprocess (image := image) cfg (ObjTensor t) output_type
             do_denormalize)
  = outcome
      (t' <- VaeImageProcessor.denormalize_batch cfg t do_denormalize ;;
       a <- VaeImageProcessor.pt_to_numpy t' ;;
       if String.eqb ot "np" then
         rgb <- slice_axis 3 0 (Some 3%nat) a ;;
         ims <- items a ;;
         ds <- mapM (fun im => d <- slice_axis 2 3 None im ;;
                               VaeImageProcessorLDM3D.rgblike_to_depthmap d) ims ;;
         depth <- stack ds ;;
         ret (OutArrays3D rgb depth)
       else if String.eqb ot "pil" then
         rgb <- VaeImageProcessorLDM3D.numpy_to_pil a ;;
         depth <- VaeImageProcessorLDM3D.numpy_to_depth a ;;
         ret (OutImages3D rgb depth)
       else raise (Exception_type_not_supported ot)).
Proof.
  intros ot. unfold VaeImageProcessorLDM3D.postprocess.
  rewrite (outcome_bind_inr (VaeImageProcessor.resolve_output_type output_type) _ ot);
    [reflexivity | apply resolve_output_type_outcome].
Qed.

End Postprocess.

(** X3. What the base postprocess returns follows the output type only: a
    tensor for latent and pt, an array for np and for every unrecognised
    type, a list of images for pil.  It never falls off its end (it never
    returns None), and it returns nothing for an input that is not a
    tensor. *)
Theorem X3_postprocess_result_kind :
  forall (A : Type) (SA : Scalar A) (image : Type) (IL : ImageLib image) (U : Utils)
         (cfg : config) (obj : pyobj image A) (output_type : string)
         (do_denormalize : option (list bool)) (r : output image A),
    outcome (VaeImageProcessor.postprocess cfg obj output_type do_denormalize) = inr r ->
    (exists t, obj = ObjTensor t) /\
    match r with
    | OutTensor _ => output_type = "latent"%string \/ output_type = "pt"%string
    | OutArray _ => output_type = "np"%string \/ known_output_type output_type = false
    | OutImages _ => output_type = "pil"%string
    | OutNone => False
    end.
Proof.
  intros A SA image IL U cfg obj output_type do_denormalize r E.
  destruct obj as [i | a | t |]; try discriminate E.
  split; [exists t; reflexivity |].
  rewrite postprocess_outcome in E. cbv zeta in E.
  destruct (known_output_type output_type) eqn:K.
  - apply known_output_type_cases in K as [-> | [-> | [-> | ->]]]; simpl String.eqb in E;
      cbv iota in E.
    + injection E as <-. left. reflexivity.
    + apply outcome_bind_inv in E as (t' & _ & E). injection E as <-. right. reflexivity.
    + apply outcome_bind_inv in E as (t' & _ & E).
      apply outcome_bind_inv in E as (a & _ & E). injection E as <-. left. reflexivity.
    + apply outcome_bind_inv in E as (t' & _ & E).
      apply outcome_bind_inv in E as (a & _ & E).
      apply outcome_bind_inv in E as (l & _ & E). injection E as <-. reflexivity.
  - simpl String.eqb in E. cbv iota in E.
    apply outcome_bind_inv in E as (t' & _ & E).
    apply outcome_bind_inv in E as (a & _ & E). injection E as <-. right. reflexivity.
Qed.

(** The one-pixel tensor as pil: a list of images. *)
Lemma X3_postprocess_result_kind_witness :
  match OutImages (A := F32.t) [Raster 1 1 3 [0; 128; 255]] with
  | OutTensor _ => "pil"%string = "latent"%string \/ "pil"%string = "pt"%string
  | OutArray _ => "pil"%string = "np"%string \/ known_output_type "pil" = false
  | OutImages _ => "pil"%string = "pil"%string
  | OutNone => False
  end.
Proof.
  apply (X3_postprocess_result_kind F32.t _ raster _ _ default_config
           (ObjTensor (NdArray [1; 3; 1; 1]%nat (map F32.of_Z [-1; 0; 1]))) "pil" None
           (OutImages [Raster 1 1 3 [0; 128; 255]])).
  reflexivity.
Defined.

Section PostprocessErrors.
Context {A : Type} `{Scalar A} {image : Type} `{ImageLib image} `{Utils}.

Lemma denormalize_batch_short_flags (cfg : config) (t : tensor A) (n : nat) (tl : list nat)
      (flags : list bool) :
  shape t = n :: tl -> (length flags < n)%nat ->
  outcome (VaeImageProcessor.denormalize_batch cfg t (Some flags)) = inl IndexError.
Proof.
  intros Hsh Hlen. unfold VaeImageProcessor.denormalize_batch.
  rewrite Hsh. simpl nth_error. unfold of_option at 1. rewrite bind_ret_l.
  apply outcome_bind_inl.
  replace n with (length flags + S (n - S (length flags)))%nat by lia.
  rewrite seq_app. simpl seq.
  apply (mapM_raises_at _ (flagged_item t tl flags)).
  - intros i Hi. apply in_seq in Hi.
    rewrite (nth_error_nth' flags false) by lia.
    unfold of_option. rewrite bind_ret_l.
    rewrite (item_in_range t n tl i Hsh) by lia.
    rewrite bind_ret_l. reflexivity.
  - rewrite (proj2 (nth_error_None flags (length flags))) by lia. reflexivity.
Qed.

Lemma denormalize_batch_empty (cfg : config) (t : tensor A) (tl : list nat)
      (do_denormalize : option (list bool)) :
  shape t = 0%nat :: tl ->
  outcome (VaeImageProcessor.denormalize_batch cfg t do_denormalize) = inl ShapeError.
Proof.
  intros Hsh. unfold VaeImageProcessor.denormalize_batch. rewrite Hsh. reflexivity.
Qed.

Lemma denormalize_batch_scalar (cfg : config) (t : tensor A)
      (do_denormalize : option (list bool)) :
  shape t = [] ->
  outcome (VaeImageProcessor.denormalize_batch cfg t do_denormalize) = inl IndexError.
Proof.
  intros Hsh. unfold VaeImageProcessor.denormalize_batch. rewrite Hsh. reflexivity.
Qed.

(** An exception of the denormalization step is the exception of the call,
    except where the base postprocess returns the latent before the step. *)
Lemma postprocess_denormalize_error (cfg : config) (t : tensor A) (output_type : string)
      (do_denormalize : option (list bool)) (e : exn) :
  outcome (VaeImageProcessor.denormalize_batch cfg t do_denormalize) = inl e ->
  (output_type <> "latent"%string ->
   outcome (VaeImageProcessor.postprocess (image := image) cfg (ObjTensor t) output_type
              do_denormalize) = inl e) /\
  outcome (VaeImageProcessorLDM3D.postprocess (image := image) cfg (ObjTensor t) output_type
             do_denormalize) = inl e.
Proof.
  intros E. split.
  - intros Hl. rewrite postprocess_outcome. cbv zeta.
    assert (N : String.eqb (if known_output_type output_type then output_type else "np")
                           "latent" = false).
    { destruct (known_output_type output_type); [apply String.eqb_neq; exact Hl | reflexivity]. }
    rewrite N. apply outcome_bind_inl. exact E.
  - rewrite postprocess3d_outcome. cbv zeta. apply outcome_bind_inl. exact E.
Qed.

End PostprocessErrors.

(** X4. A do_denormalize list shorter than the batch makes postprocess
    raise IndexError: the base postprocess for every output type but latent,
    the LDM3D postprocess for every output type.  For latent the base
    postprocess returns the tensor as it is, under the same list. *)
Theorem X4_postprocess_short_flags :
  forall (A : Type) (SA : Scalar A) (image : Type) (IL : ImageLib image) (U : Utils)
         (cfg : config) (t : tensor A) (n : nat) (tl : list nat) (flags : list bool)
         (output_type : string),
    shape t = n :: tl ->
    (length flags < n)%nat ->
    (output_type <> "latent"%string ->
     outcome (VaeImageProcessor.postprocess (image := image) cfg (ObjTensor t) output_type
                (Some flags)) = inl IndexError) /\
    outcome (VaeImageProcessorLDM3D.postprocess (image := image) cfg (ObjTensor t) output_type
               (Some flags)) = inl IndexError /\
    VaeImageProcessor.postprocess (image := image) cfg (ObjTensor t) "latent" (Some flags)
    = ret (OutTensor t).
Proof.
  intros A SA image IL U cfg t n tl flags output_type Hsh Hlen.
  destruct (postprocess_denormalize_error (image := image) cfg t output_type (Some flags)
              IndexError (denormalize_batch_short_flags cfg t n tl flags Hsh Hlen))
    as [Hb Hd].
  split; [exact Hb |]. split; [exact Hd |].
  unfold VaeImageProcessor.postprocess, VaeImageProcessor.resolve_output_type.
  change (known_output_type "latent") with true. cbv iota.
  rewrite bind_ret_l. reflexivity.
Qed.

Lemma X4_postprocess_short_flags_witness :
  outcome (VaeImageProcessor.postprocess (image := raster) default_config
             (ObjTensor planes_batch) "np" (Some [true])) = inl IndexError /\
  outcome (VaeImageProcessorLDM3D.postprocess (image := raster) default_config
             (ObjTensor planes_batch) "latent" (Some [true])) = inl IndexError.
Proof.
  destruct (X4_postprocess_short_flags F32.t _ raster _ _ default_config planes_batch
              2 [1; 2; 2]%nat [true] "np" eq_refl ltac:(simpl; lia)) as (Hb & _ & _).
  destruct (X4_postprocess_short_flags F32.t _ raster _ _ default_config planes_batch
              2 [1; 2; 2]%nat [true] "latent" eq_refl ltac:(simpl; lia)) as (_ & Hd & _).
  split; [apply Hb; discriminate | exact Hd].
Defined.

(** X5. An empty batch cannot be postprocessed: on a tensor whose leading
    dimension is 0 the stack of the denormalized items fails (ShapeError),
    and on a 0-dimensional tensor shape[0] fails (IndexError) -- in the base
    postprocess for every output type but latent, in the LDM3D postprocess
    for every output type, and whatever the flags. *)
Theorem X5_postprocess_empty_batch :
  forall (A : Type) (SA : Scalar A) (image : Type) (IL : ImageLib image) (U : Utils)
         (cfg : config) (t : tensor A) (output_type : string)
         (do_denormalize : option (list bool)),
    (forall tl, shape t = 0%nat :: tl ->
       (output_type <> "latent"%string ->
        outcome (VaeImageProcessor.postprocess (image := image) cfg (ObjTensor t) output_type
                   do_denormalize) = inl ShapeError) /\
       outcome (VaeImageProcessorLDM3D.postprocess (image := image) cfg (ObjTensor t)
                  output_type do_denormalize) = inl ShapeError) /\
    (shape t = [] ->
       (output_type <> "latent"%string ->
        outcome (VaeImageProcessor.postprocess (image := image) cfg (ObjTensor t) output_type
                   do_denormalize) = inl IndexError) /\
       outcome (VaeImageProcessorLDM3D.postprocess (image := image) cfg (ObjTensor t)
                  output_type do_denormalize) = inl IndexError).
Proof.
  intros A SA image IL U cfg t output_type do_denormalize. split.
  - intros tl Hsh. apply postprocess_denormalize_error.
    apply (denormalize_batch_empty cfg t tl). exact Hsh.
  - intros Hsh. apply postprocess_denormalize_error.
    apply denormalize_batch_scalar. exact Hsh.
Qed.

Lemma X5_postprocess_empty_batch_witness :
  outcome (VaeImageProcessor.postprocess (image := raster) default_config
             (ObjTensor (NdArray (A := F32.t) [0; 3; 8; 8]%nat [])) "pil" None) = inl ShapeError.
Proof.
  destruct (X5_postprocess_empty_batch F32.t _ raster _ _ default_config
              (NdArray [0; 3; 8; 8]%nat []) "pil" None) as [H0 _].
  destruct (H0 [3; 8; 8]%nat eq_refl) as [Hb _].
  apply Hb. discriminate.
Defined.

(** ** The LDM3D postprocess needs six channels *)

Section SixChannels.
Context {A : Type} `{Scalar A} {image : Type} `{ImageLib image} `{Utils}.

(** The depth map of an item with fewer than six channels: after the three
    colour channels are cut off, channel 1 or channel 2 is missing. *)
Lemma depth_of_narrow_item {T} `{NpNum T} (im : ndarray T) (h w c : nat) :
  shape im = [h; w; c]%nat -> (c < 6)%nat ->
  outcome (d <- slice_axis 2 3 None im ;; VaeImageProcessorLDM3D.rgblike_to_depthmap d)
  = inl IndexError.
Proof.
  intros Hsh Hc. unfold slice_axis. rewrite Hsh. cbn [nth_error].
  rewrite bind_ret_l.
  unfold VaeImageProcessorLDM3D.rgblike_to_depthmap, select_axis.
  cbn [shape firstn skipn app nth_error].
  do 6 (destruct c as [| c]; [reflexivity |]). lia.
Qed.

Lemma items_nonempty {X} (a : ndarray X) (n : nat) (tl : list nat) :
  shape a = S n :: tl ->
  exists im ims, items a = ret (im :: ims) /\ shape im = tl.
Proof.
  intros Hsh. unfold items. rewrite Hsh.
  rewrite (mapM_ret _ (fun i => NdArray tl (firstn (numel tl) (skipn (i * numel tl) (data a))))).
  - change (seq 0 (S n)) with (0%nat :: seq 1 n). cbn [map].
    eexists. eexists. split; reflexivity.
  - intros i Hi. apply in_seq in Hi. apply (item_in_range a (S n) tl i Hsh). lia.
Qed.

Lemma mapM_head_raises {X Y} (f : X -> py Y) (x : X) (xs : list X) (e : exn) :
  outcome (f x) = inl e -> outcome (mapM f (x :: xs)) = inl e.
Proof. intros E. simpl. apply outcome_bind_inl. exact E. Qed.

(** The denormalization step raises or returns a batch of the same shape
    with at least one item. *)
Lemma denormalize_batch_cases (cfg : config) (t : tensor A) (n : nat) (tl : list nat)
      (do_denormalize : option (list bool)) :
  shape t = n :: tl ->
  (exists e, outcome (VaeImageProcessor.denormalize_batch cfg t do_denormalize) = inl e) \/
  (exists n' d, n = S n' /\
                VaeImageProcessor.denormalize_batch cfg t do_denormalize
                = ret (NdArray (n :: tl) d)).
Proof.
  intros Hsh. destruct n as [| n].
  - left. exists ShapeError. apply (denormalize_batch_empty cfg t tl). exact Hsh.
  - set (flags := match do_denormalize with
                  | None => repeat (do_normalize cfg) (S n)
                  | Some l => l
                  end).
    destruct (Nat.le_gt_cases (S n) (length flags)) as [Hle | Hgt].
    + right. exists n. eexists. split; [reflexivity |].
      apply (denormalize_batch_flags cfg t n tl do_denormalize Hsh Hle).
    + left. exists IndexError.
      destruct do_denormalize as [l |].
      * apply (denormalize_batch_short_flags cfg t (S n) tl l Hsh Hgt).
      * unfold flags in Hgt. rewrite repeat_length in Hgt. lia.
Qed.

Lemma pt_to_numpy_shape (t : tensor A) (n c h w : nat) :
  shape t = [n; c; h; w]%nat ->
  exists a, VaeImageProcessor.pt_to_numpy t = ret a /\ shape a = [n; h; w; c]%nat.
Proof.
  intros Hsh. unfold VaeImageProcessor.pt_to_numpy, permute4. rewrite Hsh.
  destruct (data t); eexists; split; reflexivity.
Qed.

End SixChannels.

(** X6. The LDM3D postprocess reads the depth from channels 4 and 5 of the
    tensor (channels 1 and 2 after the three colour channels), so it needs
    six channels: on a 4-dimensional tensor with fewer it returns nothing,
    whatever the output type and the flags, and for np (and every output
    type coerced to np) on a batch with at least one item and default flags
    the exception is IndexError. *)
Theorem X6_ldm3d_postprocess_needs_six_channels :
  forall (A : Type) (SA : Scalar A) (image : Type) (IL : ImageLib image) (U : Utils)
         (cfg : config) (t : tensor A) (n c h w : nat) (output_type : string)
         (do_denormalize : option (list bool)),
    shape t = [n; c; h; w]%nat ->
    (c < 6)%nat ->
    (forall r, outcome (VaeImageProcessorLDM3D.postprocess (image := image) cfg (ObjTensor t)
                          output_type do_denormalize) <> inr r) /\
    ((0 < n)%nat ->
     output_type = "np"%string \/ known_output_type output_type = false ->
     outcome (VaeImageProcessorLDM3D.postprocess (image := image) cfg (ObjTensor t)
                output_type None) = inl IndexError).
Proof.
  intros A SA image IL U cfg t n c h w output_type do_denormalize Hsh Hc.
  assert (Hnp : forall a : ndarray A,
             shape a = [n; h; w; c]%nat -> (0 < n)%nat ->
             outcome (rgb <- slice_axis 3 0 (Some 3%nat) a ;;
                      ims <- items a ;;
                      ds <- mapM (fun im => d <- slice_axis 2 3 None im ;;
                                            VaeImageProcessorLDM3D.rgblike_to_depthmap d) ims ;;
                      depth <- stack ds ;;
                      ret (OutArrays3D (image := image) rgb depth))
             = inl IndexError).
  { intros a Ha Hn. destruct n as [| n']; [lia |].
    unfold slice_axis at 1. rewrite Ha. cbn [nth_error]. rewrite bind_ret_l.
    destruct (items_nonempty a n' [h; w; c]%nat Ha) as (im & ims & Hit & Him).
    rewrite Hit, bind_ret_l.
    apply outcome_bind_inl. apply mapM_head_raises.
    apply (depth_of_narrow_item im h w c Him Hc). }
  assert (Hpil : forall a : ndarray A,
             shape a = [n; h; w; c]%nat -> (0 < n)%nat ->
             forall l, outcome (VaeImageProcessorLDM3D.numpy_to_depth (image := image) a)
                       <> inr l).
  { intros a Ha Hn l. destruct n as [| n']; [lia |].
    unfold VaeImageProcessorLDM3D.numpy_to_depth, ndim. rewrite Ha. cbn [length Nat.eqb].
    unfold last_dim. cbn [amap shape]. rewrite Ha.
    cbn [rev app nth_error of_option]. rewrite bind_ret_l.
    destruct (Nat.eqb c 1); [discriminate |].
    destruct (items_nonempty (amap to_uint8 a) n' [h; w; c]%nat) as (im & ims & Hit & Him).
    { cbn [amap shape]. exact Ha. }
    rewrite Hit, bind_ret_l.
    rewrite (mapM_head_raises _ im ims IndexError); [discriminate |].
    rewrite <- bind_assoc. apply outcome_bind_inl.
    apply (depth_of_narrow_item im h w c Him Hc). }
  split.
  - intros r E. rewrite postprocess3d_outcome in E. cbv zeta in E.
    destruct (denormalize_batch_cases cfg t n [c; h; w]%nat do_denormalize Hsh)
      as [[e He] | (n' & d & Hn & Hd)].
    + rewrite (outcome_bind_inl _ _ e He) in E. discriminate.
    + rewrite Hd, bind_ret_l in E.
      destruct (pt_to_numpy_shape (NdArray (n :: [c; h; w]%nat) d) n c h w eq_refl)
        as (a & Ha & Hsa).
      rewrite Ha, bind_ret_l in E.
      destruct (String.eqb _ "np").
      * rewrite (Hnp a Hsa) in E by lia. discriminate.
      * destruct (String.eqb _ "pil"); [| discriminate].
        apply outcome_bind_inv in E as (rgb & _ & E).
        apply outcome_bind_inv in E as (depth & E & _).
        apply (Hpil a Hsa ltac:(lia) depth). exact E.
  - intros Hn Hot. rewrite postprocess3d_outcome. cbv zeta.
    destruct n as [| n']; [lia |].
    rewrite (denormalize_batch_flags cfg t n' [c; h; w]%nat None Hsh)
      by (rewrite repeat_length; lia).
    cbv zeta. rewrite bind_ret_l.
    match goal with
    | |- context [VaeImageProcessor.pt_to_numpy ?t'] =>
        destruct (pt_to_numpy_shape t' (S n') c h w eq_refl) as (a & Ha & Hsa)
    end.
    rewrite Ha, bind_ret_l.
    assert (Enp : String.eqb (if known_output_type output_type then output_type else "np")
                             "np" = true).
    { destruct Hot as [-> | ->]; reflexivity. }
    rewrite Enp. apply (Hnp a Hsa). lia.
Qed.

(** The (1, 4, 1, 1) tensor, which as a latent has passed through
    preprocess, cannot be postprocessed to np by the LDM3D processor. *)
Lemma X6_ldm3d_postprocess_needs_six_channels_witness :
  outcome (VaeImageProcessorLDM3D.postprocess (image := raster) default_config
             (ObjTensor (NdArray [1; 4; 1; 1]%nat (map F32.of_Z [0; 1; 0; 1]))) "np" None)
  = inl IndexError.
Proof.
  destruct (X6_ldm3d_postprocess_needs_six_channels F32.t _ raster _ _ default_config
              (NdArray [1; 4; 1; 1]%nat (map F32.of_Z [0; 1; 0; 1])) 1 4 1 1 "np" None
              eq_refl ltac:(lia)) as [_ Hx].
  apply Hx; [lia | left; reflexivity].
Defined.

(** ** Arrays to images: one image per batch item *)

Section ImageCount.
Context {A : Type} `{Scalar A} {image : Type} `{ImageLib image} `{Utils}.

Lemma items_length {X} (a : ndarray X) (ims : list (ndarray X)) :
  outcome (items a) = inr ims -> length ims = hd 0%nat (shape a).
Proof.
  unfold items. destruct (shape a) as [| n tl]; [discriminate |].
  intros E. apply mapM_length in E. rewrite length_seq in E. exact E.
Qed.

(** The batch an array stands for in the array-to-image conversions. *)
Lemma batch_of_array_shape (a : ndarray A) :
  hd 0%nat (shape (amap to_uint8 (if Nat.eqb (ndim a) 3 then expand_first a else a)))
  = if Nat.eqb (ndim a) 3 then 1%nat else hd 0%nat (shape a).
Proof. destruct (Nat.eqb (ndim a) 3); reflexivity. Qed.

End ImageCount.

(** X7. When an array-to-image conversion returns, it returns one image per
    item of the batch: one image for a 3-dimensional array, and as many as
    the leading dimension otherwise.  This holds for numpy_to_pil of both
    processors and for numpy_to_depth, whatever the image library does. *)
Theorem X7_one_image_per_batch_item :
  forall (A : Type) (SA : Scalar A) (image : Type) (IL : ImageLib image)
         (a : ndarray A) (l : list image),
    outcome (VaeImageProcessor.numpy_to_pil a) = inr l \/
    outcome (VaeImageProcessorLDM3D.numpy_to_pil a) = inr l \/
    outcome (VaeImageProcessorLDM3D.numpy_to_depth a) = inr l ->
    length l = if Nat.eqb (ndim a) 3 then 1%nat else hd 0%nat (shape a).
Proof.
  intros A SA image IL a l E.
  rewrite <- (batch_of_array_shape a).
  destruct E as [E | [E | E]].
  - unfold VaeImageProcessor.numpy_to_pil in E. cbv zeta in E.
    apply outcome_bind_inv in E as (c & _ & E).
    apply outcome_bind_inv in E as (ims & Hims & E).
    apply items_length in Hims. rewrite <- Hims.
    destruct (Nat.eqb c 1); apply mapM_length in E; exact E.
  - unfold VaeImageProcessorLDM3D.numpy_to_pil in E. cbv zeta in E.
    apply outcome_bind_inv in E as (c & _ & E).
    apply outcome_bind_inv in E as (ims & Hims & E).
    apply items_length in Hims. rewrite <- Hims.
    destruct (Nat.eqb c 1); apply mapM_length in E; exact E.
  - unfold VaeImageProcessorLDM3D.numpy_to_depth in E. cbv zeta in E.
    apply outcome_bind_inv in E as (c & _ & E).
    destruct (Nat.eqb c 1); [discriminate |].
    apply outcome_bind_inv in E as (ims & Hims & E).
    apply items_length in Hims. rewrite <- Hims.
    apply mapM_length in E. exact E.
Qed.

(** Two one-pixel colour items give two images. *)
Lemma X7_one_image_per_batch_item_witness :
  length [Raster 1 1 3 [0; 255; 128]; Raster 1 1 3 [255; 0; 128]] = 2%nat.
Proof.
  apply (X7_one_image_per_batch_item F32.t _ raster _
           (NdArray [2; 1; 1; 3]%nat
              [F32.of_Z 0; F32.of_Z 1; F32.half; F32.of_Z 1; F32.of_Z 0; F32.half])
           [Raster 1 1 3 [0; 255; 128]; Raster 1 1 3 [255; 0; 128]]).
  left. reflexivity.
Defined.

(** ** Images to arrays and back *)

Lemma Qround_half_even_Z (q : Q) (z : Z) :
  (q == inject_Z z)%Q -> Qround_half_even q = z.
Proof.
  intros E. unfold Qround_half_even.
  assert (F : Qfloor q = z) by (rewrite E; apply Qfloor_Z).
  rewrite F.
  assert (C : Qcompare (q - inject_Z z) (1 # 2) = Lt).
  { apply Qlt_alt. rewrite E. unfold Qminus. rewrite Qplus_opp_r. reflexivity. }
  rewrite C. reflexivity.
Qed.

Lemma pixel_roundtrip_Q (k : Z) : is_uint8 k -> to_uint8 (from_uint8 k : Q) = k.
Proof.
  intros Hk. unfold to_uint8, from_uint8. cbn [sc_rint sc_mul sc_div sc_of_Z Scalar_Q].
  rewrite (Qround_half_even_Z _ k).
  - cbn [astype_uint8]. apply Z.mod_small. unfold is_uint8 in Hk. lia.
  - change (inject_Z 255) with (255 : Q). field.
Qed.

Lemma float32_pixels_roundtrip :
  forallb (fun k => to_uint8 (from_uint8 k : F32.t) =? k) (map Z.of_nat (seq 0 256)) = true.
Proof. vm_compute. reflexivity. Qed.

Lemma uint8_in_table (k : Z) : is_uint8 k -> In k (map Z.of_nat (seq 0 256)).
Proof.
  intros Hk. unfold is_uint8 in Hk. apply in_map_iff.
  exists (Z.to_nat k). split; [lia | apply in_seq; lia].
Qed.

Lemma pixel_roundtrip_F32 (k : Z) : is_uint8 k -> to_uint8 (from_uint8 k : F32.t) = k.
Proof.
  intros Hk. pose proof float32_pixels_roundtrip as Hall.
  rewrite forallb_forall in Hall.
  apply Z.eqb_eq, Hall, uint8_in_table, Hk.
Qed.

Lemma map_seq_nth {X Y} (F : X -> Y) (l : list X) (d : X) :
  map (fun i => F (nth i l d)) (seq 0 (length l)) = map F l.
Proof.
  induction l as [| x l IH]; [reflexivity |].
  simpl length. change (seq 0 (S (length l))) with (0%nat :: seq 1 (length l)).
  rewrite <- seq_shift. cbn [map]. rewrite map_map. cbn [nth]. f_equal. exact IH.
Qed.

Lemma mapM_map_ret {X Y} (f : Y -> py X) (g : X -> Y) (l : list X) :
  (forall x, In x l -> f (g x) = ret x) -> mapM f (map g l) = ret l.
Proof.
  induction l as [| x l IH]; intros Hf; [reflexivity |].
  cbn [map mapM]. rewrite (Hf x (or_introl eq_refl)), bind_ret_l.
  rewrite IH by (intros x' Hx'; apply Hf; right; exact Hx').
  rewrite bind_ret_l. reflexivity.
Qed.

Section ImageRoundtrip.
Context {A : Type} `{Scalar A} {image : Type} `{ImageLib image}.
Hypothesis pixel_ok : forall k, is_uint8 k -> to_uint8 (from_uint8 k : A) = k.

Lemma pixels_roundtrip (d : list Z) :
  Forall is_uint8 d -> map to_uint8 (map (from_uint8 (A := A)) d) = d.
Proof.
  intros Hd. induction Hd as [| k d Hk _ IH]; [reflexivity |].
  cbn [map]. rewrite pixel_ok by exact Hk. rewrite IH. reflexivity.
Qed.

Lemma pil_numpy_pil (l : list image) (h w c : nat) :
  l <> [] ->
  c <> 1%nat ->
  (forall im, In im l ->
     shape (img_array im) = [h; w; c]%nat /\
     well_formed (img_array im) /\
     Forall is_uint8 (data (img_array im)) /\
     img_fromarray (img_array im) None = ret im) ->
  (a <- VaeImageProcessor.pil_to_numpy (A := A) l ;; VaeImageProcessor.numpy_to_pil a) = ret l.
Proof.
  intros Hne Hc Hl.
  assert (Hd : exists im0 : image, True)
    by (destruct l as [| x l0]; [contradiction | exists x; exact I]).
  destruct Hd as [im0 _].
  set (bs := map (fun im => data (img_array im)) l).
  assert (Hbs : forall b, In b bs -> length b = numel [h; w; c]%nat).
  { intros b Hb. apply in_map_iff in Hb as (im & <- & Him).
    destruct (Hl im Him) as (Hsh & Hwf & _). unfold well_formed in Hwf.
    rewrite Hwf, Hsh. reflexivity. }
  unfold VaeImageProcessor.pil_to_numpy.
  rewrite (stack_uniform _ [h; w; c]%nat).
  2: { destruct l; [contradiction | discriminate]. }
  2: { intros x Hx. apply in_map_iff in Hx as (im & <- & Him).
       cbn [amap shape]. apply (Hl im Him). }
  rewrite bind_ret_l, length_map, map_map. cbn [amap data].
  unfold VaeImageProcessor.numpy_to_pil, ndim. cbn [shape length Nat.eqb].
  unfold last_dim, amap. cbn [shape data rev app nth_error of_option].
  rewrite bind_ret_l.
  assert (D : map to_uint8 (concat (map (fun im => map (from_uint8 (A := A))
                                                    (data (img_array im))) l))
              = concat bs).
  { rewrite <- concat_map_map, map_map. unfold bs. f_equal.
    apply map_ext_in. intros im Him. apply pixels_roundtrip. apply (Hl im Him). }
  rewrite D.
  unfold items. cbn [shape].
  rewrite (mapM_ret _ (fun i => img_array (nth i l im0))).
  - rewrite bind_ret_l. apply Nat.eqb_neq in Hc. rewrite Hc.
    rewrite (map_seq_nth img_array l im0).
    apply mapM_map_ret. intros im Him. apply (Hl im Him).
  - intros i Hi. apply in_seq in Hi.
    rewrite (item_in_range (NdArray (length l :: [h; w; c]%nat) (concat bs))
               (length l) [h; w; c]%nat i eq_refl) by lia.
    cbn [data].
    rewrite (chunk_concat (numel [h; w; c]%nat) bs Hbs i) by (unfold bs; rewrite length_map; lia).
    unfold bs.
    rewrite (nth_indep _ [] (data (img_array im0))) by (rewrite length_map; lia).
    rewrite (map_nth (fun im => data (img_array im)) l im0 i).
    assert (Hin : In (nth i l im0) l) by (apply nth_In; lia).
    destruct (Hl _ Hin) as (Hsh & _).
    destruct (img_array (nth i l im0)) as [sh d]. cbn [shape data] in *.
    subst sh. reflexivity.
Qed.

End ImageRoundtrip.

(** X8. Converting images to an array and the array back gives the images
    again, in float32 as with exact arithmetic: for a non-empty list of
    images whose arrays are well-formed 8-bit arrays of one shape (h, w, c)
    with c other than 1, and which the library rebuilds from their arrays,
    numpy_to_pil(pil_to_numpy(images)) returns the list itself.  Behind it:
    round(k / 255 * 255) is k for every 8-bit k. *)
Theorem X8_pil_numpy_roundtrip :
  forall (image : Type) (IL : ImageLib image) (l : list image) (h w c : nat),
    l <> [] ->
    c <> 1%nat ->
    (forall im, In im l ->
       shape (img_array im) = [h; w; c]%nat /\
       well_formed (img_array im) /\
       Forall is_uint8 (data (img_array im)) /\
       img_fromarray (img_array im) None = ret im) ->
    (a <- VaeImageProcessor.pil_to_numpy (A := F32.t) l ;; VaeImageProcessor.numpy_to_pil a)
    = ret l /\
    (a <- VaeImageProcessor.pil_to_numpy (A := Q) l ;; VaeImageProcessor.numpy_to_pil a)
    = ret l.
Proof.
  intros image IL l h w c Hne Hc Hl. split.
  - apply (pil_numpy_pil pixel_roundtrip_F32 l h w c Hne Hc Hl).
  - apply (pil_numpy_pil pixel_roundtrip_Q l h w c Hne Hc Hl).
Qed.

Lemma X8_pil_numpy_roundtrip_witness :
  (a <- VaeImageProcessor.pil_to_numpy (A := F32.t) [two_pixels; two_pixels] ;;
   VaeImageProcessor.numpy_to_pil a)
  = ret [two_pixels; two_pixels].
Proof.
  apply (X8_pil_numpy_roundtrip raster _ [two_pixels; two_pixels] 1 2 3).
  - discriminate.
  - discriminate.
  - intros im [<- | [<- | []]];
      (split; [reflexivity |]; split; [reflexivity |]; split; [| reflexivity];
       repeat constructor; unfold is_uint8; lia).
Defined.

(** ** preprocess on images: the value range *)

Lemma float32_pixels_range :
  forallb (fun k =>
             let x : F32.t := from_uint8 k in
             negb (sc_ltb x (sc_of_Z 0)) &&
             sc_leb (sc_of_Z 0) x && sc_leb x (sc_of_Z 1) &&
             sc_leb (sc_of_Z (-1)) (normalize1 x) && sc_leb (normalize1 x) (sc_of_Z 1))
          (map Z.of_nat (seq 0 256)) = true.
Proof. vm_compute. reflexivity. Qed.

Lemma float32_pixel_range (k : Z) :
  is_uint8 k ->
  sc_ltb (from_uint8 k : F32.t) (sc_of_Z 0) = false /\
  between 0 1 (from_uint8 k : F32.t) /\
  between (-1) 1 (normalize1 (from_uint8 k : F32.t)).
Proof.
  intros Hk. pose proof float32_pixels_range as Hall.
  rewrite forallb_forall in Hall. specialize (Hall k (uint8_in_table k Hk)).
  cbv zeta in Hall. rewrite !andb_true_iff, negb_true_iff in Hall.
  unfold between. tauto.
Qed.

Lemma stack_cases {X} (xs : list (ndarray X)) :
  (exists e, stack xs = raise e) \/
  (exists sh, stack xs = ret (NdArray sh (concat (map data xs)))).
Proof.
  unfold stack. destruct xs as [| a rest]; [left; eexists; reflexivity |].
  destruct (forallb _ rest); [right | left]; eexists; reflexivity.
Qed.

Lemma In_nested_nth {X} (d : list X) (x0 : X) (f : nat -> nat -> nat -> nat -> nat)
      (n0 n1 n2 n3 : nat) (y : X) :
  In x0 d ->
  In y (flat_map (fun i0 => flat_map (fun i1 => flat_map (fun i2 =>
          map (fun i3 => nth (f i0 i1 i2 i3) d x0) (seq 0 n3)) (seq 0 n2)) (seq 0 n1))
        (seq 0 n0)) ->
  In y d.
Proof.
  intros Hx Hy.
  apply in_flat_map in Hy as (i0 & _ & Hy).
  apply in_flat_map in Hy as (i1 & _ & Hy).
  apply in_flat_map in Hy as (i2 & _ & Hy).
  apply in_map_iff in Hy as (i3 & <- & _).
  destruct (Nat.lt_ge_cases (f i0 i1 i2 i3) (length d)) as [Hlt | Hge].
  - apply nth_In. exact Hlt.
  - rewrite nth_overflow by exact Hge. exact Hx.
Qed.

(** A change of layout brings in no new element. *)
Lemma permute4_cases {X} (p0 p1 p2 p3 : nat) (a : ndarray X) :
  (exists e, permute4 p0 p1 p2 p3 a = raise e) \/
  (exists b, permute4 p0 p1 p2 p3 a = ret b /\ forall y, In y (data b) -> In y (data a)).
Proof.
  unfold permute4.
  destruct (shape a) as [| d0 [| d1 [| d2 [| d3 [| d4 sh]]]]];
    try (left; eexists; reflexivity).
  destruct (data a) as [| x0 d] eqn:Ed.
  - right. eexists. split; [reflexivity |]. intros y [].
  - right. eexists. split; [reflexivity |]. cbn [data]. intros y Hy.
    eapply In_nested_nth; [| exact Hy]. left. reflexivity.
Qed.

Lemma min2_cases {X} `{Scalar X} (a b : X) : min2 a b = a \/ min2 a b = b.
Proof.
  unfold min2. destruct (sc_is_nan a); [left; reflexivity |].
  destruct (sc_is_nan b); [right; reflexivity |].
  destruct (sc_ltb b a); [right | left]; reflexivity.
Qed.

(** The minimum of a tensor is one of its elements. *)
Lemma tmin_cases {X} `{Scalar X} (t : tensor X) :
  tmin t = raise EmptyReduction \/ (exists m, tmin t = ret m /\ In m (data t)).
Proof.
  unfold tmin. destruct (data t) as [| x xs]; [left; reflexivity |].
  right. eexists. split; [reflexivity |].
  revert x. induction xs as [| y xs IH]; intros x; [left; reflexivity |].
  cbn [fold_left]. destruct (IH (min2 x y)) as [E | Hin].
  - destruct (min2_cases x y) as [E' | E']; rewrite <- E, E'; [left | right; left]; reflexivity.
  - right. right. exact Hin.
Qed.

(** X9. With do_resize and do_convert_rgb off, preprocess on 8-bit images
    in float32 never emits a warning (no pixel is negative, so the
    value-range branch is not taken), and when it returns a tensor every
    element lies in [-1, 1] if do_normalize is on and in [0, 1] if it is
    off. *)
Theorem X9_preprocess_images_range :
  forall (image : Type) (IL : ImageLib image) (U : Utils) (cfg : config)
         (inp : input image F32.t) (l : list image) (height width : option Z),
    image_input inp = Some l ->
    do_resize cfg = false ->
    do_convert_rgb cfg = false ->
    (forall im, In im l -> Forall is_uint8 (data (img_array im))) ->
    warnings (VaeImageProcessor.preprocess cfg inp height width) = [] /\
    forall t, outcome (VaeImageProcessor.preprocess cfg inp height width) = inr t ->
              Forall (if do_normalize cfg then between (-1) 1 else between 0 1) (data t).
Proof.
  intros image IL U cfg inp l height width Hin Hr Hc Hl.
  assert (E : VaeImageProcessor.preprocess cfg inp height width
              = (_ <- of_option IndexError (nth_error l 0) ;;
                 a <- VaeImageProcessor.pil_to_numpy l ;;
                 t <- VaeImageProcessor.numpy_to_pt a ;;
                 VaeImageProcessor.normalize_range cfg t)).
  { destruct inp as [[i | a | t' |] | l' | l' | l']; simpl in Hin; try discriminate;
      injection Hin as <-; unfold VaeImageProcessor.preprocess; rewrite Hr, Hc;
      rewrite !bind_ret_l; reflexivity. }
  rewrite E. clear E.
  destruct (nth_error l 0) as [im0 |]; [| split; [reflexivity | discriminate]].
  unfold of_option. rewrite bind_ret_l.
  unfold VaeImageProcessor.pil_to_numpy.
  destruct (stack_cases (map (fun im => amap (from_uint8 (A := F32.t)) (img_array im)) l))
    as [[e ->] | [sh ->]]; [split; [reflexivity | discriminate] |].
  rewrite bind_ret_l.
  set (a := NdArray sh _).
  assert (Ha : forall y, In y (data a) -> exists k, is_uint8 k /\ y = from_uint8 k).
  { intros y Hy. unfold a in Hy. cbn [data] in Hy.
    apply in_concat in Hy as (b & Hb & Hy).
    apply in_map_iff in Hb as (x & <- & Hx).
    apply in_map_iff in Hx as (im & <- & Him).
    cbn [amap data] in Hy. apply in_map_iff in Hy as (k & <- & Hk).
    exists k. split; [| reflexivity].
    pose proof (Hl im Him) as F. rewrite Forall_forall in F. apply F. exact Hk. }
  clearbody a.
  unfold VaeImageProcessor.numpy_to_pt.
  set (a' := if Nat.eqb (ndim a) 3 then expand_last a else a).
  assert (Ha' : data a' = data a) by (unfold a'; destruct (Nat.eqb (ndim a) 3); reflexivity).
  destruct (permute4_cases 0 3 1 2 a') as [[e ->] | (t & -> & Ht)];
    [split; [reflexivity | discriminate] |].
  rewrite bind_ret_l. rewrite Ha' in Ht.
  unfold VaeImageProcessor.normalize_range.
  destruct (tmin_cases t) as [-> | (m & -> & Hm)]; [split; [reflexivity | discriminate] |].
  rewrite bind_ret_l.
  destruct (Ha m (Ht m Hm)) as (k & Hk & ->).
  destruct (float32_pixel_range k Hk) as (Hneg & _).
  rewrite Hneg, bind_ret_l.
  destruct (do_normalize cfg).
  - split; [reflexivity |]. intros t' Et. injection Et as <-.
    unfold VaeImageProcessor.normalize, amap. cbn [data].
    apply Forall_forall. intros y Hy. apply in_map_iff in Hy as (x & <- & Hx).
    destruct (Ha x (Ht x Hx)) as (k' & Hk' & ->).
    apply (float32_pixel_range k' Hk').
  - split; [reflexivity |]. intros t' Et. injection Et as <-.
    apply Forall_forall. intros y Hy.
    destruct (Ha y (Ht y Hy)) as (k' & Hk' & ->).
    apply (float32_pixel_range k' Hk').
Qed.

Lemma X9_preprocess_images_range_witness :
  warnings (VaeImageProcessor.preprocess (A := F32.t)
              (Config false 8 "lanczos" true false) (Images [two_pixels]) None None) = [] /\
  forall t, outcome (VaeImageProcessor.preprocess (A := F32.t)
                       (Config false 8 "lanczos" true false) (Images [two_pixels]) None None)
            = inr t ->
            Forall (between (-1) 1) (data t).
Proof.
  apply (X9_preprocess_images_range raster _ _ (Config false 8 "lanczos" true false)
           (Images [two_pixels]) [two_pixels] None None).
  - reflexivity.
  - reflexivity.
  - reflexivity.
  - intros im [<- | []]. repeat constructor; unfold is_uint8; lia.
Defined.

(** ** Channel-last to channel-first and back *)

Lemma nth_flat_map_uniform {X} (g : nat -> list X) (m n : nat) (d : X) :
  (forall i, (i < n)%nat -> length (g i) = m) ->
  forall i j, (i < n)%nat -> (j < m)%nat ->
    nth (i * m + j) (flat_map g (seq 0 n)) d = nth j (g i) d.
Proof.
  intros Hg i j Hi Hj. rewrite flat_map_concat_map.
  rewrite <- nth_skipn.
  transitivity (nth j (firstn m (skipn (i * m) (concat (map g (seq 0 n))))) d).
  { rewrite nth_firstn. apply Nat.ltb_lt in Hj. rewrite Hj. reflexivity. }
  rewrite chunk_concat.
  - rewrite (nth_indep _ [] (g 0%nat)) by (rewrite length_map, length_seq; exact Hi).
    rewrite map_nth, seq_nth by exact Hi. reflexivity.
  - intros b Hb. apply in_map_iff in Hb as (i' & <- & Hi'). apply in_seq in Hi'.
    apply Hg. lia.
  - rewrite length_map, length_seq. exact Hi.
Qed.

Lemma length_flat_map_uniform {X} (g : nat -> list X) (m n : nat) :
  (forall i, (i < n)%nat -> length (g i) = m) ->
  length (flat_map g (seq 0 n)) = (n * m)%nat.
Proof.
  induction n as [| n IH]; intros Hg; [reflexivity |].
  rewrite seq_S, flat_map_app, length_app, IH by (intros i Hi; apply Hg; lia).
  cbn [flat_map Nat.add]. rewrite app_nil_r, Hg by lia. lia.
Qed.

Lemma flat_map_ext_in {X Y} (f g : X -> list Y) (l : list X) :
  (forall x, In x l -> f x = g x) -> flat_map f l = flat_map g l.
Proof.
  induction l as [| x l IH]; intros Hfg; [reflexivity |].
  cbn [flat_map]. rewrite (Hfg x (or_introl eq_refl)).
  rewrite IH by (intros x' Hx'; apply Hfg; right; exact Hx'). reflexivity.
Qed.

Lemma map_seq_offset {Y} (F : nat -> Y) (m : nat) :
  forall a, map (fun j => F (a + j)%nat) (seq 0 m) = map F (seq a m).
Proof.
  induction m as [| m IH]; intros a; [reflexivity |].
  cbn [seq map]. rewrite Nat.add_0_r. f_equal.
  rewrite <- seq_shift, map_map, <- (IH (S a)).
  apply map_ext. intros j. f_equal. lia.
Qed.

(** Two nested loops in row-major order are one loop. *)
Lemma row_major_2 {Y} (F : nat -> Y) (n m : nat) :
  flat_map (fun i => map (fun j => F (i * m + j)%nat) (seq 0 m)) (seq 0 n)
  = map F (seq 0 (n * m)).
Proof.
  induction n as [| n IH]; [reflexivity |].
  rewrite seq_S, flat_map_app, IH. cbn [flat_map Nat.add]. rewrite app_nil_r.
  rewrite map_seq_offset.
  replace (S n * m)%nat with (n * m + m)%nat by lia.
  rewrite seq_app, map_app. reflexivity.
Qed.

(** Four nested loops in row-major order read a buffer from its start. *)
Lemma row_major_4 {X} (d : list X) (x0 : X) (n0 n1 n2 n3 : nat) :
  length d = (n0 * (n1 * (n2 * n3)))%nat ->
  flat_map (fun i0 => flat_map (fun i1 => flat_map (fun i2 =>
     map (fun i3 => nth (((i0 * n1 + i1) * n2 + i2) * n3 + i3) d x0) (seq 0 n3))
     (seq 0 n2)) (seq 0 n1)) (seq 0 n0)
  = d.
Proof.
  intros Hlen.
  transitivity (map (fun k => nth k d x0) (seq 0 (length d))).
  2: { rewrite (map_seq_nth (fun x => x) d x0). apply map_id. }
  rewrite Hlen.
  rewrite <- (row_major_2 (fun k => nth k d x0) n0 (n1 * (n2 * n3))).
  apply flat_map_ext. intros i0.
  rewrite <- (row_major_2 (fun k => nth (i0 * (n1 * (n2 * n3)) + k) d x0) n1 (n2 * n3)).
  apply flat_map_ext. intros i1.
  rewrite <- (row_major_2 (fun k => nth (i0 * (n1 * (n2 * n3)) + (i1 * (n2 * n3) + k)) d x0)
                n2 n3).
  apply flat_map_ext. intros i2.
  apply map_ext. intros i3. f_equal. nia.
Qed.

Lemma mixed_radix_lt (a b m k : nat) :
  (a < m)%nat -> (b < k)%nat -> (a * k + b < m * k)%nat.
Proof. intros Ha Hb. nia. Qed.

(** Reading an element of four nested loops by its row-major position. *)
Lemma nth_nested_4 {X} (E : nat -> nat -> nat -> nat -> X) (m0 m1 m2 m3 : nat)
      (j0 j1 j2 j3 : nat) (y0 : X) :
  (j0 < m0)%nat -> (j1 < m1)%nat -> (j2 < m2)%nat -> (j3 < m3)%nat ->
  nth (((j0 * m1 + j1) * m2 + j2) * m3 + j3)
      (flat_map (fun i0 => flat_map (fun i1 => flat_map (fun i2 =>
         map (fun i3 => E i0 i1 i2 i3) (seq 0 m3)) (seq 0 m2)) (seq 0 m1)) (seq 0 m0))
      y0
  = E j0 j1 j2 j3.
Proof.
  intros H0 H1 H2 H3.
  assert (L2 : forall i0 i1 i2, length (map (fun i3 => E i0 i1 i2 i3) (seq 0 m3)) = m3)
    by (intros; rewrite length_map, length_seq; reflexivity).
  assert (L1 : forall i0 i1,
             length (flat_map (fun i2 => map (fun i3 => E i0 i1 i2 i3) (seq 0 m3)) (seq 0 m2))
             = (m2 * m3)%nat)
    by (intros; apply length_flat_map_uniform; intros; apply L2).
  assert (L0 : forall i0,
             length (flat_map (fun i1 => flat_map (fun i2 =>
                       map (fun i3 => E i0 i1 i2 i3) (seq 0 m3)) (seq 0 m2)) (seq 0 m1))
             = (m1 * (m2 * m3))%nat)
    by (intros; apply length_flat_map_uniform; intros; apply L1).
  replace (((j0 * m1 + j1) * m2 + j2) * m3 + j3)%nat
    with (j0 * (m1 * (m2 * m3)) + (j1 * (m2 * m3) + (j2 * m3 + j3)))%nat by ring.
  assert (B2 : (j2 * m3 + j3 < m2 * m3)%nat) by (apply mixed_radix_lt; assumption).
  assert (B1 : (j1 * (m2 * m3) + (j2 * m3 + j3) < m1 * (m2 * m3))%nat)
    by (apply mixed_radix_lt; assumption).
  rewrite (nth_flat_map_uniform _ (m1 * (m2 * m3)) m0) by auto.
  rewrite (nth_flat_map_uniform _ (m2 * m3) m1) by auto.
  rewrite (nth_flat_map_uniform _ m3 m2) by auto.
  rewrite (nth_indep _ y0 (E j0 j1 j2 0%nat)) by (rewrite L2; exact H3).
  rewrite (map_nth (fun i3 => E j0 j1 j2 i3) (seq 0 m3) 0%nat j3).
  rewrite seq_nth by exact H3. reflexivity.
Qed.

Lemma nested_4_ext_in {X} (E E' : nat -> nat -> nat -> nat -> X) (n0 n1 n2 n3 : nat) :
  (forall i0 i1 i2 i3, (i0 < n0)%nat -> (i1 < n1)%nat -> (i2 < n2)%nat -> (i3 < n3)%nat ->
     E i0 i1 i2 i3 = E' i0 i1 i2 i3) ->
  flat_map (fun i0 => flat_map (fun i1 => flat_map (fun i2 =>
     map (fun i3 => E i0 i1 i2 i3) (seq 0 n3)) (seq 0 n2)) (seq 0 n1)) (seq 0 n0)
  = flat_map (fun i0 => flat_map (fun i1 => flat_map (fun i2 =>
     map (fun i3 => E' i0 i1 i2 i3) (seq 0 n3)) (seq 0 n2)) (seq 0 n1)) (seq 0 n0).
Proof.
  intros HE.
  apply flat_map_ext_in. intros i0 H0. apply in_seq in H0.
  apply flat_map_ext_in. intros i1 H1. apply in_seq in H1.
  apply flat_map_ext_in. intros i2 H2. apply in_seq in H2.
  apply map_ext_in. intros i3 H3. apply in_seq in H3.
  apply HE; lia.
Qed.

Lemma nested_4_length {X} (E : nat -> nat -> nat -> nat -> X) (m0 m1 m2 m3 : nat) :
  length (flat_map (fun i0 => flat_map (fun i1 => flat_map (fun i2 =>
            map (fun i3 => E i0 i1 i2 i3) (seq 0 m3)) (seq 0 m2)) (seq 0 m1)) (seq 0 m0))
  = (m0 * (m1 * (m2 * m3)))%nat.
Proof.
  apply length_flat_map_uniform. intros i0 _.
  apply length_flat_map_uniform. intros i1 _.
  apply length_flat_map_uniform. intros i2 _.
  rewrite length_map, length_seq. reflexivity.
Qed.

Lemma numel_4 (n0 n1 n2 n3 : nat) :
  numel [n0; n1; n2; n3]%nat = (n0 * (n1 * (n2 * n3)))%nat.
Proof. simpl. lia. Qed.

Lemma permute4_0312 {X} (x0 : X) (d : list X) (n h w c : nat) :
  permute4 0 3 1 2 (NdArray [n; h; w; c]%nat (x0 :: d))
  = ret (NdArray [n; c; h; w]%nat
           (flat_map (fun i0 => flat_map (fun i1 => flat_map (fun i2 => map (fun i3 =>
              nth (((i0 * h + i2) * w + i3) * c + i1) (x0 :: d) x0)
            (seq 0 w)) (seq 0 h)) (seq 0 c)) (seq 0 n))).
Proof. reflexivity. Qed.

Lemma permute4_0231 {X} (x0 : X) (d : list X) (n c h w : nat) :
  permute4 0 2 3 1 (NdArray [n; c; h; w]%nat (x0 :: d))
  = ret (NdArray [n; h; w; c]%nat
           (flat_map (fun i0 => flat_map (fun i1 => flat_map (fun i2 => map (fun i3 =>
              nth (((i0 * c + i3) * h + i1) * w + i2) (x0 :: d) x0)
            (seq 0 c)) (seq 0 w)) (seq 0 h)) (seq 0 n))).
Proof. reflexivity. Qed.

(** Channel-last to channel-first and back, on the buffers. *)
Lemma nhwc_nchw_nhwc {X} (d : list X) (x0 y0 : X) (n h w c : nat) :
  length d = (n * (h * (w * c)))%nat ->
  flat_map (fun i0 => flat_map (fun i1 => flat_map (fun i2 => map (fun i3 =>
     nth (((i0 * c + i3) * h + i1) * w + i2)
         (flat_map (fun k0 => flat_map (fun k1 => flat_map (fun k2 => map (fun k3 =>
            nth (((k0 * h + k2) * w + k3) * c + k1) d x0)
          (seq 0 w)) (seq 0 h)) (seq 0 c)) (seq 0 n))
         y0)
   (seq 0 c)) (seq 0 w)) (seq 0 h)) (seq 0 n)
  = d.
Proof.
  intros Hlen.
  rewrite (nested_4_ext_in _ (fun i0 i1 i2 i3 => nth (((i0 * h + i1) * w + i2) * c + i3) d x0)).
  - apply row_major_4. exact Hlen.
  - intros i0 i1 i2 i3 H0 H1 H2 H3.
    apply (nth_nested_4 (fun k0 k1 k2 k3 => nth (((k0 * h + k2) * w + k3) * c + k1) d x0)
             n c h w i0 i3 i1 i2 y0); assumption.
Qed.

(** Channel-first to channel-last and back, on the buffers. *)
Lemma nchw_nhwc_nchw {X} (d : list X) (x0 y0 : X) (n c h w : nat) :
  length d = (n * (c * (h * w)))%nat ->
  flat_map (fun i0 => flat_map (fun i1 => flat_map (fun i2 => map (fun i3 =>
     nth (((i0 * h + i2) * w + i3) * c + i1)
         (flat_map (fun k0 => flat_map (fun k1 => flat_map (fun k2 => map (fun k3 =>
            nth (((k0 * c + k3) * h + k1) * w + k2) d x0)
          (seq 0 c)) (seq 0 w)) (seq 0 h)) (seq 0 n))
         y0)
   (seq 0 w)) (seq 0 h)) (seq 0 c)) (seq 0 n)
  = d.
Proof.
  intros Hlen.
  rewrite (nested_4_ext_in _ (fun i0 i1 i2 i3 => nth (((i0 * c + i1) * h + i2) * w + i3) d x0)).
  - apply row_major_4. exact Hlen.
  - intros i0 i1 i2 i3 H0 H1 H2 H3.
    apply (nth_nested_4 (fun k0 k1 k2 k3 => nth (((k0 * c + k3) * h + k1) * w + k2) d x0)
             n h w c i0 i2 i3 i1 y0); assumption.
Qed.

Lemma numpy_pt_numpy {A} (a : ndarray A) (n h w c : nat) :
  shape a = [n; h; w; c]%nat -> well_formed a ->
  (t <- VaeImageProcessor.numpy_to_pt a ;; VaeImageProcessor.pt_to_numpy t) = ret a.
Proof.
  revert a.
  intros [sh d] Hsh Hwf. cbn [shape] in Hsh. subst sh.
  unfold well_formed in Hwf. cbn [shape data] in Hwf. rewrite numel_4 in Hwf.
  unfold VaeImageProcessor.numpy_to_pt, VaeImageProcessor.pt_to_numpy, ndim.
  cbn [shape length Nat.eqb].
  destruct d as [| x0 d]; [reflexivity |].
  rewrite permute4_0312, bind_ret_l.
  match goal with
  | |- permute4 _ _ _ _ (NdArray _ ?D) = _ =>
      remember D as D1 eqn:ED1;
      assert (L1 : length D1 = (n * (c * (h * w)))%nat)
        by (rewrite ED1; apply nested_4_length)
  end.
  destruct D1 as [| y0 D1']; [simpl in L1, Hwf; nia |].
  rewrite permute4_0231, ED1.
  do 2 f_equal. apply nhwc_nchw_nhwc. exact Hwf.
Qed.

Lemma pt_numpy_pt {A} (t : tensor A) (n c h w : nat) :
  shape t = [n; c; h; w]%nat -> well_formed t ->
  (a <- VaeImageProcessor.pt_to_numpy t ;; VaeImageProcessor.numpy_to_pt a) = ret t.
Proof.
  revert t.
  intros [sh d] Hsh Hwf. cbn [shape] in Hsh. subst sh.
  unfold well_formed in Hwf. cbn [shape data] in Hwf. rewrite numel_4 in Hwf.
  unfold VaeImageProcessor.numpy_to_pt, VaeImageProcessor.pt_to_numpy.
  destruct d as [| x0 d]; [reflexivity |].
  rewrite permute4_0231, bind_ret_l.
  unfold ndim. cbn [shape length Nat.eqb].
  match goal with
  | |- permute4 _ _ _ _ (NdArray _ ?D) = _ =>
      remember D as D1 eqn:ED1;
      assert (L1 : length D1 = (n * (h * (w * c)))%nat)
        by (rewrite ED1; apply nested_4_length)
  end.
  destruct D1 as [| y0 D1']; [simpl in L1, Hwf; nia |].
  rewrite permute4_0312, ED1.
  do 2 f_equal. apply nchw_nhwc_nchw. exact Hwf.
Qed.

(** X10. The two changes of layout undo each other on every well-formed
    4-dimensional array: pt_to_numpy(numpy_to_pt(a)) is a for a of shape
    (n, h, w, c), and numpy_to_pt(pt_to_numpy(t)) is t for t of shape
    (n, c, h, w). *)
Theorem X10_layout_roundtrip :
  forall (A : Type) (SA : Scalar A) (n h w c : nat),
    (forall a : ndarray A,
       shape a = [n; h; w; c]%nat -> well_formed a ->
       (t <- VaeImageProcessor.numpy_to_pt a ;; VaeImageProcessor.pt_to_numpy t) = ret a) /\
    (forall t : tensor A,
       shape t = [n; c; h; w]%nat -> well_formed t ->
       (a <- VaeImageProcessor.pt_to_numpy t ;; VaeImageProcessor.numpy_to_pt a) = ret t).
Proof.
  intros A SA n h w c. split.
  - intros a Hsh Hwf. apply (numpy_pt_numpy a n h w c Hsh Hwf).
  - intros t Hsh Hwf. apply (pt_numpy_pt t n c h w Hsh Hwf).
Qed.

Lemma X10_layout_roundtrip_witness :
  (t <- VaeImageProcessor.numpy_to_pt rgba_2x2 ;; VaeImageProcessor.pt_to_numpy t)
  = ret rgba_2x2.
Proof.
  destruct (X10_layout_roundtrip Q _ 1 2 2 4) as [G _].
  apply G; reflexivity.
Defined.

(** ** Elementwise operations and the layout *)

Lemma map_flat_map_comm {X Y W} (f : Y -> W) (g : X -> list Y) (l : list X) :
  map f (flat_map g l) = flat_map (fun x => map f (g x)) l.
Proof.
  induction l as [| x l IH]; [reflexivity |].
  cbn [flat_map]. rewrite map_app, IH. reflexivity.
Qed.

(** A change of layout commutes with every elementwise operation. *)
Lemma permute4_amap {X Y} (f : X -> Y) (p0 p1 p2 p3 : nat) (a : ndarray X) :
  permute4 p0 p1 p2 p3 (amap f a)
  = (b <- permute4 p0 p1 p2 p3 a ;; ret (amap f b)).
Proof.
  unfold permute4, amap. cbn [shape data].
  destruct (shape a) as [| d0 [| d1 [| d2 [| d3 [| d4 sh]]]]]; try reflexivity.
  destruct (data a) as [| x0 d]; [reflexivity |].
  rewrite bind_ret_l. cbn [shape data map]. do 2 f_equal.
  rewrite map_flat_map_comm. apply flat_map_ext. intros i0.
  rewrite map_flat_map_comm. apply flat_map_ext. intros i1.
  rewrite map_flat_map_comm. apply flat_map_ext. intros i2.
  rewrite map_map. apply map_ext. intros i3.
  apply (map_nth f (x0 :: d) x0).
Qed.

(** The tensor layout of a well-formed channel-last array. *)
Lemma numpy_to_pt_well_formed {X} (a : ndarray X) (n h w c : nat) :
  shape a = [n; h; w; c]%nat -> well_formed a ->
  exists t, VaeImageProcessor.numpy_to_pt a = ret t /\
            shape t = [n; c; h; w]%nat /\
            well_formed t /\
            (forall y, In y (data t) -> In y (data a)) /\
            (data a <> [] -> data t <> []).
Proof.
  intros Hsh Hwf. destruct a as [sh d]. cbn [shape] in Hsh. subst sh.
  unfold well_formed in Hwf. cbn [shape data] in Hwf. rewrite numel_4 in Hwf.
  unfold VaeImageProcessor.numpy_to_pt, ndim. cbn [shape length Nat.eqb].
  destruct d as [| x0 d].
  - eexists. split; [reflexivity |]. split; [reflexivity |]. split.
    + unfold well_formed. cbn [shape data]. rewrite numel_4. simpl in Hwf. simpl. nia.
    + split; [intros y [] | intros N; exfalso; apply N; reflexivity].
  - rewrite permute4_0312. eexists. split; [reflexivity |]. split; [reflexivity |]. split.
    + unfold well_formed. cbn [shape data]. rewrite numel_4. apply nested_4_length.
    + split.
      * cbn [data]. intros y Hy.
        eapply (In_nested_nth (x0 :: d) x0
                  (fun i0 i1 i2 i3 => (((i0 * h + i2) * w + i3) * c + i1)%nat));
          [left; reflexivity | exact Hy].
      * intros _ E. cbn [data] in E.
        apply (f_equal (@length X)) in E. rewrite nested_4_length in E.
        simpl in E, Hwf. nia.
Qed.

(** ** From images to the model and back *)

Section EndToEnd.
Context {A : Type} `{Scalar A} {image : Type} `{ImageLib image} `{Utils}.

(** The images of an array of pixels that survive the cast to 8 bits. *)
Lemma numpy_to_pil_pixels (phi : Z -> A) (l : list image) (h w c : nat) :
  (forall k, is_uint8 k -> to_uint8 (phi k) = k) ->
  l <> [] ->
  c <> 1%nat ->
  (forall im, In im l ->
     shape (img_array im) = [h; w; c]%nat /\
     well_formed (img_array im) /\
     Forall is_uint8 (data (img_array im)) /\
     img_fromarray (img_array im) None = ret im) ->
  VaeImageProcessor.numpy_to_pil
    (NdArray (length l :: [h; w; c]%nat)
             (concat (map (fun im => map phi (data (img_array im))) l)))
  = ret l.
Proof.
  intros Hphi Hne Hc Hl.
  assert (Hd : exists im0 : image, True)
    by (destruct l as [| x l0]; [contradiction | exists x; exact I]).
  destruct Hd as [im0 _].
  set (bs := map (fun im => data (img_array im)) l).
  assert (Hbs : forall b, In b bs -> length b = numel [h; w; c]%nat).
  { intros b Hb. apply in_map_iff in Hb as (im & <- & Him).
    destruct (Hl im Him) as (Hsh & Hwf & _). unfold well_formed in Hwf.
    rewrite Hwf, Hsh. reflexivity. }
  unfold VaeImageProcessor.numpy_to_pil, ndim. cbn [shape length Nat.eqb].
  unfold last_dim, amap. cbn [shape data rev app nth_error of_option].
  rewrite bind_ret_l.
  assert (D : map to_uint8 (concat (map (fun im => map phi (data (img_array im))) l))
              = concat bs).
  { rewrite <- concat_map_map, map_map. unfold bs. f_equal.
    apply map_ext_in. intros im Him.
    destruct (Hl im Him) as (_ & _ & Hu & _).
    induction Hu as [| k d Hk _ IH]; [reflexivity |].
    cbn [map]. rewrite Hphi by exact Hk. rewrite IH. reflexivity. }
  rewrite D.
  unfold items. cbn [shape].
  rewrite (mapM_ret _ (fun i => img_array (nth i l im0))).
  - rewrite bind_ret_l. apply Nat.eqb_neq in Hc. rewrite Hc.
    rewrite (map_seq_nth img_array l im0).
    apply mapM_map_ret. intros im Him. apply (Hl im Him).
  - intros i Hi. apply in_seq in Hi.
    rewrite (item_in_range (NdArray (length l :: [h; w; c]%nat) (concat bs))
               (length l) [h; w; c]%nat i eq_refl) by lia.
    cbn [data].
    rewrite (chunk_concat (numel [h; w; c]%nat) bs Hbs i)
      by (unfold bs; rewrite length_map; lia).
    unfold bs.
    rewrite (nth_indep _ [] (data (img_array im0))) by (rewrite length_map; lia).
    rewrite (map_nth (fun im => data (img_array im)) l im0 i).
    assert (Hin : In (nth i l im0) l) by (apply nth_In; lia).
    destruct (Hl _ Hin) as (Hsh & _).
    destruct (img_array (nth i l im0)) as [sh d]. cbn [shape data] in *.
    subst sh. reflexivity.
Qed.

Lemma length_concat_uniform {X} (bs : list (list X)) (k : nat) :
  (forall b, In b bs -> length b = k) -> length (concat bs) = (length bs * k)%nat.
Proof.
  induction bs as [| b bs IH]; intros Hk; [reflexivity |].
  cbn [concat length]. rewrite length_app, (Hk b (or_introl eq_refl)).
  rewrite IH by (intros b' Hb'; apply Hk; right; exact Hb'). simpl. lia.
Qed.

End EndToEnd.

Section ImagesThroughTheModel.
Context {A : Type} `{Scalar A} {image : Type} `{ImageLib image} `{Utils}.
Hypothesis pixel_nonneg :
  forall k, is_uint8 k -> sc_ltb (from_uint8 k : A) (sc_of_Z 0) = false.
Hypothesis pixel_ok :
  forall k, is_uint8 k -> to_uint8 (from_uint8 k : A) = k.
Hypothesis pixel_normalized_ok :
  forall k, is_uint8 k -> to_uint8 (denormalize1 (normalize1 (from_uint8 k : A))) = k.

Lemma images_through_the_model (cfg : config) (l : list image) (h w c : nat)
      (height width : option Z) :
  do_resize cfg = false ->
  do_convert_rgb cfg = false ->
  l <> [] ->
  c <> 1%nat ->
  numel [h; w; c]%nat <> 0%nat ->
  (forall im, In im l ->
     shape (img_array im) = [h; w; c]%nat /\
     well_formed (img_array im) /\
     Forall is_uint8 (data (img_array im)) /\
     img_fromarray (img_array im) None = ret im) ->
  exists t : tensor A,
    VaeImageProcessor.preprocess cfg (Images l) height width = ret t /\
    shape t = [length l; c; h; w]%nat /\
    VaeImageProcessor.postprocess cfg (ObjTensor t) "pil" None = ret (OutImages l).
Proof.
  intros Hr Hcv Hne Hc Hnum Hl.
  destruct l as [| im0 l0] eqn:El; [contradiction |]. rewrite <- El in *.
  assert (Hlen : length l = S (length l0)) by (rewrite El; reflexivity).
  set (a0 := NdArray (length l :: [h; w; c]%nat)
                     (concat (map (fun im => map (from_uint8 (A := A)) (data (img_array im))) l))).
  assert (Ea0 : VaeImageProcessor.pil_to_numpy l = ret a0).
  { unfold VaeImageProcessor.pil_to_numpy.
    rewrite (stack_uniform _ [h; w; c]%nat).
    - rewrite length_map, map_map. reflexivity.
    - rewrite El. discriminate.
    - intros x Hx. apply in_map_iff in Hx as (im & <- & Him).
      cbn [amap shape]. apply (Hl im Him). }
  assert (Hblocks : forall b, In b (map (fun im => map (from_uint8 (A := A))
                                                    (data (img_array im))) l) ->
                              length b = numel [h; w; c]%nat).
  { intros b Hb. apply in_map_iff in Hb as (im & <- & Him).
    destruct (Hl im Him) as (Hsh & Hwf & _). unfold well_formed in Hwf.
    rewrite length_map, Hwf, Hsh. reflexivity. }
  assert (Wa0 : well_formed a0).
  { unfold well_formed, a0. cbn [shape data].
    rewrite (length_concat_uniform _ _ Hblocks), length_map. reflexivity. }
  assert (Na0 : data a0 <> []).
  { intros E. apply (f_equal (@length A)) in E. unfold a0 in E. cbn [data] in E.
    rewrite (length_concat_uniform _ _ Hblocks), length_map, Hlen in E.
    simpl in E. simpl in Hnum. lia. }
  assert (Pa0 : forall y, In y (data a0) -> exists k, is_uint8 k /\ y = from_uint8 k).
  { intros y Hy. unfold a0 in Hy. cbn [data] in Hy.
    apply in_concat in Hy as (b & Hb & Hy).
    apply in_map_iff in Hb as (im & <- & Him).
    apply in_map_iff in Hy as (k & <- & Hk).
    exists k. split; [| reflexivity].
    destruct (Hl im Him) as (_ & _ & F & _). rewrite Forall_forall in F. apply F, Hk. }
  destruct (numpy_to_pt_well_formed a0 (length l) h w c eq_refl Wa0)
    as (t0 & Et0 & St0 & Wt0 & It0 & Nt0).
  assert (Back : VaeImageProcessor.pt_to_numpy t0 = ret a0).
  { pose proof (numpy_pt_numpy a0 (length l) h w c eq_refl Wa0) as G.
    rewrite Et0, bind_ret_l in G. exact G. }
  set (g := if do_normalize cfg then (fun x : A => denormalize1 (normalize1 x))
            else (fun x : A => x)).
  set (t1 := if do_normalize cfg then VaeImageProcessor.normalize t0 else t0).
  assert (St1 : shape t1 = S (length l0) :: [c; h; w]%nat).
  { unfold t1. rewrite <- Hlen. destruct (do_normalize cfg); exact St0. }
  assert (Wt1 : well_formed t1).
  { unfold t1. destruct (do_normalize cfg); [| exact Wt0].
    unfold well_formed, VaeImageProcessor.normalize, amap. cbn [shape data].
    rewrite length_map. exact Wt0. }
  exists t1. split; [| split].
  - unfold VaeImageProcessor.preprocess. rewrite Hr, Hcv. rewrite El at 1.
    cbn [nth_error of_option]. rewrite !bind_ret_l, Ea0, bind_ret_l, Et0, bind_ret_l.
    unfold VaeImageProcessor.normalize_range.
    destruct (tmin_cases t0) as [Em | (m & Em & Hm)].
    + exfalso. unfold tmin in Em. destruct (data t0); [apply Nt0; [exact Na0 | reflexivity] |].
      discriminate.
    + rewrite Em, bind_ret_l.
      destruct (Pa0 m (It0 m Hm)) as (k & Hk & ->).
      rewrite (pixel_nonneg k Hk), bind_ret_l. unfold t1.
      destruct (do_normalize cfg); reflexivity.
  - rewrite St1, Hlen. reflexivity.
  - unfold VaeImageProcessor.postprocess, VaeImageProcessor.resolve_output_type.
    change (known_output_type "pil") with true. cbv iota. rewrite bind_ret_l.
    change (String.eqb "pil" "latent") with false.
    change (String.eqb "pil" "pt") with false.
    change (String.eqb "pil" "np") with false.
    change (String.eqb "pil" "pil") with true. cbv iota.
    rewrite (denormalize_batch_uniform cfg t1 (length l0) [c; h; w]%nat St1 Wt1).
    rewrite bind_ret_l.
    assert (E2 : (if do_normalize cfg then VaeImageProcessor.denormalize t1 else t1)
                 = amap g t0).
    { unfold t1, g, VaeImageProcessor.denormalize, VaeImageProcessor.normalize, amap.
      destruct (do_normalize cfg); cbn [shape data].
      - rewrite map_map. reflexivity.
      - rewrite map_id. destruct t0; reflexivity. }
    rewrite E2. unfold VaeImageProcessor.pt_to_numpy in *.
    rewrite permute4_amap, Back, !bind_ret_l.
    assert (E3 : amap g a0
                 = NdArray (length l :: [h; w; c]%nat)
                     (concat (map (fun im => map (fun k => g (from_uint8 k))
                                                 (data (img_array im))) l))).
    { unfold amap, a0. cbn [shape data]. f_equal.
      rewrite <- concat_map_map, map_map. f_equal.
      apply map_ext. intros im. apply map_map. }
    rewrite E3, numpy_to_pil_pixels; [rewrite bind_ret_l; reflexivity | | | exact Hc | exact Hl].
    + intros k Hk. unfold g. destruct (do_normalize cfg);
        [apply pixel_normalized_ok | apply pixel_ok]; exact Hk.
    + rewrite El. discriminate.
Qed.

End ImagesThroughTheModel.

(** X11. In float32, with do_resize and do_convert_rgb off, images survive
    the trip through the processor: for a non-empty list of non-empty 8-bit
    images of one shape (h, w, c), c other than 1, which the library
    rebuilds from their arrays, preprocess returns a tensor of shape
    (len, c, h, w) without a warning, and postprocess of that tensor to pil
    with default flags returns the very images -- with do_normalize on as
    with do_normalize off. *)
Theorem X11_images_through_the_model :
  forall (image : Type) (IL : ImageLib image) (U : Utils) (cfg : config)
         (l : list image) (h w c : nat) (height width : option Z),
    do_resize cfg = false ->
    do_convert_rgb cfg = false ->
    l <> [] ->
    c <> 1%nat ->
    numel [h; w; c]%nat <> 0%nat ->
    (forall im, In im l ->
       shape (img_array im) = [h; w; c]%nat /\
       well_formed (img_array im) /\
       Forall is_uint8 (data (img_array im)) /\
       img_fromarray (img_array im) None = ret im) ->
    exists t : tensor F32.t,
      VaeImageProcessor.preprocess cfg (Images l) height width = ret t /\
      shape t = [length l; c; h; w]%nat /\
      VaeImageProcessor.postprocess cfg (ObjTensor t) "pil" None = ret (OutImages l).
Proof.
  intros image IL U cfg l h w c height width.
  apply images_through_the_model.
  - intros k Hk. apply (float32_pixel_range k Hk).
  - exact pixel_roundtrip_F32.
  - intros k Hk. pose proof float32_pixels_requantize as Hall.
    rewrite forallb_forall in Hall.
    apply Z.eqb_eq, Hall, uint8_in_table, Hk.
Qed.

Lemma X11_images_through_the_model_witness :
  exists t : tensor F32.t,
    VaeImageProcessor.preprocess config_plain (Images [two_pixels; two_pixels]) None None
    = ret t /\
    shape t = [2; 3; 1; 2]%nat /\
    VaeImageProcessor.postprocess config_plain (ObjTensor t) "pil" None
    = ret (OutImages [two_pixels; two_pixels]).
Proof.
  apply (X11_images_through_the_model raster _ _ config_plain [two_pixels; two_pixels]
           1 2 3 None None).
  - reflexivity.
  - reflexivity.
  - discriminate.
  - discriminate.
  - discriminate.
  - intros im [<- | [<- | []]];
      (split; [reflexivity |]; split; [reflexivity |]; split; [| reflexivity];
       repeat constructor; unfold is_uint8; lia).
Defined.

(** ** preprocess: a NaN in the batch *)

Lemma SFeqb_refl (x : spec_float) : x <> S754_nan -> SFeqb x x = true.
Proof.
  intros Hx. unfold SFeqb.
  destruct x as [s | s | | s m e]; cbn [SFcompare].
  - reflexivity.
  - destruct s; reflexivity.
  - contradiction.
  - rewrite Z.compare_refl, Pos.compare_cont_refl. destruct s; reflexivity.
Qed.

Lemma is_nan_F32 (x : F32.t) : sc_is_nan x = true <-> x = S754_nan.
Proof.
  unfold sc_is_nan. cbn [sc_eqb Scalar_F32]. split.
  - intros E. destruct x as [s | s | | s m e]; try reflexivity;
      rewrite SFeqb_refl in E by discriminate; discriminate.
  - intros ->. reflexivity.
Qed.

Lemma min2_nan_l (b : F32.t) : min2 S754_nan b = S754_nan.
Proof. reflexivity. Qed.

Lemma min2_nan_r (a : F32.t) : min2 a S754_nan = S754_nan.
Proof.
  unfold min2. destruct (sc_is_nan a) eqn:E; [apply is_nan_F32 in E; exact E | reflexivity].
Qed.

Lemma fold_min2_nan (xs : list F32.t) : fold_left min2 xs S754_nan = S754_nan.
Proof.
  induction xs as [| y xs IH]; [reflexivity |]. cbn [fold_left]. rewrite min2_nan_l. exact IH.
Qed.

(** The minimum of a float32 tensor with a NaN in it is NaN. *)
Lemma tmin_nan (t : tensor F32.t) : In S754_nan (data t) -> tmin t = ret S754_nan.
Proof.
  unfold tmin. destruct (data t) as [| x xs]; [intros [] |].
  intros Hin. f_equal. f_equal. revert x Hin.
  induction xs as [| y xs IH]; intros x Hin.
  - destruct Hin as [-> | []]. reflexivity.
  - cbn [fold_left]. destruct Hin as [-> | [-> | Hin]].
    + rewrite min2_nan_l. apply fold_min2_nan.
    + rewrite min2_nan_r. apply fold_min2_nan.
    + apply IH. right. exact Hin.
Qed.

(** X12. A NaN hides the value range from preprocess.  For an array input
    or a non-latent tensor input in float32 whose batch contains a NaN and
    passes the divisibility check, the minimum is NaN, the test min < 0
    fails, and the call returns without a warning: the normalized batch when
    do_normalize is on, whatever negative values the batch also holds. *)
Theorem X12_nan_hides_value_range :
  forall (image : Type) (IL : ImageLib image) (U : Utils) (cfg : config)
         (inp : input image F32.t) (t : tensor F32.t) (n c h w : nat)
         (height width : option Z),
    batched inp t ->
    shape t = [n; c; h; w]%nat ->
    (do_resize cfg = true ->
     vae_scale_factor cfg <> 0 /\
     Z.of_nat h mod vae_scale_factor cfg = 0 /\ Z.of_nat w mod vae_scale_factor cfg = 0) ->
    In S754_nan (data t) ->
    VaeImageProcessor.preprocess cfg inp height width
    = ret (if do_normalize cfg then VaeImageProcessor.normalize t else t).
Proof.
  intros image IL U cfg inp t n c h w height width Hb Hsh Hdiv Hnan.
  rewrite (preprocess_batched cfg inp t n c h w height width Hb Hsh).
  assert (E : VaeImageProcessor.not_divisible cfg h w = ret false).
  { destruct (do_resize cfg) eqn:Hr.
    - destruct (Hdiv eq_refl) as (Hs & Eh & Ew).
      rewrite not_divisible_eq by assumption.
      rewrite Hr, Eh, Ew. reflexivity.
    - apply not_divisible_off. assumption. }
  rewrite E, bind_ret_l.
  apply (normalize_range_nonnegative cfg t S754_nan).
  - apply tmin_nan. exact Hnan.
  - reflexivity.
Qed.

Lemma X12_nan_hides_value_range_witness :
  VaeImageProcessor.preprocess (image := raster) config_plain
    (One (ObjTensor (NdArray [1; 1; 1; 3]%nat [F32.of_Z (-1); S754_nan; F32.of_Z 1])))
    None None
  = ret (VaeImageProcessor.normalize
           (NdArray [1; 1; 1; 3]%nat [F32.of_Z (-1); S754_nan; F32.of_Z 1])).
Proof.
  apply (X12_nan_hides_value_range raster _ _ config_plain
           (One (ObjTensor (NdArray [1; 1; 1; 3]%nat [F32.of_Z (-1); S754_nan; F32.of_Z 1])))
           (NdArray [1; 1; 1; 3]%nat [F32.of_Z (-1); S754_nan; F32.of_Z 1])
           1 1 1 3 None None).
  - right. eexists. split; [reflexivity |]. split; [reflexivity |]. simpl. discriminate.
  - reflexivity.
  - intros E. discriminate E.
  - right. left. reflexivity.
Defined.

(** ** preprocess: a zero scale factor *)

(** X13. With do_resize on and vae_scale_factor 0, preprocess raises
    ZeroDivisionError: for an array input and a non-latent tensor input at
    the divisibility check, and for a non-empty image input (do_convert_rgb
    off) at the first resize, before the image library is asked for
    anything. *)
Theorem X13_zero_scale_factor :
  forall (A : Type) (SA : Scalar A) (image : Type) (IL : ImageLib image) (U : Utils)
         (cfg : config) (inp : input image A) (height width : option Z),
    do_resize cfg = true ->
    vae_scale_factor cfg = 0 ->
    (forall t n c h w, batched inp t -> shape t = [n; c; h; w]%nat ->
       VaeImageProcessor.preprocess cfg inp height width = raise ZeroDivisionError) /\
    (forall im l, image_input inp = Some (im :: l) -> do_convert_rgb cfg = false ->
       VaeImageProcessor.preprocess cfg inp height width = raise ZeroDivisionError).
Proof.
  intros A SA image IL U cfg inp height width Hr Hs. split.
  - intros t n c h w Hb Hsh.
    rewrite (preprocess_batched cfg inp t n c h w height width Hb Hsh).
    unfold VaeImageProcessor.not_divisible, py_mod. rewrite Hr, Hs. reflexivity.
  - intros im l Hin Hc.
    assert (E : VaeImageProcessor.preprocess cfg inp height width
                = (l' <- mapM (fun i => VaeImageProcessor.resize cfg i height width) (im :: l) ;;
                   a <- VaeImageProcessor.pil_to_numpy l' ;;
                   t <- VaeImageProcessor.numpy_to_pt a ;;
                   VaeImageProcessor.normalize_range cfg t)).
    { destruct inp as [[i | a | t' |] | l' | l' | l']; simpl in Hin; try discriminate;
        inversion Hin; subst;
        unfold VaeImageProcessor.preprocess; rewrite Hr, Hc;
        cbn [nth_error of_option]; rewrite !bind_ret_l; reflexivity. }
    rewrite E. cbn [mapM].
    unfold VaeImageProcessor.resize, VaeImageProcessor.resize_dims, py_mod.
    rewrite Hs. reflexivity.
Qed.

Lemma X13_zero_scale_factor_witness :
  VaeImageProcessor.preprocess (A := F32.t) (Config true 0 "lanczos" true false)
    (Images [two_pixels]) None None = raise ZeroDivisionError.
Proof.
  destruct (X13_zero_scale_factor F32.t _ raster _ _ (Config true 0 "lanczos" true false)
              (Images [two_pixels]) None None eq_refl eq_refl) as [_ G].
  apply (G two_pixels []); reflexivity.
Defined.

(** ** From an array to the model and back, with exact arithmetic *)

(** X15. With exact arithmetic an array survives the trip through the
    processor.  For a well-formed, non-empty array of shape (n, h, w, c),
    n at least 1, with values in [0, 1], that passes the divisibility check,
    preprocess returns a tensor without a warning and postprocess of it to
    np with default flags returns an array of the shape of the input whose
    elements are == to the input's, with do_normalize on as with
    do_normalize off. *)
Theorem X15_array_through_the_model :
  forall (image : Type) (IL : ImageLib image) (U : Utils) (cfg : config)
         (a : ndarray Q) (n h w c : nat) (height width : option Z),
    shape a = [S n; h; w; c]%nat ->
    well_formed a ->
    data a <> [] ->
    (do_resize cfg = true ->
     vae_scale_factor cfg <> 0 /\
     Z.of_nat h mod vae_scale_factor cfg = 0 /\ Z.of_nat w mod vae_scale_factor cfg = 0) ->
    Forall (fun x => 0 <= x /\ x <= 1)%Q (data a) ->
    exists (t : tensor Q) (a' : ndarray Q),
      VaeImageProcessor.preprocess (image := image) cfg (One (ObjArray a)) height width = ret t /\
      VaeImageProcessor.postprocess (image := image) cfg (ObjTensor t) "np" None
      = ret (OutArray a') /\
      shape a' = shape a /\
      Forall2 (fun y x => sc_eqb y x = true) (data a') (data a).
Proof.
  intros image IL U cfg a n h w c height width Hsh Hwf Hne Hdiv Hrange.
  destruct (numpy_to_pt_well_formed a (S n) h w c Hsh Hwf)
    as (t0 & Et0 & St0 & Wt0 & It0 & Nt0).
  assert (Back : VaeImageProcessor.pt_to_numpy t0 = ret a).
  { pose proof (numpy_pt_numpy a (S n) h w c Hsh Hwf) as G.
    rewrite Et0, bind_ret_l in G. exact G. }
  assert (Hb : VaeImageProcessor.batch_arrays [a] = ret t0).
  { unfold VaeImageProcessor.batch_arrays. cbn [nth_error of_option].
    rewrite bind_ret_l. unfold ndim. rewrite Hsh. cbn [length Nat.eqb].
    rewrite (concatenate_singleton a (S n) [h; w; c]%nat Hsh), bind_ret_l. exact Et0. }
  set (g := if do_normalize cfg then (fun x : Q => denormalize1 (normalize1 x))
            else (fun x : Q => x)).
  set (t1 := if do_normalize cfg then VaeImageProcessor.normalize t0 else t0).
  assert (St1 : shape t1 = S n :: [c; h; w]%nat).
  { unfold t1. destruct (do_normalize cfg); exact St0. }
  assert (Wt1 : well_formed t1).
  { unfold t1. destruct (do_normalize cfg); [| exact Wt0].
    unfold well_formed, VaeImageProcessor.normalize, amap. cbn [shape data].
    rewrite length_map. exact Wt0. }
  exists t1, (amap g a). split; [| split; [| split]].
  - assert (B : batched (image := image) (One (ObjArray a)) t0).
    { left. exists [a]. split; [reflexivity | exact Hb]. }
    rewrite (preprocess_batched cfg _ t0 (S n) c h w height width B St0).
    assert (E : VaeImageProcessor.not_divisible cfg h w = ret false).
    { destruct (do_resize cfg) eqn:Hr.
      - destruct (Hdiv eq_refl) as (Hs & Eh & Ew).
        rewrite not_divisible_eq by assumption.
        rewrite Hr, Eh, Ew. reflexivity.
      - apply not_divisible_off. assumption. }
    rewrite E, bind_ret_l.
    destruct (tmin_cases t0) as [Em | (m & Em & Hm)].
    + exfalso. unfold tmin in Em. destruct (data t0); [apply Nt0; [exact Hne | reflexivity] |].
      discriminate.
    + rewrite (normalize_range_nonnegative cfg t0 m Em); [reflexivity |].
      rewrite Forall_forall in Hrange. destruct (Hrange m (It0 m Hm)) as [Hlo _].
      cbn [sc_ltb sc_of_Z Scalar_Q]. apply negb_false_iff. apply Qle_bool_iff. exact Hlo.
  - unfold VaeImageProcessor.postprocess, VaeImageProcessor.resolve_output_type.
    change (known_output_type "np") with true. cbv iota. rewrite bind_ret_l.
    change (String.eqb "np" "latent") with false.
    change (String.eqb "np" "pt") with false.
    change (String.eqb "np" "np") with true. cbv iota.
    rewrite (denormalize_batch_uniform cfg t1 n [c; h; w]%nat St1 Wt1), bind_ret_l.
    assert (E2 : (if do_normalize cfg then VaeImageProcessor.denormalize t1 else t1)
                 = amap g t0).
    { unfold t1, g, VaeImageProcessor.denormalize, VaeImageProcessor.normalize, amap.
      destruct (do_normalize cfg); cbn [shape data].
      - rewrite map_map. reflexivity.
      - rewrite map_id. destruct t0; reflexivity. }
    rewrite E2. unfold VaeImageProcessor.pt_to_numpy in *.
    rewrite permute4_amap, Back, !bind_ret_l. reflexivity.
  - reflexivity.
  - unfold amap. cbn [data]. clear - Hrange.
    induction Hrange as [| x d [Hlo Hhi] _ IH]; cbn [map]; constructor; [| exact IH].
    unfold g. cbn [sc_eqb Scalar_Q]. apply Qeq_bool_iff.
    destruct (do_normalize cfg); [apply roundtrip_exact; assumption | reflexivity].
Qed.

Lemma X15_array_through_the_model_witness :
  exists (t : tensor Q) (a' : ndarray Q),
    VaeImageProcessor.preprocess (image := raster) config_scale2 (One (ObjArray rgba_2x2))
      None None = ret t /\
    VaeImageProcessor.postprocess (image := raster) config_scale2 (ObjTensor t) "np" None
    = ret (OutArray a') /\
    shape a' = shape rgba_2x2 /\
    Forall2 (fun y x => sc_eqb y x = true) (data a') (data rgba_2x2).
Proof.
  apply (X15_array_through_the_model raster _ _ config_scale2 rgba_2x2 0 2 2 4 None None).
  - reflexivity.
  - reflexivity.
  - discriminate.
  - intros _. repeat split. discriminate.
  - repeat constructor; discriminate.
Defined.

(** ** denormalize with exact arithmetic: inverse and saturation *)

(** X16. With exact arithmetic denormalize is x/2 + 1/2 on [-1, 1], where
    normalize undoes it (normalize(denormalize(y)) == y), and it saturates
    outside: every y <= -1 is sent to 0 and every y >= 1 to 1. *)
Theorem X16_denormalize_exact :
  forall y : Q,
    (-1 <= y /\ y <= 1 ->
     denormalize1 y == y / 2 + (1 # 2) /\ normalize1 (denormalize1 y) == y)%Q /\
    (y <= -1 -> denormalize1 y == 0)%Q /\
    (1 <= y -> denormalize1 y == 1)%Q.
Proof.
  intros y.
  unfold denormalize1, normalize1, clamp.
  cbn [sc_add sc_sub sc_mul sc_div sc_of_Z sc_half sc_ltb Scalar_Q].
  change (inject_Z 2) with (2 : Q). change (inject_Z 1) with (1 : Q).
  change (inject_Z 0) with (0 : Q).
  set (z := (y / 2 + (1 # 2))%Q).
  assert (Ez : (z == (y + 1) * (1 # 2))%Q) by (unfold z; field).
  split; [| split].
  - intros [Hlo Hhi].
    assert (L0 : Qle_bool 0 z = true) by (apply Qle_bool_iff; rewrite Ez; lra).
    assert (L1 : Qle_bool z 1 = true) by (apply Qle_bool_iff; rewrite Ez; lra).
    rewrite L0, L1. cbn [negb]. split; [reflexivity | unfold z; field].
  - intros Hlo.
    destruct (Qle_bool 0 z) eqn:L0; cbn [negb]; [| reflexivity].
    apply Qle_bool_iff in L0. rewrite Ez in L0.
    assert (L1 : Qle_bool z 1 = true) by (apply Qle_bool_iff; rewrite Ez; lra).
    rewrite L1. cbn [negb]. rewrite Ez. lra.
  - intros Hhi.
    assert (L0 : Qle_bool 0 z = true) by (apply Qle_bool_iff; rewrite Ez; lra).
    rewrite L0. cbn [negb].
    destruct (Qle_bool z 1) eqn:L1; cbn [negb]; [| reflexivity].
    apply Qle_bool_iff in L1. rewrite Ez in L1. rewrite Ez. lra.
Qed.

Lemma X16_denormalize_exact_witness :
  (normalize1 (denormalize1 (-1 # 3)) == -1 # 3)%Q /\ (denormalize1 (7 # 2) == 1)%Q.
Proof.
  destruct (X16_denormalize_exact (-1 # 3)) as [G _].
  destruct (X16_denormalize_exact (7 # 2)) as (_ & _ & G').
  split.
  - apply G. split; discriminate.
  - apply G'. discriminate.
Defined.

(** ** preprocess: when the value-range warning is emitted *)

Lemma is_nan_Q (x : Q) : sc_is_nan x = false.
Proof.
  unfold sc_is_nan. cbn [sc_eqb Scalar_Q].
  rewrite (proj2 (Qeq_bool_iff x x)) by reflexivity. reflexivity.
Qed.

Lemma min2_Q_le (a b : Q) : (min2 a b <= a /\ min2 a b <= b)%Q.
Proof.
  unfold min2. rewrite !is_nan_Q. cbn [sc_ltb Scalar_Q].
  destruct (Qle_bool a b) eqn:L; cbn [negb].
  - apply Qle_bool_iff in L. split; [apply Qle_refl | exact L].
  - assert (N : ~ (a <= b)%Q) by (intros N; apply Qle_bool_iff in N; congruence).
    split; [lra | apply Qle_refl].
Qed.

Lemma fold_min2_Q_le (xs : list Q) :
  forall x, (fold_left min2 xs x <= x)%Q /\
            forall y, In y xs -> (fold_left min2 xs x <= y)%Q.
Proof.
  induction xs as [| z xs IH]; intros x.
  - split; [apply Qle_refl | intros y []].
  - cbn [fold_left]. destruct (IH (min2 x z)) as [H1 H2].
    destruct (min2_Q_le x z) as [Hx Hz]. split.
    + eapply Qle_trans; eassumption.
    + intros y [<- | Hy]; [eapply Qle_trans; eassumption | apply H2, Hy].
Qed.

(** X17. For an array input or a non-latent tensor input whose batch passes
    the divisibility check, the value-range warning is emitted only if some
    element of the batch is negative; with exact arithmetic it is emitted
    exactly when some element is negative. *)
Theorem X17_value_range_warning :
  (forall (A : Type) (SA : Scalar A) (image : Type) (IL : ImageLib image) (U : Utils)
          (cfg : config) (inp : input image A) (t : tensor A) (n c h w : nat)
          (height width : option Z),
     batched inp t ->
     shape t = [n; c; h; w]%nat ->
     VaeImageProcessor.not_divisible cfg h w = ret false ->
     In FutureWarning_value_range
        (warnings (VaeImageProcessor.preprocess cfg inp height width)) ->
     exists x, In x (data t) /\ sc_ltb x (sc_of_Z 0) = true) /\
  (forall (image : Type) (IL : ImageLib image) (U : Utils)
          (cfg : config) (inp : input image Q) (t : tensor Q) (n c h w : nat)
          (height width : option Z),
     batched inp t ->
     shape t = [n; c; h; w]%nat ->
     VaeImageProcessor.not_divisible cfg h w = ret false ->
     (In FutureWarning_value_range
         (warnings (VaeImageProcessor.preprocess cfg inp height width))
      <-> exists x, In x (data t) /\ (x < 0)%Q)).
Proof.
  assert (G : forall (A : Type) (SA : Scalar A) (cfg : config) (t : tensor A),
             In FutureWarning_value_range (warnings (VaeImageProcessor.normalize_range cfg t)) ->
             exists m, tmin t = ret m /\ In m (data t) /\ sc_ltb m (sc_of_Z 0) = true).
  { intros A SA cfg t Hw. unfold VaeImageProcessor.normalize_range in Hw.
    destruct (tmin_cases t) as [E | (m & E & Hm)]; rewrite E in Hw; [destruct Hw |].
    rewrite bind_ret_l in Hw. exists m. split; [exact E |]. split; [exact Hm |].
    destruct (sc_ltb m (sc_of_Z 0)); [reflexivity |].
    rewrite bind_ret_l in Hw. destruct (do_normalize cfg); destruct Hw. }
  split.
  - intros A SA image IL U cfg inp t n c h w height width Hb Hsh Hnd Hw.
    rewrite (preprocess_batched cfg inp t n c h w height width Hb Hsh) in Hw.
    rewrite Hnd, bind_ret_l in Hw.
    destruct (G A SA cfg t Hw) as (m & _ & Hm & Hneg).
    exists m. split; assumption.
  - intros image IL U cfg inp t n c h w height width Hb Hsh Hnd.
    rewrite (preprocess_batched cfg inp t n c h w height width Hb Hsh).
    rewrite Hnd, bind_ret_l. split.
    + intros Hw. destruct (G Q _ cfg t Hw) as (m & _ & Hm & Hneg).
      exists m. split; [exact Hm |].
      cbn [sc_ltb sc_of_Z Scalar_Q] in Hneg. apply negb_true_iff in Hneg.
      change (inject_Z 0) with (0 : Q) in Hneg.
      assert (N : ~ (0 <= m)%Q) by (intros N; apply Qle_bool_iff in N; congruence).
      lra.
    + intros (x & Hx & Hneg).
      unfold VaeImageProcessor.normalize_range, tmin.
      destruct (data t) as [| x0 xs] eqn:Ed; [destruct Hx |].
      rewrite bind_ret_l.
      destruct (fold_min2_Q_le xs x0) as [H1 H2].
      assert (Hm : (fold_left min2 xs x0 <= x)%Q).
      { destruct Hx as [<- | Hx]; [exact H1 | apply H2, Hx]. }
      assert (L : sc_ltb (fold_left min2 xs x0) (sc_of_Z 0) = true).
      { cbn [sc_ltb sc_of_Z Scalar_Q]. apply negb_true_iff.
        destruct (Qle_bool (inject_Z 0) (fold_left min2 xs x0)) eqn:L; [| reflexivity].
        exfalso. apply Qle_bool_iff in L.
        apply (Qlt_irrefl 0). eapply Qle_lt_trans; [exact L |].
        eapply Qle_lt_trans; [exact Hm | exact Hneg]. }
      rewrite L. left. reflexivity.
Qed.

Lemma X17_value_range_warning_witness :
  In FutureWarning_value_range
     (warnings (VaeImageProcessor.preprocess (image := raster) config_plain
                  (One (ObjArray (NdArray [1; 1; 2; 1]%nat [(1 # 2)%Q; (-1 # 4)%Q]))) None None))
  <-> exists x, In x [(1 # 2)%Q; (-1 # 4)%Q] /\ (x < 0)%Q.
Proof.
  destruct X17_value_range_warning as [_ G].
  apply (G raster _ _ config_plain
           (One (ObjArray (NdArray [1; 1; 2; 1]%nat [(1 # 2)%Q; (-1 # 4)%Q])))
           (NdArray [1; 1; 1; 2]%nat [(1 # 2)%Q; (-1 # 4)%Q])
           1%nat 1%nat 1%nat 2%nat None None).
  - left. eexists. split; reflexivity.
  - reflexivity.
  - reflexivity.
Defined.

(** ** postprocess to pt: the value range *)

(** X18. In float32, postprocess to pt with default flags and do_normalize
    on returns, for a well-formed tensor with at least one item and no NaN,
    a tensor of the same shape all of whose elements lie in [0, 1]. *)
Theorem X18_postprocess_pt_range :
  forall (image : Type) (IL : ImageLib image) (U : Utils) (cfg : config)
         (t : tensor F32.t) (n : nat) (tl : list nat),
    shape t = S n :: tl ->
    well_formed t ->
    do_normalize cfg = true ->
    Forall (fun x => x <> S754_nan) (data t) ->
    exists t' : tensor F32.t,
      VaeImageProcessor.postprocess (image := image) cfg (ObjTensor t) "pt" None
      = ret (OutTensor t') /\
      shape t' = shape t /\
      Forall (between 0 1) (data t').
Proof.
  intros image IL U cfg t n tl Hsh Hwf Hn Hnan.
  exists (VaeImageProcessor.denormalize t). split; [| split].
  - unfold VaeImageProcessor.postprocess, VaeImageProcessor.resolve_output_type.
    change (known_output_type "pt") with true. cbv iota. rewrite bind_ret_l.
    change (String.eqb "pt" "latent") with false.
    change (String.eqb "pt" "pt") with true. cbv iota.
    rewrite (denormalize_batch_uniform cfg t n tl Hsh Hwf), Hn, bind_ret_l. reflexivity.
  - reflexivity.
  - unfold VaeImageProcessor.denormalize, amap. cbn [data].
    induction Hnan as [| x d Hx _ IH]; cbn [map]; constructor; [| exact IH].
    apply (denormalize1_F32_range x Hx).
Qed.

Lemma X18_postprocess_pt_range_witness :
  exists t' : tensor F32.t,
    VaeImageProcessor.postprocess (image := raster) default_config (ObjTensor planes_batch)
      "pt" None = ret (OutTensor t') /\
    shape t' = shape planes_batch /\
    Forall (between 0 1) (data t').
Proof.
  apply (X18_postprocess_pt_range raster _ _ default_config planes_batch 1 [1; 2; 2]%nat).
  - reflexivity.
  - reflexivity.
  - reflexivity.
  - repeat constructor; discriminate.
Defined.

(** ** The depth map of a float image *)

Lemma blocks_fuel_uniform {X Y} (f : X -> list Y) (k : nat) (l : list X) :
  (forall x, length (f x) = S k) ->
  forall fuel, (length l <= fuel)%nat ->
    blocks_fuel fuel (S k) (flat_map f l) = map f l.
Proof.
  intros Hf. induction l as [| x l IH]; intros fuel Hfuel.
  - destruct fuel; reflexivity.
  - destruct fuel as [| fuel]; [simpl in Hfuel; lia |].
    cbn [flat_map map].
    pose proof (Hf x) as Hx.
    destruct (f x) as [| y ys] eqn:Efx; [discriminate |].
    cbn [blocks_fuel app]. rewrite <- Efx.
    change (y :: ys ++ flat_map f l) with ((y :: ys) ++ flat_map f l). rewrite <- Efx.
    rewrite firstn_app, skipn_app, Efx, Hx, Nat.sub_diag. rewrite <- Hx at 1 3.
    rewrite firstn_all, skipn_all. cbn [firstn skipn app]. rewrite app_nil_r.
    f_equal. apply IH. simpl in Hfuel. lia.
Qed.

Lemma blocks_uniform {X Y} (f : X -> list Y) (k : nat) (l : list X) :
  (forall x, length (f x) = S k) -> blocks (S k) (flat_map f l) = map f l.
Proof.
  intros Hf. unfold blocks. apply blocks_fuel_uniform; [exact Hf |].
  induction l as [| x l IH]; [reflexivity |].
  cbn [flat_map length]. rewrite length_app, Hf. lia.
Qed.

(** The decoding of an image of encoded depth values. *)
Lemma depthmap_of_encoded (h w : nat) (px : list (Z * Z)) :
  Forall (fun p => 0 <= snd p <= 65535) px ->
  VaeImageProcessorLDM3D.rgblike_to_depthmap
    (NdArray [h; w; 3%nat] (flat_map (fun p => encode_depth (fst p) (snd p)) px))
  = ret (NdArray [h; w] (map snd px)).
Proof.
  intros Hpx.
  unfold VaeImageProcessorLDM3D.rgblike_to_depthmap, select_axis.
  cbn [shape data nth_error Nat.ltb Nat.leb skipn firstn numel fold_right app].
  rewrite !bind_ret_l. cbn [Nat.mul Nat.add].
  rewrite (blocks_uniform (fun p => encode_depth (fst p) (snd p)) 2) by reflexivity.
  rewrite !flat_map_map. cbn [encode_depth skipn firstn fst snd].
  rewrite !flat_map_singleton.
  unfold zip_with, amap. cbn [shape data]. rewrite shape_eqb_refl.
  do 2 f_equal.
  induction Hpx as [| p px Hp _ IH]; [reflexivity |].
  cbn [map combine fst snd]. rewrite IH. f_equal.
  cbn [np_add np_mul_int NpNum_uint8]. apply depth_decode_bytes. exact Hp.
Qed.

Section DepthOfFloats.
Context {A : Type} `{Scalar A} {image : Type} `{ImageLib image}.
Hypothesis pixel_ok : forall k, is_uint8 k -> to_uint8 (from_uint8 k : A) = k.

Lemma depth_of_float_image (h w : nat) (px : list ((A * A * A) * (Z * Z))) :
  length px = (h * w)%nat ->
  Forall (fun p => is_uint8 (fst (snd p)) /\ 0 <= snd (snd p) <= 65535) px ->
  VaeImageProcessorLDM3D.numpy_to_depth (NdArray [h; w; 6]%nat (flat_map rgbd_pixel px))
  = (m <- img_fromarray (NdArray [h; w] (map (fun p => snd (snd p)) px)) (Some Mode_I16) ;;
     ret [m]).
Proof.
  intros Hlen Hpx.
  set (u8 := fun p : (A * A * A) * (Z * Z) =>
               let '((x1, x2, x3), (c0, v)) := p in
               [to_uint8 x1; to_uint8 x2; to_uint8 x3; c0; v / 256; v mod 256]).
  assert (D : map to_uint8 (flat_map rgbd_pixel px) = flat_map u8 px).
  { clear Hlen. induction Hpx as [| p px [Hc Hv] _ IH]; [reflexivity |].
    cbn [flat_map]. rewrite map_app, IH. f_equal.
    destruct p as [[[x1 x2] x3] [c0 v]]. cbn [fst snd] in Hc, Hv.
    cbn [rgbd_pixel u8 map].
    rewrite !pixel_ok; [reflexivity | | | exact Hc]; unfold is_uint8.
    - pose proof (Z.mod_pos_bound v 256 ltac:(lia)). lia.
    - split; [apply Z.div_pos; lia | ].
      assert (v / 256 < 256) by (apply Z.div_lt_upper_bound; lia). lia. }
  assert (Lu : forall p, length (u8 p) = 6%nat)
    by (intros [[[x1 x2] x3] [c0 v]]; reflexivity).
  assert (LD : length (flat_map u8 px) = (h * (w * (6 * 1)))%nat).
  { clear - Hlen Lu. rewrite flat_map_concat_map.
    rewrite (length_concat_uniform _ 6), length_map, Hlen; [lia |].
    intros b Hb. apply in_map_iff in Hb as (p & <- & _). apply Lu. }
  unfold VaeImageProcessorLDM3D.numpy_to_depth, ndim. cbn [shape length Nat.eqb].
  unfold expand_first, amap, last_dim. cbn [shape data rev app nth_error of_option].
  rewrite bind_ret_l. cbn [Nat.eqb]. rewrite D.
  unfold items. cbn [shape seq mapM].
  rewrite (item_in_range (NdArray [1; h; w; 6]%nat (flat_map u8 px)) 1 [h; w; 6]%nat 0
             eq_refl) by lia.
  rewrite !bind_ret_l. cbn [data skipn Nat.mul numel fold_right].
  rewrite firstn_all2 by (rewrite LD; simpl; nia).
  cbn [mapM]. unfold slice_axis. cbn [shape nth_error data skipn firstn numel fold_right Nat.min Nat.sub].
  rewrite !bind_ret_l. cbn [Nat.mul Nat.add app].
  rewrite (blocks_uniform u8 5 px Lu), flat_map_map.
  assert (E : flat_map (fun x => firstn 3 (skipn 3 (u8 x))) px
              = flat_map (fun q => encode_depth (fst q) (snd q)) (map snd px)).
  { rewrite flat_map_map. apply flat_map_ext. intros [[[x1 x2] x3] [c0 v]]. reflexivity. }
  rewrite E, depthmap_of_encoded.
  - rewrite bind_ret_l, map_map. reflexivity.
  - clear - Hpx. induction Hpx as [| p px [_ Hv] _ IH]; cbn [map]; constructor; assumption.
Qed.

End DepthOfFloats.

(** X19. numpy_to_depth recovers 16-bit depth from a float image.  Take a
    well-formed (h, w, 6) image, in float32 or with exact arithmetic, whose
    last three channels hold, as floats k / 255, an 8-bit free channel and
    the high and low byte of a 16-bit depth v.  Whatever the three colour
    channels are, numpy_to_depth hands the image library the (h, w) map of
    exactly the values v, in mode I;16, and returns the one image it
    builds. *)
Theorem X19_depth_of_float_image :
  forall (image : Type) (IL : ImageLib image) (h w : nat),
    (forall px : list ((F32.t * F32.t * F32.t) * (Z * Z)),
       length px = (h * w)%nat ->
       Forall (fun p => is_uint8 (fst (snd p)) /\ 0 <= snd (snd p) <= 65535) px ->
       VaeImageProcessorLDM3D.numpy_to_depth (NdArray [h; w; 6]%nat (flat_map rgbd_pixel px))
       = (m <- img_fromarray (NdArray [h; w] (map (fun p => snd (snd p)) px)) (Some Mode_I16) ;;
          ret [m])) /\
    (forall px : list ((Q * Q * Q) * (Z * Z)),
       length px = (h * w)%nat ->
       Forall (fun p => is_uint8 (fst (snd p)) /\ 0 <= snd (snd p) <= 65535) px ->
       VaeImageProcessorLDM3D.numpy_to_depth (NdArray [h; w; 6]%nat (flat_map rgbd_pixel px))
       = (m <- img_fromarray (NdArray [h; w] (map (fun p => snd (snd p)) px)) (Some Mode_I16) ;;
          ret [m])).
Proof.
  intros image IL h w. split.
  - intros px. apply (depth_of_float_image pixel_roundtrip_F32).
  - intros px. apply (depth_of_float_image pixel_roundtrip_Q).
Qed.

Lemma X19_depth_of_float_image_witness :
  VaeImageProcessorLDM3D.numpy_to_depth (image := raster)
    (NdArray [1; 2; 6]%nat
       (flat_map rgbd_pixel
          [((F32.of_Z 0, F32.half, F32.of_Z 1), (7, 65535));
           ((F32.of_Z 1, F32.of_Z 1, F32.of_Z 0), (200, 258))]))
  = ret [Raster 2 1 1 [65535; 258]].
Proof.
  destruct (X19_depth_of_float_image raster _ 1 2) as [G _].
  rewrite G.
  - reflexivity.
  - reflexivity.
  - repeat constructor; unfold is_uint8; simpl; lia.
Defined.

Lemma six_channel_pixels {X} (k : nat) (d : list X) :
  length d = (k * 6)%nat ->
  exists px : list ((X * X * X) * (X * X * X)),
    length px = k /\ d = flat_map six_channels px.
Proof.
  revert d. induction k as [| k IH]; intros d Hd.
  - destruct d; [| discriminate]. exists []. split; reflexivity.
  - destruct d as [| x1 [| x2 [| x3 [| d1 [| d2 [| d3 d']]]]]]; try discriminate.
    destruct (IH d') as (px & Hl & ->); [simpl in Hd; lia |].
    exists (((x1, x2, x3), (d1, d2, d3)) :: px). split; [simpl; lia | reflexivity].
Qed.

(** X20. The LDM3D numpy_to_pil shows the colour and nothing of the depth.
    Every well-formed (h, w, 6) float image is a row of h * w pixels of
    three colour values and three depth values; numpy_to_pil hands the image
    library the (h, w, 3) array of the three colour values of each pixel
    brought to 8 bits, and returns the one image it builds, whatever the
    depth channels hold: two such images with the same colours give the
    same result. *)
Theorem X20_ldm3d_numpy_to_pil_colour_only :
  forall (A : Type) (SA : Scalar A) (image : Type) (IL : ImageLib image) (h w : nat)
         (a : ndarray A),
    shape a = [h; w; 6]%nat ->
    well_formed a ->
    exists px : list ((A * A * A) * (A * A * A)),
      length px = (h * w)%nat /\
      data a = flat_map six_channels px /\
      VaeImageProcessorLDM3D.numpy_to_pil a
      = (m <- img_fromarray (NdArray [h; w; 3]%nat (flat_map colour_bytes px)) None ;;
         ret [m]) /\
      (forall px' : list ((A * A * A) * (A * A * A)),
         map fst px' = map fst px ->
         VaeImageProcessorLDM3D.numpy_to_pil (NdArray [h; w; 6]%nat (flat_map six_channels px'))
         = VaeImageProcessorLDM3D.numpy_to_pil a).
Proof.
  intros A SA image IL h w a Hsh Hwf.
  assert (G : forall px : list ((A * A * A) * (A * A * A)),
             length px = (h * w)%nat ->
             VaeImageProcessorLDM3D.numpy_to_pil
               (NdArray [h; w; 6]%nat (flat_map six_channels px))
             = (m <- img_fromarray (NdArray [h; w; 3]%nat (flat_map colour_bytes px)) None ;;
                ret [m])).
  { intros px Hlen.
    set (u8 := fun p : (A * A * A) * (A * A * A) => map to_uint8 (six_channels p)).
    assert (D : map to_uint8 (flat_map six_channels px) = flat_map u8 px)
      by apply map_flat_map_comm.
    assert (Lu : forall p, length (u8 p) = 6%nat)
      by (intros [[[x1 x2] x3] [[d1 d2] d3]]; reflexivity).
    assert (LD : length (flat_map u8 px) = (h * (w * (6 * 1)))%nat).
    { rewrite flat_map_concat_map.
      rewrite (length_concat_uniform _ 6), length_map, Hlen; [lia |].
      intros b Hb. apply in_map_iff in Hb as (p & <- & _). apply Lu. }
    unfold VaeImageProcessorLDM3D.numpy_to_pil, ndim. cbn [shape length Nat.eqb].
    unfold expand_first, amap, last_dim. cbn [shape data rev app nth_error of_option].
    rewrite bind_ret_l. cbn [Nat.eqb]. rewrite D.
    unfold items. cbn [shape seq mapM].
    rewrite (item_in_range (NdArray [1; h; w; 6]%nat (flat_map u8 px)) 1 [h; w; 6]%nat 0
               eq_refl) by lia.
    rewrite !bind_ret_l. cbn [data skipn Nat.mul numel fold_right].
    rewrite firstn_all2 by (rewrite LD; simpl; nia).
    cbn [mapM]. unfold slice_axis.
    cbn [shape nth_error data skipn firstn numel fold_right Nat.min Nat.sub].
    rewrite !bind_ret_l. cbn [Nat.mul Nat.add app].
    rewrite (blocks_uniform u8 5 px Lu), flat_map_map.
    assert (E : forall p, firstn 3 (skipn 0 (u8 p)) = colour_bytes p)
      by (intros [[[x1 x2] x3] [[d1 d2] d3]]; reflexivity).
    rewrite (flat_map_ext _ _ E px).
    destruct (img_fromarray _ None) as [ws [e | m]]; reflexivity. }
  assert (C : forall px px' : list ((A * A * A) * (A * A * A)),
             map fst px' = map fst px -> flat_map colour_bytes px' = flat_map colour_bytes px).
  { intros px px' E.
    assert (F : forall q : list ((A * A * A) * (A * A * A)),
               flat_map colour_bytes q
               = flat_map (fun c : A * A * A =>
                             let '(x1, x2, x3) := c in [to_uint8 x1; to_uint8 x2; to_uint8 x3])
                          (map fst q)).
    { intros q. rewrite flat_map_map. apply flat_map_ext.
      intros [[[x1 x2] x3] [[d1 d2] d3]]. reflexivity. }
    rewrite (F px), (F px'), E. reflexivity. }
  destruct a as [sh d]. cbn [shape] in Hsh. subst sh.
  unfold well_formed in Hwf. cbn [shape data numel fold_right] in Hwf.
  destruct (six_channel_pixels (h * w) d) as (px & Hl & ->); [rewrite Hwf; lia |].
  exists px. split; [exact Hl |]. split; [reflexivity |]. split; [apply G, Hl |].
  intros px' E.
  assert (Hl' : length px' = (h * w)%nat).
  { rewrite <- Hl, <- (length_map fst px'), E. apply length_map. }
  rewrite (G px' Hl'), (G px Hl), (C px px' E). reflexivity.
Qed.

(** A 1 x 2 image in float32: the colours come out as 8-bit pixels, the
    depth values, a NaN and an infinity among them, leave no trace. *)
Lemma X20_ldm3d_numpy_to_pil_colour_only_witness :
  VaeImageProcessorLDM3D.numpy_to_pil (image := raster)
    (NdArray [1; 2; 6]%nat
       [F32.of_Z 0; F32.half; F32.of_Z 1; S754_nan; F32.of_Z (-3); S754_infinity false;
        F32.of_Z 1; F32.of_Z 1; F32.of_Z 0; F32.half; F32.of_Z 1000; F32.of_Z 0])
  = ret [Raster 2 1 3 [0; 128; 255; 255; 255; 0]].
Proof.
  destruct (X20_ldm3d_numpy_to_pil_colour_only F32.t _ raster _ 1 2
              (NdArray [1; 2; 6]%nat
                 [F32.of_Z 0; F32.half; F32.of_Z 1; S754_nan; F32.of_Z (-3);
                  S754_infinity false;
                  F32.of_Z 1; F32.of_Z 1; F32.of_Z 0; F32.half; F32.of_Z 1000; F32.of_Z 0])
              eq_refl eq_refl) as (px & Hl & Hd & E & _).
  rewrite E.
  destruct px as [| [[[x1 x2] x3] [[d1 d2] d3]] [| [[[y1 y2] y3] [[e1 e2] e3]] [| p px]]];
    try discriminate Hl.
  cbn [data flat_map six_channels app] in Hd.
  injection Hd as <- <- <- _ _ _ <- <- <- _ _ _.
  reflexivity.
Defined.

(** ** resize: a resample name that is not in the table *)

(** X21. With a non-zero scale factor and a resample name that
    PIL_INTERPOLATION does not hold, resize raises KeyError and the image
    library is not asked to resize; so does preprocess, with do_resize on
    and do_convert_rgb off, on every non-empty image input. *)
Theorem X21_unknown_resample_name :
  forall (A : Type) (SA : Scalar A) (image : Type) (IL : ImageLib image) (U : Utils)
         (cfg : config) (height width : option Z),
    vae_scale_factor cfg <> 0 ->
    PIL_INTERPOLATION (resample cfg) = None ->
    (forall im, VaeImageProcessor.resize cfg im height width = raise KeyError) /\
    (forall (inp : input image A) im l,
       image_input inp = Some (im :: l) ->
       do_resize cfg = true -> do_convert_rgb cfg = false ->
       VaeImageProcessor.preprocess cfg inp height width = raise KeyError).
Proof.
  intros A SA image IL U cfg height width Hs Hk.
  assert (R : forall im, VaeImageProcessor.resize cfg im height width = raise KeyError).
  { intros im. unfold VaeImageProcessor.resize, VaeImageProcessor.resize_dims, py_mod.
    apply Z.eqb_neq in Hs. rewrite Hs, !bind_ret_l, Hk. reflexivity. }
  split; [exact R |].
  intros inp im l Hin Hr Hc.
  assert (E : VaeImageProcessor.preprocess cfg inp height width
              = (l' <- mapM (fun i => VaeImageProcessor.resize cfg i height width) (im :: l) ;;
                 a <- VaeImageProcessor.pil_to_numpy l' ;;
                 t <- VaeImageProcessor.numpy_to_pt a ;;
                 VaeImageProcessor.normalize_range cfg t)).
  { destruct inp as [[i | a | t' |] | l' | l' | l']; simpl in Hin; try discriminate;
      inversion Hin; subst;
      unfold VaeImageProcessor.preprocess; rewrite Hr, Hc;
      cbn [nth_error of_option]; rewrite !bind_ret_l; reflexivity. }
  rewrite E. cbn [mapM]. rewrite R. reflexivity.
Qed.

Lemma X21_unknown_resample_name_witness :
  VaeImageProcessor.preprocess (A := F32.t) (Config true 8 "cubic" true false)
    (One (ObjImage two_pixels)) None None = raise KeyError.
Proof.
  destruct (X21_unknown_resample_name F32.t _ raster _ _ (Config true 8 "cubic" true false)
              None None) as [_ G].
  - discriminate.
  - reflexivity.
  - apply (G (One (ObjImage two_pixels)) two_pixels []); reflexivity.
Defined.

(** * The array path of preprocess on arrays with four channels *)

(** ** Batches of arrays *)

Lemma Forall2_heads {X} (xs : list (ndarray X)) (ns : list nat) (tl : list nat) :
  Forall2 (fun a n => shape a = n :: tl) xs ns ->
  map (fun b => hd 0%nat (shape b)) xs = ns.
Proof.
  intros F. induction F as [| a n xs ns Ha F IH]; [reflexivity |].
  cbn [map]. rewrite Ha, IH. reflexivity.
Qed.

Lemma Forall2_tails {X} (xs : list (ndarray X)) (ns : list nat) (tl : list nat) :
  Forall2 (fun a n => shape a = n :: tl) xs ns ->
  forall b, In b xs -> tail_shape b = Some tl.
Proof.
  intros F. induction F as [| a n xs ns Ha F IH]; intros b Hb; [destruct Hb |].
  destruct Hb as [<- | Hb]; [unfold tail_shape; rewrite Ha; reflexivity | apply IH, Hb].
Qed.

Lemma concatenate_uniform {X} (xs : list (ndarray X)) (ns : list nat) (tl : list nat) :
  xs <> [] ->
  Forall2 (fun a n => shape a = n :: tl) xs ns ->
  concatenate xs = ret (NdArray (list_sum ns :: tl) (concat (map data xs))).
Proof.
  intros Hne F.
  pose proof (Forall2_heads xs ns tl F) as Hh.
  pose proof (Forall2_tails xs ns tl F) as Ht.
  destruct xs as [| a rest]; [contradiction |].
  unfold concatenate. rewrite Hh.
  inversion F as [| a' n rest' ns' Ha F' E1 E2]; subst.
  rewrite Ha.
  assert (B : forallb (fun b => match tail_shape b with
                                | Some tl' => shape_eqb tl' tl
                                | None => false
                                end) rest = true).
  { apply forallb_forall. intros b Hb.
    rewrite (Ht b (or_intror Hb)). apply shape_eqb_refl. }
  rewrite B. reflexivity.
Qed.

Lemma length_concat_batches {X} (xs : list (ndarray X)) (ns : list nat) (tl : list nat) :
  Forall2 (fun a n => shape a = n :: tl) xs ns ->
  Forall well_formed xs ->
  length (concat (map data xs)) = (list_sum ns * numel tl)%nat.
Proof.
  intros F. induction F as [| a n xs ns Ha F IH]; intros W; [reflexivity |].
  inversion W as [| a' xs' Wa W' E]; subst.
  cbn [map concat list_sum fold_right]. rewrite length_app, (IH W').
  unfold well_formed in Wa. rewrite Wa, Ha. cbn [numel fold_right].
  fold (numel tl). fold (list_sum ns). ring.
Qed.

(** Where an element goes when an array is brought to the tensor layout:
    element (i, r, q, k) of the (n, h, w, c) array is element (i, k, r, q)
    of the (n, c, h, w) tensor. *)
Lemma numpy_to_pt_index {X} (a : ndarray X) (t : tensor X) (n h w c : nat) :
  shape a = [n; h; w; c]%nat -> well_formed a ->
  VaeImageProcessor.numpy_to_pt a = ret t ->
  forall (i k r q : nat) (d : X),
    (i < n)%nat -> (k < c)%nat -> (r < h)%nat -> (q < w)%nat ->
    nth (((i * c + k) * h + r) * w + q) (data t) d
    = nth (((i * h + r) * w + q) * c + k) (data a) d.
Proof.
  intros Hsh Hwf Ht i k r q d Hi Hk Hr Hq.
  destruct a as [sh dd]. cbn [shape] in Hsh. subst sh.
  unfold well_formed in Hwf. cbn [shape data] in Hwf. rewrite numel_4 in Hwf.
  assert (B : (((i * h + r) * w + q) * c + k < length dd)%nat).
  { rewrite Hwf.
    replace (n * (h * (w * c)))%nat with (((n * h) * w) * c)%nat by ring.
    apply mixed_radix_lt; [| exact Hk].
    apply mixed_radix_lt; [| exact Hq].
    apply mixed_radix_lt; assumption. }
  unfold VaeImageProcessor.numpy_to_pt, ndim in Ht. cbn [shape length Nat.eqb] in Ht.
  destruct dd as [| x0 dd]; [simpl in B; lia |].
  rewrite permute4_0312 in Ht. unfold ret in Ht.
  match type of Ht with
  | (_, inr ?u) = _ => assert (Et : t = u) by congruence
  end.
  rewrite Et. cbn [data].
  rewrite (nth_nested_4
             (fun i0 i1 i2 i3 => nth (((i0 * h + i2) * w + i3) * c + i1) (x0 :: dd) x0)
             n c h w i k r q d Hi Hk Hr Hq).
  apply nth_indep. exact B.
Qed.

(** The tensor holds the elements of the array, all of them. *)
Lemma numpy_to_pt_elements {X} (a : ndarray X) (t : tensor X) (n h w c : nat) :
  shape a = [n; h; w; c]%nat -> well_formed a ->
  VaeImageProcessor.numpy_to_pt a = ret t ->
  forall y, In y (data t) <-> In y (data a).
Proof.
  intros Hsh Hwf Ht y. split.
  - destruct (numpy_to_pt_well_formed a n h w c Hsh Hwf) as (t' & Ht' & _ & _ & Hin & _).
    rewrite Ht in Ht'. injection Ht' as <-. apply Hin.
  - pose proof (numpy_pt_numpy a n h w c Hsh Hwf) as R.
    rewrite Ht, bind_ret_l in R. unfold VaeImageProcessor.pt_to_numpy in R.
    destruct (permute4_cases 0 2 3 1 t) as [(e & E) | (b & E & Hin)];
      rewrite E in R; [discriminate R |].
    injection R as ->. apply Hin.
Qed.

(** The batch of a list of four-channel arrays. *)
Lemma batch_arrays_four_channel {X} (l : list (ndarray X)) (N h w : nat) :
  four_channel_arrays l N h w ->
  exists t : tensor X,
    VaeImageProcessor.batch_arrays l = ret t /\
    shape t = [N; 4; h; w]%nat /\
    well_formed t /\
    (forall (i k r q : nat) (d : X),
       (i < N)%nat -> (k < 4)%nat -> (r < h)%nat -> (q < w)%nat ->
       nth (((i * 4 + k) * h + r) * w + q) (data t) d
       = nth (((i * h + r) * w + q) * 4 + k) (concat (map data l)) d) /\
    (forall y, In y (data t) <-> In y (concat (map data l))).
Proof.
  intros (Hne & W & Hl).
  set (a := NdArray [N; h; w; 4]%nat (concat (map data l))).
  assert (Ha : exists a0, nth_error l 0 = Some a0 /\
                          (if Nat.eqb (ndim a0) 4 then concatenate l else stack l) = ret a).
  { subst a. destruct l as [| a0 rest]; [contradiction |]. exists a0. split; [reflexivity |].
    destruct Hl as [[F ->] | (ns & F & ->)].
    - assert (E0 : shape a0 = [h; w; 4]%nat) by (inversion F; assumption).
      unfold ndim. rewrite E0. cbn [length Nat.eqb].
      apply (stack_uniform (a0 :: rest) [h; w; 4]%nat); [discriminate |].
      apply Forall_forall. exact F.
    - assert (E0 : exists n, shape a0 = [n; h; w; 4]%nat)
        by (inversion F; subst; eexists; eassumption).
      destruct E0 as (n & E0). unfold ndim. rewrite E0. cbn [length Nat.eqb].
      apply (concatenate_uniform (a0 :: rest) ns [h; w; 4]%nat); [discriminate | exact F]. }
  assert (Wa : well_formed a).
  { unfold well_formed, a. cbn [shape data]. destruct Hl as [[F ->] | (ns & F & ->)].
    - rewrite (length_concat_uniform _ (numel [h; w; 4]%nat)).
      + rewrite length_map. reflexivity.
      + intros b Hb. apply in_map_iff in Hb as (x & <- & Hx).
        rewrite Forall_forall in W, F. rewrite (W x Hx), (F x Hx). reflexivity.
    - rewrite (length_concat_batches l ns [h; w; 4]%nat F W). reflexivity. }
  destruct Ha as (a0 & E0 & Ea).
  destruct (numpy_to_pt_well_formed a N h w 4 eq_refl Wa) as (t & Ht & Hs & Wt & _ & _).
  exists t. split.
  { unfold VaeImageProcessor.batch_arrays. rewrite E0. cbn [of_option].
    rewrite bind_ret_l, Ea, bind_ret_l. exact Ht. }
  split; [exact Hs |]. split; [exact Wt |]. split.
  - apply (numpy_to_pt_index a t N h w 4 eq_refl Wa Ht).
  - apply (numpy_to_pt_elements a t N h w 4 eq_refl Wa Ht).
Qed.

(** ** The value range, read off the elements *)

Lemma normalize_range_negative_Q (cfg : config) (t : tensor Q) (x : Q) :
  In x (data t) -> (x < 0)%Q ->
  VaeImageProcessor.normalize_range cfg t = ([FutureWarning_value_range], inr t).
Proof.
  intros Hx Hneg.
  destruct (data t) as [| x0 xs] eqn:Ed; [destruct Hx |].
  apply (normalize_range_negative cfg t (fold_left min2 xs x0)).
  - unfold tmin. rewrite Ed. reflexivity.
  - destruct (fold_min2_Q_le xs x0) as [H1 H2].
    assert (Hm : (fold_left min2 xs x0 <= x)%Q).
    { destruct Hx as [<- | Hx]; [exact H1 | apply H2, Hx]. }
    cbn [sc_ltb sc_of_Z Scalar_Q]. apply negb_true_iff.
    destruct (Qle_bool (inject_Z 0) (fold_left min2 xs x0)) eqn:L; [| reflexivity].
    exfalso. apply Qle_bool_iff in L.
    apply (Qlt_irrefl 0). eapply Qle_lt_trans; [exact L |].
    eapply Qle_lt_trans; [exact Hm | exact Hneg].
Qed.

(** Below zero is a matter of the sign, so the smaller of two floats is
    below zero exactly when one of them is. *)
Lemma min2_F32_negative (a b : F32.t) :
  a <> S754_nan -> b <> S754_nan ->
  SFltb (min2 a b) (S754_zero false)
  = SFltb a (S754_zero false) || SFltb b (S754_zero false).
Proof.
  intros Ha Hb. unfold min2.
  destruct (sc_is_nan a) eqn:Na; [apply is_nan_F32 in Na; contradiction |].
  destruct (sc_is_nan b) eqn:Nb; [apply is_nan_F32 in Nb; contradiction |].
  cbn [sc_ltb Scalar_F32].
  destruct (SFltb b a) eqn:L;
    destruct a as [[|] | [|] | | [|] ma ea]; try contradiction;
    destruct b as [[|] | [|] | | [|] mb eb]; try contradiction;
    try reflexivity; discriminate L.
Qed.

Lemma fold_min2_F32_negative (xs : list F32.t) :
  forall x : F32.t,
    x <> S754_nan -> ~ In S754_nan xs ->
    SFltb x (S754_zero false) = true \/
    (exists y, In y xs /\ SFltb y (S754_zero false) = true) ->
    SFltb (fold_left min2 xs x) (S754_zero false) = true.
Proof.
  induction xs as [| z xs IH]; intros x Hx Hn Hneg.
  - destruct Hneg as [E | (y & [] & _)]. exact E.
  - cbn [fold_left].
    assert (Hz : z <> S754_nan) by (intros ->; apply Hn; left; reflexivity).
    apply IH.
    + destruct (min2_cases x z) as [-> | ->]; assumption.
    + intros N. apply Hn. right. exact N.
    + rewrite (min2_F32_negative x z Hx Hz).
      destruct Hneg as [E | (y & [<- | Hy] & E)].
      * left. rewrite E. reflexivity.
      * left. rewrite E. apply orb_true_r.
      * right. exists y. split; assumption.
Qed.

Lemma normalize_range_negative_F32 (cfg : config) (t : tensor F32.t) (x : F32.t) :
  ~ In S754_nan (data t) ->
  In x (data t) -> SFltb x (F32.of_Z 0) = true ->
  VaeImageProcessor.normalize_range cfg t = ([FutureWarning_value_range], inr t).
Proof.
  intros Hn Hx Hneg.
  destruct (data t) as [| x0 xs] eqn:Ed; [destruct Hx |].
  apply (normalize_range_negative cfg t (fold_left min2 xs x0)).
  - unfold tmin. rewrite Ed. reflexivity.
  - cbn [sc_ltb sc_of_Z Scalar_F32].
    change (F32.of_Z 0) with (S754_zero false) in *.
    apply fold_min2_F32_negative.
    + intros ->. apply Hn. left. reflexivity.
    + intros N. apply Hn. right. exact N.
    + destruct Hx as [<- | Hx]; [left; exact Hneg | right; exists x; split; assumption].
Qed.

Section FourChannelArrays.
Context {A : Type} `{Scalar A} {image : Type} `{ImageLib image} `{Utils}.

Lemma preprocess_arrays_refused (cfg : config) (inp : input image A) (l : list (ndarray A))
      (t : tensor A) (n c h w : nat) (height width : option Z) :
  array_input inp = Some l ->
  VaeImageProcessor.batch_arrays l = ret t ->
  shape t = [n; c; h; w]%nat ->
  do_resize cfg = true -> vae_scale_factor cfg <> 0 ->
  Z.of_nat h mod vae_scale_factor cfg <> 0 \/ Z.of_nat w mod vae_scale_factor cfg <> 0 ->
  VaeImageProcessor.preprocess cfg inp height width = raise ValueError_not_divisible.
Proof.
  intros Hin Hb Hsh Hr Hs Hbad.
  assert (B : batched inp t) by (left; exists l; split; assumption).
  rewrite (preprocess_batched cfg inp t n c h w height width B Hsh).
  rewrite not_divisible_eq by exact Hs.
  rewrite bind_ret_l, Hr.
  destruct Hbad as [E | E]; apply Z.eqb_neq in E; rewrite E; cbn [negb andb orb].
  - reflexivity.
  - rewrite orb_true_r. reflexivity.
Qed.

Lemma preprocess_arrays_passing (cfg : config) (inp : input image A) (l : list (ndarray A))
      (t : tensor A) (n c h w : nat) (height width : option Z) :
  array_input inp = Some l ->
  VaeImageProcessor.batch_arrays l = ret t ->
  shape t = [n; c; h; w]%nat ->
  (do_resize cfg = true ->
   vae_scale_factor cfg <> 0 /\
   Z.of_nat h mod vae_scale_factor cfg = 0 /\ Z.of_nat w mod vae_scale_factor cfg = 0) ->
  VaeImageProcessor.preprocess cfg inp height width
  = VaeImageProcessor.normalize_range cfg t.
Proof.
  intros Hin Hb Hsh Hdiv.
  assert (B : batched inp t) by (left; exists l; split; assumption).
  rewrite (preprocess_batched cfg inp t n c h w height width B Hsh).
  assert (E : VaeImageProcessor.not_divisible cfg h w = ret false).
  { destruct (do_resize cfg) eqn:Hr.
    - destruct (Hdiv eq_refl) as (Hs & Eh & Ew).
      rewrite not_divisible_eq by assumption.
      rewrite Hr, Eh, Ew. reflexivity.
    - apply not_divisible_off. assumption. }
  rewrite E, bind_ret_l. reflexivity.
Qed.

End FourChannelArrays.

(** C10. A numpy array with four channels is not passed through by the
    base preprocess, alone or in a list: the latent return is on the tensor
    path only.  Take an array input of well-formed arrays with four
    channels, single (h, w, 4) images or (n, h, w, 4) batches, making N
    images in all.

    - The arrays are brought to one tensor t of shape (N, 4, h, w): element
      (i, k, r, c) of t is element (i, r, c, k) of the arrays laid end to
      end.
    - With do_resize on, a scale factor that is not zero and h or w not a
      multiple of it, the call ends in the not-divisible ValueError.
    - Otherwise, if no element is below zero (and there is one), the call
      returns without a warning: the tensor of the values 2 * x - 1 for x in
      t if do_normalize is on, and t if it is off.  With no element at all
      the minimum cannot be taken and the call raises.
    - Otherwise, with exact arithmetic, and in float32 when no element is a
      NaN: if some element is below zero the call warns about the value
      range and returns t as it is. *)
Theorem C10_four_channel_array_is_processed :
  (forall (A : Type) (SA : Scalar A) (image : Type) (IL : ImageLib image) (U : Utils)
          (cfg : config) (inp : input image A) (l : list (ndarray A)) (N h w : nat)
          (height width : option Z),
     array_input inp = Some l ->
     four_channel_arrays l N h w ->
     exists t : tensor A,
       VaeImageProcessor.batch_arrays l = ret t /\
       shape t = [N; 4; h; w]%nat /\
       well_formed t /\
       (forall (i k r c : nat) (d : A),
          (i < N)%nat -> (k < 4)%nat -> (r < h)%nat -> (c < w)%nat ->
          nth (((i * 4 + k) * h + r) * w + c)%nat (data t) d
          = nth (((i * h + r) * w + c) * 4 + k)%nat (concat (map data l)) d) /\
       (do_resize cfg = true -> vae_scale_factor cfg <> 0 ->
        Z.of_nat h mod vae_scale_factor cfg <> 0 \/
        Z.of_nat w mod vae_scale_factor cfg <> 0 ->
        VaeImageProcessor.preprocess cfg inp height width
        = raise ValueError_not_divisible) /\
       ((do_resize cfg = true ->
         vae_scale_factor cfg <> 0 /\
         Z.of_nat h mod vae_scale_factor cfg = 0 /\
         Z.of_nat w mod vae_scale_factor cfg = 0) ->
        (concat (map data l) = [] ->
         VaeImageProcessor.preprocess cfg inp height width = raise EmptyReduction) /\
        (concat (map data l) <> [] ->
         (forall x, In x (concat (map data l)) -> sc_ltb x (sc_of_Z 0) = false) ->
         VaeImageProcessor.preprocess cfg inp height width
         = ret (if do_normalize cfg
                then NdArray [N; 4; h; w]%nat
                       (map (fun x => sc_sub (sc_mul (sc_of_Z 2) x) (sc_of_Z 1)) (data t))
                else t)))) /\
  (forall (image : Type) (IL : ImageLib image) (U : Utils)
          (cfg : config) (inp : input image Q) (l : list (ndarray Q)) (t : tensor Q)
          (N h w : nat) (height width : option Z),
     array_input inp = Some l ->
     four_channel_arrays l N h w ->
     VaeImageProcessor.batch_arrays l = ret t ->
     (do_resize cfg = true ->
      vae_scale_factor cfg <> 0 /\
      Z.of_nat h mod vae_scale_factor cfg = 0 /\
      Z.of_nat w mod vae_scale_factor cfg = 0) ->
     (exists x, In x (concat (map data l)) /\ (x < 0)%Q) ->
     VaeImageProcessor.preprocess cfg inp height width
     = ([FutureWarning_value_range], inr t)) /\
  (forall (image : Type) (IL : ImageLib image) (U : Utils)
          (cfg : config) (inp : input image F32.t) (l : list (ndarray F32.t))
          (t : tensor F32.t) (N h w : nat) (height width : option Z),
     array_input inp = Some l ->
     four_channel_arrays l N h w ->
     VaeImageProcessor.batch_arrays l = ret t ->
     (do_resize cfg = true ->
      vae_scale_factor cfg <> 0 /\
      Z.of_nat h mod vae_scale_factor cfg = 0 /\
      Z.of_nat w mod vae_scale_factor cfg = 0) ->
     ~ In S754_nan (concat (map data l)) ->
     (exists x, In x (concat (map data l)) /\ SFltb x (F32.of_Z 0) = true) ->
     VaeImageProcessor.preprocess cfg inp height width
     = ([FutureWarning_value_range], inr t)).
Proof.
  split; [| split].
  - intros A SA image IL U cfg inp l N h w height width Hin Hl.
    destruct (batch_arrays_four_channel l N h w Hl) as (t & Hb & Hsh & Wt & Hidx & Hel).
    exists t. split; [exact Hb |]. split; [exact Hsh |]. split; [exact Wt |].
    split; [exact Hidx |]. split.
    + intros Hr Hs Hbad.
      apply (preprocess_arrays_refused cfg inp l t N 4 h w height width); assumption.
    + intros Hdiv.
      rewrite (preprocess_arrays_passing cfg inp l t N 4 h w height width Hin Hb Hsh Hdiv).
      split.
      * intros He. unfold VaeImageProcessor.normalize_range, tmin.
        destruct (data t) as [| x xs] eqn:Ed; [reflexivity |].
        exfalso. assert (Hx : In x (concat (map data l))) by (apply Hel; left; reflexivity).
        rewrite He in Hx. destruct Hx.
      * intros Hne Hnn.
        destruct (tmin_cases t) as [E | (m & E & Hm)].
        -- exfalso.
           destruct (concat (map data l)) as [| x xs]; [contradiction |].
           assert (Hx : In x (data t)) by (apply Hel; left; reflexivity).
           unfold tmin in E. destruct (data t); [destruct Hx | discriminate E].
        -- assert (Hm' : sc_ltb m (sc_of_Z 0) = false) by (apply Hnn, Hel, Hm).
           rewrite (normalize_range_nonnegative cfg t m E Hm').
           destruct t as [sh dt]. cbn [shape] in Hsh. subst sh. reflexivity.
  - intros image IL U cfg inp l t N h w height width Hin Hl Hb Hdiv (x & Hx & Hneg).
    destruct (batch_arrays_four_channel l N h w Hl) as (t' & Hb' & Hsh & _ & _ & Hel).
    rewrite Hb in Hb'. injection Hb' as <-.
    rewrite (preprocess_arrays_passing cfg inp l t N 4 h w height width Hin Hb Hsh Hdiv).
    apply (normalize_range_negative_Q cfg t x); [apply Hel, Hx | exact Hneg].
  - intros image IL U cfg inp l t N h w height width Hin Hl Hb Hdiv Hn (x & Hx & Hneg).
    destruct (batch_arrays_four_channel l N h w Hl) as (t' & Hb' & Hsh & _ & _ & Hel).
    rewrite Hb in Hb'. injection Hb' as <-.
    rewrite (preprocess_arrays_passing cfg inp l t N 4 h w height width Hin Hb Hsh Hdiv).
    apply (normalize_range_negative_F32 cfg t x).
    + intros N'. apply Hn, Hel, N'.
    + apply Hel, Hx.
    + exact Hneg.
Qed.

(** The 2 x 2 four-channel array of the values k/16 comes back in tensor
    layout with the values 2 * (k/16) - 1 under scale factor 2, and is
    refused under the default scale factor 8.  A list of two 1 x 2 images,
    one of them with a negative value, comes back as the batch in tensor
    layout with the warning, and so does a float32 pixel with a -1 in it. *)
Lemma C10_four_channel_array_is_processed_witness :
  VaeImageProcessor.preprocess (image := raster) config_scale2
    (One (ObjArray rgba_2x2)) None None
  = ret (NdArray [1; 4; 2; 2]%nat
           (map (fun k => Qmake k 16)
                [-16; -8; 0; 8; -14; -6; 2; 10; -12; -4; 4; 12; -10; -2; 6; 14])) /\
  VaeImageProcessor.preprocess (image := raster) default_config
    (One (ObjArray rgba_2x2)) None None
  = raise ValueError_not_divisible /\
  VaeImageProcessor.preprocess (image := raster) config_plain
    (Arrays [rgba_1x2_a; rgba_1x2_b]) None None
  = ([FutureWarning_value_range], inr rgba_1x2_pt) /\
  VaeImageProcessor.preprocess (image := raster) config_plain
    (One (ObjArray (NdArray [1; 1; 4]%nat
                      [F32.of_Z 1; F32.of_Z (-1); F32.of_Z 0; F32.half]))) None None
  = ([FutureWarning_value_range],
     inr (NdArray [1; 4; 1; 1]%nat [F32.of_Z 1; F32.of_Z (-1); F32.of_Z 0; F32.half])).
Proof.
  destruct C10_four_channel_array_is_processed as (G & GQ & GF).
  assert (W : four_channel_arrays [rgba_2x2] 1 2 2).
  { split; [discriminate |]. split; [constructor; [reflexivity | constructor] |].
    right. exists [1%nat]. split; [constructor; [reflexivity | constructor] | reflexivity]. }
  split; [| split; [| split]].
  - destruct (G Q _ raster _ _ config_scale2 (One (ObjArray rgba_2x2)) [rgba_2x2]
                1%nat 2%nat 2%nat None None eq_refl W) as (t & Hb & _ & _ & _ & _ & P).
    assert (Ht : ret t = ret rgba_2x2_pt) by (rewrite <- Hb; reflexivity).
    injection Ht as ->.
    destruct P as [_ P].
    + intros _. split; [discriminate | split; reflexivity].
    + assert (E : VaeImageProcessor.preprocess (image := raster) config_scale2
                    (One (ObjArray rgba_2x2)) None None
                  = ret (NdArray [1; 4; 2; 2]%nat
                           (map (fun x : Q => sc_sub (sc_mul (sc_of_Z 2) x) (sc_of_Z 1))
                                (data rgba_2x2_pt)))).
      { apply P; [discriminate |].
        intros x Hx. simpl in Hx.
        repeat (destruct Hx as [<- | Hx]; [reflexivity |]). destruct Hx. }
      (* the call, run, and what the theorem says of it *)
      assert (C : VaeImageProcessor.preprocess (image := raster) config_scale2
                    (One (ObjArray rgba_2x2)) None None
                  = ret (NdArray [1; 4; 2; 2]%nat
                           (map (fun k => Qmake k 16)
                                [-16; -8; 0; 8; -14; -6; 2; 10;
                                 -12; -4; 4; 12; -10; -2; 6; 14])))
        by reflexivity.
      rewrite C in E |- *. exact E.
  - destruct (G Q _ raster _ _ default_config (One (ObjArray rgba_2x2)) [rgba_2x2]
                1%nat 2%nat 2%nat None None eq_refl W) as (t & _ & _ & _ & _ & R & _).
    assert (E : VaeImageProcessor.preprocess (image := raster) default_config
                  (One (ObjArray rgba_2x2)) None None
                = raise ValueError_not_divisible)
      by (apply R; [reflexivity | discriminate | left; discriminate]).
    assert (C : VaeImageProcessor.preprocess (image := raster) default_config
                  (One (ObjArray rgba_2x2)) None None
                = raise ValueError_not_divisible)
      by reflexivity.
    rewrite C in E |- *. exact E.
  - assert (E : VaeImageProcessor.preprocess (image := raster) config_plain
                  (Arrays [rgba_1x2_a; rgba_1x2_b]) None None
                = ([FutureWarning_value_range], inr rgba_1x2_pt)).
    { apply (GQ raster _ _ config_plain (Arrays [rgba_1x2_a; rgba_1x2_b])
               [rgba_1x2_a; rgba_1x2_b] rgba_1x2_pt 2%nat 1%nat 2%nat None None).
      - reflexivity.
      - split; [discriminate |].
        split; [constructor; [reflexivity | constructor; [reflexivity | constructor]] |].
        left. split; [| reflexivity].
        constructor; [reflexivity | constructor; [reflexivity | constructor]].
      - reflexivity.
      - intros D. discriminate D.
      - exists (Qmake (-1) 8). split; [do 15 right; left; reflexivity | reflexivity]. }
    assert (C : VaeImageProcessor.preprocess (image := raster) config_plain
                  (Arrays [rgba_1x2_a; rgba_1x2_b]) None None
                = ([FutureWarning_value_range],
                   inr (NdArray [2; 4; 1; 2]%nat
                          (map (fun k => Qmake k 8)
                               [0; 4; 1; 5; 2; 6; 3; 7; 8; 4; 7; 3; 6; 2; 5; -1]))))
      by reflexivity.
    rewrite C in E |- *. exact E.
  - assert (E : VaeImageProcessor.preprocess (image := raster) config_plain
                  (One (ObjArray (NdArray [1; 1; 4]%nat
                                    [F32.of_Z 1; F32.of_Z (-1); F32.of_Z 0; F32.half])))
                  None None
                = ([FutureWarning_value_range],
                   inr (NdArray [1; 4; 1; 1]%nat
                          [F32.of_Z 1; F32.of_Z (-1); F32.of_Z 0; F32.half]))).
    { apply (GF raster _ _ config_plain
               (One (ObjArray (NdArray [1; 1; 4]%nat
                                 [F32.of_Z 1; F32.of_Z (-1); F32.of_Z 0; F32.half])))
               [NdArray [1; 1; 4]%nat [F32.of_Z 1; F32.of_Z (-1); F32.of_Z 0; F32.half]]
               (NdArray [1; 4; 1; 1]%nat [F32.of_Z 1; F32.of_Z (-1); F32.of_Z 0; F32.half])
               1%nat 1%nat 1%nat None None).
      - reflexivity.
      - split; [discriminate |]. split; [constructor; [reflexivity | constructor] |].
        left. split; [constructor; [reflexivity | constructor] | reflexivity].
      - reflexivity.
      - intros D. discriminate D.
      - intros N. vm_compute in N.
        repeat (destruct N as [N | N]; [discriminate N |]). exact N.
      - exists (F32.of_Z (-1)). split; [right; left; reflexivity | reflexivity]. }
    assert (C : VaeImageProcessor.preprocess (image := raster) config_plain
                  (One (ObjArray (NdArray [1; 1; 4]%nat
                                    [F32.of_Z 1; F32.of_Z (-1); F32.of_Z 0; F32.half])))
                  None None
                = ([FutureWarning_value_range],
                   inr (NdArray [1; 4; 1; 1]%nat
                          [F32.of_Z 1; F32.of_Z (-1); F32.of_Z 0; F32.half])))
      by reflexivity.
    rewrite C in E |- *. exact E.
Defined.
